(** * odoo-mcp: the XML-RPC client, its response validator and diagnostics

    A shallow embedding of [OdooClient] (src/clients/odoo-client.ts):
    the endpoint resolver [validateAndSuggestUrls], the transport probe
    [testHttpEndpoint], the body fetch [inspectResponseBody], the response
    validator [validateXmlRpcResponse], and the session operations
    [testConnection], [authenticate], [searchRead], [count] and
    [getFields]; of the configuration loader [validateConfig] and the
    argument schemas (src/index.ts); and of the query specifications of
    the sales-order tools (src/tools/sales-orders.ts).

    JavaScript strings are modelled by [string], a character standing for
    a UTF-16 code unit below 256; the few built-in string methods the
    client uses are written out in [Module JS].  The platform's
    [new URL(...)] and [JSON.parse(...)] are not part of the repository:
    they are parameters of the development (classes [URLParser] and
    [JSONParser]).  Network and transport behaviour is an explicit argument
    of every operation that performs I/O. *)

From Stdlib Require Import String Ascii List ZArith Bool Lia.
From Stdlib Require Import DecimalString DecimalPos.
Import ListNotations.

Set Warnings "-register-all".

Local Open Scope list_scope.
Local Open Scope string_scope.

(* ------------------------------------------------------------------ *)
(** ** JavaScript string built-ins used by the client *)

Module JS.

(** [s.length === 0] *)
Definition is_empty (s : string) : bool :=
  match s with EmptyString => true | String _ _ => false end.

(** [p] is a prefix of [s]; the remainder is returned. *)
Fixpoint strip_prefix (p s : string) : option string :=
  match p, s with
  | EmptyString, _ => Some s
  | String a p', String b s' =>
      if Ascii.eqb a b then strip_prefix p' s' else None
  | String _ _, EmptyString => None
  end.

(** [s.startsWith(p)] *)
Definition startsWith (s p : string) : bool :=
  match strip_prefix p s with Some _ => true | None => false end.

(** [hay.includes(needle)] *)
Fixpoint includes (hay needle : string) : bool :=
  if startsWith hay needle then true
  else match hay with
       | EmptyString => false
       | String _ hay' => includes hay' needle
       end.

(** [s.replace(pat, rep)] with a string pattern: the first occurrence only. *)
Fixpoint replace (s pat rep : string) : string :=
  match strip_prefix pat s with
  | Some rest => rep ++ rest
  | None => match s with
            | EmptyString => EmptyString
            | String c s' => String c (replace s' pat rep)
            end
  end.

(** [s.replace(/\/$/, '')]: one slash at the very end is removed. *)
Fixpoint strip_trailing_slash (s : string) : string :=
  match s with
  | EmptyString => EmptyString
  | String c s' =>
      if Ascii.eqb c "/" && is_empty s' then EmptyString
      else String c (strip_trailing_slash s')
  end.

(** A character of a [string] stands for a UTF-16 code unit below 256.
    On that range the letters with a lower-case form are A-Z and, but for
    the multiplication sign 215, the code units 192 to 222. *)
Definition lower_char (c : ascii) : ascii :=
  let n := nat_of_ascii c in
  if ((65 <=? n)%nat && (n <=? 90)%nat) ||
     ((192 <=? n)%nat && (n <=? 222)%nat && negb (n =? 215)%nat)
  then ascii_of_nat (n + 32) else c.

(** [s.toLowerCase()] *)
Fixpoint toLowerCase (s : string) : string :=
  match s with
  | EmptyString => EmptyString
  | String c s' => String (lower_char c) (toLowerCase s')
  end.

(** White space and line terminators below 256: tab, line feed, vertical
    tab, form feed, carriage return, space and the no-break space. *)
Definition is_space (c : ascii) : bool :=
  let n := nat_of_ascii c in
  (n =? 32)%nat || ((9 <=? n)%nat && (n <=? 13)%nat) || (n =? 160)%nat.

Fixpoint trimStart (s : string) : string :=
  match s with
  | EmptyString => EmptyString
  | String c s' => if is_space c then trimStart s' else s
  end.

Fixpoint trimEnd (s : string) : string :=
  match s with
  | EmptyString => EmptyString
  | String c s' =>
      let r := trimEnd s' in
      if is_space c && is_empty r then EmptyString else String c r
  end.

(** [s.trim()] *)
Definition trim (s : string) : string := trimEnd (trimStart s).

(** The longest prefix of [s] whose characters satisfy [p], and the rest. *)
Fixpoint span (p : ascii -> bool) (s : string) : string * string :=
  match s with
  | EmptyString => (EmptyString, EmptyString)
  | String c s' =>
      if p c then let (a, b) := span p s' in (String c a, b)
      else (EmptyString, s)
  end.

(** Case-insensitive prefix test of a lower-case literal (regex flag [i]). *)
Fixpoint strip_prefix_ci (p s : string) : option string :=
  match p, s with
  | EmptyString, _ => Some s
  | String a p', String b s' =>
      if Ascii.eqb a (lower_char b) then strip_prefix_ci p' s' else None
  | String _ _, EmptyString => None
  end.

(** Leftmost match: the first suffix of [s] at which [m] succeeds. *)
Fixpoint first_match {A : Type} (m : string -> option A) (s : string)
  : option A :=
  match m s with
  | Some a => Some a
  | None => match s with
            | EmptyString => None
            | String _ s' => first_match m s'
            end
  end.

Definition digit_value (c : ascii) : option Z :=
  let n := nat_of_ascii c in
  if (48 <=? n)%nat && (n <=? 57)%nat then Some (Z.of_nat (n - 48)) else None.

Definition hex_value (c : ascii) : option Z :=
  let n := nat_of_ascii c in
  if (48 <=? n)%nat && (n <=? 57)%nat then Some (Z.of_nat (n - 48))
  else if (97 <=? n)%nat && (n <=? 102)%nat then Some (Z.of_nat (n - 87))
  else if (65 <=? n)%nat && (n <=? 70)%nat then Some (Z.of_nat (n - 55))
  else None.

(** Reads digits of the given radix from the front of [s]; [None] when
    there is not even one. *)
Fixpoint read_digits (radix : Z) (dv : ascii -> option Z)
         (acc : option Z) (s : string) : option Z :=
  match s with
  | EmptyString => acc
  | String c s' =>
      match dv c with
      | Some d =>
          read_digits radix dv
            (Some (match acc with Some a => a * radix + d | None => d end)%Z) s'
      | None => acc
      end
  end.

(** [parseInt(s)] without a radix argument; [None] is [NaN]. *)
Definition parseInt (s : string) : option Z :=
  let s := trimStart s in
  let (neg, s) := match s with
                  | String "-" r => (true, r)
                  | String "+" r => (false, r)
                  | _ => (false, s)
                  end in
  let mag := match s with
             | String "0" (String "x" r) => read_digits 16 hex_value None r
             | String "0" (String "X" r) => read_digits 16 hex_value None r
             | _ => read_digits 10 digit_value None s
             end in
  match mag with
  | Some m => Some (if neg then (- m)%Z else m)
  | None => None
  end.

(** [String(n)] / template interpolation of an integer. *)
Definition string_of_Z (z : Z) : string := NilZero.string_of_int (Z.to_int z).

End JS.

(* ------------------------------------------------------------------ *)
(** ** Data model *)

(** The fields of a parsed [URL] object that the client reads. *)
Record URL := mkURL {
  protocol : string;   (* with the trailing colon, e.g. "https:" *)
  hostname : string;
  port : string;       (* "" when absent *)
  pathname : string
}.

(** [new URL(s)]: [None] when the constructor throws. *)
Class URLParser := new_URL : string -> option URL.

(** [interface OdooConfig] (src/types/odoo.ts) *)
Record OdooConfig := mkConfig {
  url : string;
  database : string;
  username : string;
  password : string
}.

(** [interface OdooResponse<T>] (src/types/odoo.ts):
    [{ success: boolean; data?: T; error?: string }] *)
Record OdooResponse (T : Type) := mkResponse {
  success : bool;
  data : option T;
  error : option string
}.
Arguments mkResponse {T} _ _ _.
Arguments success {T} _.
Arguments data {T} _.
Arguments error {T} _.

Definition ok {T : Type} (d : T) : OdooResponse T :=
  {| success := true; data := Some d; error := None |}.
Definition failure {T : Type} (msg : string) : OdooResponse T :=
  {| success := false; data := None; error := Some msg |}.

(** The outcome of an [async] function: its promise resolves with a value,
    rejects (an exception was thrown), or stays pending for ever. *)
Inductive Async (A : Type) : Type :=
| Resolved (a : A)
| Rejected
| Pending.
Arguments Resolved {A} _.
Arguments Rejected {A}.
Arguments Pending {A}.

Definition await {A B : Type} (p : Async A) (k : A -> Async B) : Async B :=
  match p with
  | Resolved a => k a
  | Rejected => Rejected
  | Pending => Pending
  end.

Notation "x <- p ;; k" := (await p (fun x => k))
  (at level 61, p at next level, right associativity).

(* ------------------------------------------------------------------ *)
(** ** Endpoint resolver *)

(** [[...new Set(xs)]]: insertion order, first occurrence kept. *)
Definition set_add (seen : list string) (s : string) : list string :=
  if in_dec string_dec s seen then seen else (seen ++ [s])%list.

Definition spread_set (xs : list string) : list string :=
  fold_left set_add xs [].

Record UrlCheck := mkUrlCheck {
  isValid : bool;
  suggestions : list string
}.

Definition truthy_string (s : string) : bool := negb (JS.is_empty s).

Section Resolver.
Context {parser : URLParser}.

Definition validateAndSuggestUrls (configUrl : string) : UrlCheck :=
  match new_URL configUrl with
  | Some u =>
      let s1 :=
        if String.eqb (pathname u) "/" || String.eqb (pathname u) ""
        then [JS.strip_trailing_slash configUrl ++ "/xmlrpc/2/common"]
        else [] in
      let s2 :=
        if negb (truthy_string (port u))
        then [protocol u ++ "//" ++ hostname u ++ ":8069/xmlrpc/2/common";
              protocol u ++ "//" ++ hostname u ++ ":443/xmlrpc/2/common"]
        else [] in
      let baseUrl :=
        protocol u ++ "//" ++ hostname u ++
        (if truthy_string (port u) then ":" ++ port u else "") in
      let s3 :=
        [baseUrl ++ "/xmlrpc/2/common";
         baseUrl ++ ":8069/xmlrpc/2/common";
         baseUrl ++ "/odoo/xmlrpc/2/common";
         baseUrl ++ "/web/xmlrpc/2/common"] in
      {| isValid := true; suggestions := spread_set (s1 ++ s2 ++ s3)%list |}
  | None =>
      let s :=
        if negb (JS.startsWith configUrl "http")
        then ["https://" ++ configUrl ++ "/xmlrpc/2/common";
              "http://" ++ configUrl ++ ":8069/xmlrpc/2/common"]
        else [] in
      {| isValid := false; suggestions := spread_set s |}
  end.

End Resolver.

(* ------------------------------------------------------------------ *)
(** ** Network model *)

(** [IncomingHttpHeaders]: lower-case header names to values. *)
Definition Headers := list (string * string).

Fixpoint header (h : Headers) (name : string) : option string :=
  match h with
  | [] => None
  | (k, v) :: h' => if String.eqb k name then Some v else header h' name
  end.

(** The options object handed to [http.request] / [https.request]. *)
Record RequestOptions := mkRequest {
  req_secure : bool;                 (* [https] module rather than [http] *)
  req_hostname : string;
  req_port : Z;
  req_path : string;
  req_method : string;
  req_headers : Headers;
  req_timeout : Z;                   (* milliseconds *)
  req_rejectUnauthorized : option bool
}.

(** What a request meets.  [NetResponse]: the response callback runs with
    the head, the body arrives and ['end'] is emitted on the response.
    [NetUnended]: the response callback runs with the head, and the
    connection closes before the body's end, so ['end'] is never emitted on
    the response, and neither ['error'] nor ['timeout'] on the request.
    [NetError], [NetTimeout]: the request emits ['error'] or ['timeout']
    before any response. *)
Inductive NetEvent :=
| NetResponse (statusCode : Z) (statusMessage : string)
              (hdrs : Headers) (body : string)
| NetUnended (statusCode : Z) (statusMessage : string) (hdrs : Headers)
| NetError (message : string)
| NetTimeout.

Definition Network := RequestOptions -> NetEvent.

(** The two requests of one diagnosis: the body fetch and the probe. *)
Record Diagnostics := mkDiagnostics {
  body_net : Network;
  probe_net : Network
}.

(** Payload of a successful probe. *)
Record ProbeData := mkProbeData {
  status : Z;
  contentType : option string;
  headers : Headers
}.

(** The [error] argument of an xmlrpc callback. *)
Record XmlRpcError := mkError {
  message : option string;
  code : option string
}.

Definition nl : string := String (ascii_of_nat 10) EmptyString.
Definition dquote : string := String (ascii_of_nat 34) EmptyString.

(** Template interpolation of a possibly undefined string. *)
Definition show (s : option string) : string :=
  match s with Some x => x | None => "undefined" end.

(** [a || b] on possibly undefined strings. *)
Definition or_string (a : option string) (b : string) : string :=
  match a with
  | Some x => if truthy_string x then x else b
  | None => b
  end.

Definition client_headers : Headers :=
  [("User-Agent", "Odoo-MCP-Client/1.0");
   ("Content-Type", "text/xml");
   ("Content-Length", "0")].

Definition isSecure (u : URL) : bool := String.eqb (protocol u) "https:".

(** [parseInt(url.port) || (isSecure ? 443 : 8069)] *)
Definition request_port (u : URL) : Z :=
  let fallback := if isSecure u then 443%Z else 8069%Z in
  match JS.parseInt (port u) with
  | Some n => if Z.eqb n 0 then fallback else n
  | None => fallback
  end.

Definition request_options (u : URL) (path : string) (timeout : Z)
  : RequestOptions :=
  {| req_secure := isSecure u;
     req_hostname := hostname u;
     req_port := request_port u;
     req_path := path;
     req_method := "POST";
     req_headers := client_headers;
     req_timeout := timeout;
     req_rejectUnauthorized := if isSecure u then Some false else None |}.

(** The probe's request (10 s) and the body fetch's request (5 s). *)
Definition probe_request (u : URL) (path : string) : RequestOptions :=
  request_options u path 10000.
Definition fetch_request (u : URL) (path : string) : RequestOptions :=
  request_options u path 5000.

Definition msg_405 : string :=
  "HTTP 405: XML-RPC endpoint found but method not allowed. This usually means the endpoint is correct but needs proper XML-RPC requests.".

Definition msg_status (statusCode : Z) (statusMessage : string) : string :=
  "HTTP " ++ JS.string_of_Z statusCode ++ ": " ++ statusMessage ++
  ". Check if XML-RPC is enabled on this Odoo instance.".

Definition msg_request_failed (m : string) : string :=
  "HTTP request failed: " ++ m ++ ". Check URL and network connectivity.".

Definition msg_request_timeout : string :=
  "HTTP request timed out. Server might be overloaded or unreachable.".

Definition body_unavailable : string := "Unable to fetch response body".
Definition body_timed_out : string := "Response body fetch timed out".

(** The regular expression [/Unknown XML-RPC tag '([^']+)'/] tried at the
    front of [s]: capture group 1. *)
Definition unknown_tag_at (s : string) : option string :=
  match JS.strip_prefix "Unknown XML-RPC tag '" s with
  | Some rest =>
      let (tag, rest') := JS.span (fun c => negb (Ascii.eqb c "'")) rest in
      if JS.is_empty tag then None
      else match rest' with
           | String "'" _ => Some tag
           | _ => None
           end
  | None => None
  end.

(** [msg.match(/Unknown XML-RPC tag '([^']+)'/)?.[1]] *)
Definition match_unknown_tag (msg : string) : option string :=
  JS.first_match unknown_tag_at msg.

(** [/<title[^>]*>([^<]+)<\/title>/i] tried at the front of [s]. *)
Definition title_at (s : string) : option string :=
  match JS.strip_prefix_ci "<title" s with
  | Some rest =>
      let (_, rest1) := JS.span (fun c => negb (Ascii.eqb c ">")) rest in
      match rest1 with
      | String ">" rest2 =>
          let (title, rest3) := JS.span (fun c => negb (Ascii.eqb c "<")) rest2 in
          if JS.is_empty title then None
          else match JS.strip_prefix_ci "</title>" rest3 with
               | Some _ => Some title
               | None => None
               end
      | _ => None
      end
  | None => None
  end.

Definition match_title (body : string) : option string :=
  JS.first_match title_at body.

(** The numbered remediation lines, [index] counting from 0. *)
Fixpoint suggestion_lines (index : nat) (xs : list string) : string :=
  match xs with
  | [] => ""
  | s :: xs' =>
      nl ++ JS.string_of_Z (Z.of_nat (index + 1)) ++ ". ODOO_URL=" ++
      JS.replace s "/xmlrpc/2/common" "" ++ suggestion_lines (S index) xs'
  end.

Definition title_diagnosis (title : string) : string :=
  let t := JS.toLowerCase title in
  if JS.includes t "404" || JS.includes t "not found" then
    nl ++ nl ++ "This is a 404 error page. The XML-RPC endpoint doesn't exist at this URL."
  else if JS.includes t "login" || JS.includes t "sign in" then
    nl ++ nl ++ "This is a login page. You may need to authenticate at the web server level first."
  else if JS.includes t "error" || JS.includes t "exception" then
    nl ++ nl ++ "This appears to be an error page from Odoo."
  else "".

Definition xml_guidance : string :=
  nl ++ nl ++ "The Content-Type suggests this should be XML-RPC, but the response contains HTML elements." ++
  nl ++ "This usually means:" ++
  nl ++ "1. Odoo is returning an error page in XML format" ++
  nl ++ "2. Wrong database name or XML-RPC path" ++
  nl ++ "3. Odoo configuration issue" ++
  nl ++ nl ++ "Check your ODOO_DATABASE setting and ensure XML-RPC is properly configured.".

Definition html_guidance : string :=
  nl ++ nl ++ "This suggests:" ++
  nl ++ "1. URL might be pointing to Odoo web interface instead of XML-RPC endpoint" ++
  nl ++ "2. XML-RPC might be disabled on this Odoo instance" ++
  nl ++ "3. Authentication might be required at web server level" ++
  nl ++ "4. Wrong port or path" ++
  nl ++ nl ++ "Try these URLs in your .env file:".

(** The opening sentence of the diagnosis, naming the tag that was found. *)
Definition tag_sentence (htmlTag : option string) : string :=
  "Server returned non-XML-RPC response (found <" ++ show htmlTag ++ "> tag). ".

Section Probe.
Context {parser : URLParser}.
Variable cfg : OdooConfig.

Definition testHttpEndpoint (net : Network) (path : string)
  : Async (OdooResponse ProbeData) :=
  match new_URL (url cfg) with
  | None => Rejected
  | Some u =>
      match net (probe_request u path) with
      | NetResponse statusCode statusMessage hdrs _
      | NetUnended statusCode statusMessage hdrs =>
          if Z.eqb statusCode 200 || Z.eqb statusCode 400 || Z.eqb statusCode 500
          then Resolved (ok {| status := statusCode;
                               contentType := header hdrs "content-type";
                               headers := hdrs |})
          else if Z.eqb statusCode 405
          then Resolved (failure msg_405)
          else Resolved (failure (msg_status statusCode statusMessage))
      | NetError m => Resolved (failure (msg_request_failed m))
      | NetTimeout => Resolved (failure msg_request_timeout)
      end
  end.

Definition inspectResponseBody (net : Network) (path : string)
  : Async string :=
  match new_URL (url cfg) with
  | None => Rejected
  | Some u =>
      match net (fetch_request u path) with
      | NetResponse _ _ _ body => Resolved body
      | NetUnended _ _ _ => Pending
      | NetError _ => Resolved body_unavailable
      | NetTimeout => Resolved body_timed_out
      end
  end.

(** The text appended after the tag sentence when the probe succeeded. *)
Definition probe_diagnosis (probe : OdooResponse ProbeData)
           (responseBody : string) : string :=
  let contentType :=
    or_string (match data probe with
               | Some d => contentType d
               | None => None
               end) "unknown" in
  let d1 := nl ++ nl ++ "Endpoint returns Content-Type: " ++ contentType in
  let d2 :=
    if JS.includes responseBody "<title>" || JS.includes responseBody "<TITLE>"
    then
      let title := match match_title responseBody with
                   | Some t => JS.trim t
                   | None => "Unknown"
                   end in
      nl ++ nl ++ "Page title: " ++ dquote ++ title ++ dquote ++
      title_diagnosis title
    else "" in
  let d3 :=
    if JS.includes contentType "text/xml" then xml_guidance
    else if JS.includes contentType "text/html" then
      html_guidance ++
      suggestion_lines 0 (firstn 5 (suggestions (validateAndSuggestUrls (url cfg)))) ++
      nl ++ nl ++ "Or check if XML-RPC is enabled in Odoo configuration."
    else "" in
  d1 ++ d2 ++ d3.

Definition validateXmlRpcResponse {T : Type} (diag : Diagnostics)
           (err : option XmlRpcError) (result : T) (operation : string)
  : Async (OdooResponse T) :=
  match err with
  | Some e =>
      if match message e with
         | Some m => truthy_string m && JS.includes m "Unknown XML-RPC tag"
         | None => false
         end
      then
        let htmlTag := match message e with
                       | Some m => match_unknown_tag m
                       | None => None
                       end in
        responseBody <- inspectResponseBody (body_net diag) "/xmlrpc/2/common" ;;
        httpTest <- testHttpEndpoint (probe_net diag) "/xmlrpc/2/common" ;;
        let detailedError := tag_sentence htmlTag in
        let detailedError :=
          if negb (success httpTest)
          then detailedError ++ nl ++ nl ++ "Endpoint test failed: " ++
               show (error httpTest)
          else detailedError ++ probe_diagnosis httpTest responseBody in
        Resolved (failure detailedError)
      else
        Resolved (failure (operation ++ " failed: " ++
                           or_string (message e)
                             (or_string (code e) "Unknown error")))
  | None => Resolved (ok result)
  end.

End Probe.

(* ------------------------------------------------------------------ *)
(** ** RPC session *)

(** Values that travel over XML-RPC, as JavaScript sees them. *)
Inductive jsval :=
| JUndefined
| JNull
| JBool (b : bool)
| JNum (n : Z)
| JStr (s : string)
| JArr (xs : list jsval)
| JObj (fs : list (string * jsval)).

(** [!!v] *)
Definition truthy (v : jsval) : bool :=
  match v with
  | JUndefined | JNull => false
  | JBool b => b
  | JNum n => negb (Z.eqb n 0)
  | JStr s => truthy_string s
  | JArr _ | JObj _ => true
  end.

(** [interface OdooSearchParams] (src/types/odoo.ts): five optional
    members.  [domain] is declared [any[]], and [handleGetSalesOrders]
    passes whatever [JSON.parse] returned: it is modelled as any value. *)
Record OdooSearchParams := mkParams {
  domain : option jsval;
  fields : option (list string);
  limit : option Z;
  offset : option Z;
  order : option string
}.

(** [params = {}] *)
Definition no_params : OdooSearchParams :=
  {| domain := None; fields := None; limit := None; offset := None;
     order := None |}.

(** An object literal: its members, in the order they are written. *)
Definition JSObject := list (string * jsval).

(** [o[name]] on an object whose member names are distinct; [None] when
    the object has no such member. *)
Fixpoint member (o : JSObject) (name : string) : option jsval :=
  match o with
  | [] => None
  | (k, v) :: o' => if String.eqb k name then Some v else member o' name
  end.

(** The [methodCall]s the session issues. *)
Inductive RpcCall :=
| CommonAuthenticate (db user pass : string)
| ObjectExecuteKw (db : string) (uid : jsval) (pass : string)
                  (model method : string) (args : list jsval)
                  (kwargs : JSObject).

(** The mutable part of an [OdooClient], with the trace of remote calls. *)
Record Client := mkClient {
  uid : jsval;                 (* [null] until authentication succeeds *)
  calls : list RpcCall
}.

Definition new_client : Client := {| uid := JNull; calls := [] |}.

(** One timeout-bounded [methodCall]: the promise and its timer. *)
Record Call := mkCall {
  settled : option (OdooResponse jsval);
  timer : option Z            (* the delay of the pending timer, if any *)
}.

(** A fresh promise whose timer was set with [setTimeout(..., delay)]. *)
Definition setTimeout (delay : Z) : Call :=
  {| settled := None; timer := Some delay |}.

(** [resolve(r)]: a promise keeps the first value it was resolved with. *)
Definition resolve (r : OdooResponse jsval) (c : Call) : Call :=
  match settled c with
  | Some _ => c
  | None => {| settled := Some r; timer := timer c |}
  end.

Definition clearTimeout (c : Call) : Call :=
  {| settled := settled c; timer := None |}.

Definition promise (c : Call) : Async (OdooResponse jsval) :=
  match settled c with
  | Some r => Resolved r
  | None => Pending
  end.

(** What can happen to a pending [methodCall]: its timer fires, or the
    transport invokes the callback (with the diagnosis network it will see). *)
Inductive TransportEvent :=
| TimerFired
| Callback (err : option XmlRpcError) (value : jsval) (diag : Diagnostics).

Definition msg_auth_timeout : string :=
  "Authentication timed out - check your credentials and Odoo server status".
Definition msg_invalid_credentials : string :=
  "Invalid credentials or API key. Check your username, database name, and API key.".
Definition msg_search_timeout : string :=
  "Search operation timed out - the query may be too complex or the server is overloaded".

Definition auth_timeout_ms : Z := 15000.
Definition search_timeout_ms : Z := 20000.

(** [methodCall('authenticate', [database, username, password, {}])] *)
Definition authenticate_call (cfg : OdooConfig) : RpcCall :=
  CommonAuthenticate (database cfg) (username cfg) (password cfg).

Section Session.
Context {parser : URLParser}.
Variable cfg : OdooConfig.

(** One event of a running [authenticate()] call. *)
Definition authenticate_step (ev : TransportEvent) (st : Client * Call)
  : Client * Call :=
  let (c, call) := st in
  match ev with
  | TimerFired =>
      match timer call with
      | Some _ => (c, resolve (failure msg_auth_timeout) (clearTimeout call))
      | None => st
      end
  | Callback err value diag =>
      let call := clearTimeout call in
      match validateXmlRpcResponse cfg diag err value "Authentication" with
      | Resolved validationResult =>
          if success validationResult then
            if negb (truthy value)
            then (c, resolve (failure msg_invalid_credentials) call)
            else ({| uid := value; calls := calls c |},
                  resolve (ok value) call)
          else (c, resolve validationResult call)
      | Rejected | Pending => (c, call)
      end
  end.

(** [authenticate()] up to the moment its events [evs] have happened. *)
Definition authenticate_start (c : Client) : Client * Call :=
  ({| uid := uid c;
      calls := (calls c ++ [authenticate_call cfg])%list |},
   setTimeout auth_timeout_ms).

Definition authenticate_run (evs : list TransportEvent) (c : Client)
  : Client * Call :=
  fold_left (fun st ev => authenticate_step ev st) evs (authenticate_start c).

(** [await this.authenticate()]: events are consumed until the promise
    settles. *)
Fixpoint until_settled (step : TransportEvent -> Client * Call -> Client * Call)
         (evs : list TransportEvent) (st : Client * Call) : Client * Call :=
  match settled (snd st), evs with
  | None, ev :: evs' => until_settled step evs' (step ev st)
  | _, _ => st
  end.

Definition authenticate (evs : list TransportEvent) (c : Client)
  : Client * Async (OdooResponse jsval) :=
  let (c', call) := until_settled authenticate_step evs (authenticate_start c) in
  (c', promise call).

(** The object literal
    [{ fields: fields.length > 0 ? fields : undefined, limit, offset, order }]
    after the destructuring defaults: four members, always written. *)
Definition search_kwargs (params : OdooSearchParams) : JSObject :=
  let fields := match fields params with Some f => f | None => [] end in
  let limit := match limit params with Some l => l | None => 100%Z end in
  let offset := match offset params with Some o => o | None => 0%Z end in
  let order := match order params with Some o => o | None => "id desc" end in
  [("fields", if (0 <? length fields)%nat then JArr (map JStr fields)
              else JUndefined);
   ("limit", JNum limit);
   ("offset", JNum offset);
   ("order", JStr order)].

Definition search_call (c : Client) (model : string)
           (params : OdooSearchParams) : RpcCall :=
  ObjectExecuteKw (database cfg) (uid c) (password cfg) model "search_read"
    [match domain params with Some d => d | None => JArr [] end]
    (search_kwargs params).

(** One event of the [execute_kw] call of [searchRead]. *)
Definition search_step (ev : TransportEvent) (st : Client * Call)
  : Client * Call :=
  let (c, call) := st in
  match ev with
  | TimerFired =>
      match timer call with
      | Some _ => (c, resolve (failure msg_search_timeout) (clearTimeout call))
      | None => st
      end
  | Callback err result diag =>
      let call := clearTimeout call in
      match validateXmlRpcResponse cfg diag err result "SearchRead" with
      | Resolved validationResult =>
          if success validationResult
          then (c, resolve (ok (if truthy result then result else JArr [])) call)
          else (c, resolve validationResult call)
      | Rejected | Pending => (c, call)
      end
  end.

(** The transport's behaviour during one [searchRead]: the events of the
    authentication call (if one is made) and those of the query. *)
Record World := mkWorld {
  auth_events : list TransportEvent;
  query_events : list TransportEvent
}.

Definition search_query (w : World) (model : string)
           (params : OdooSearchParams) (c : Client)
  : Client * Async (OdooResponse jsval) :=
  let c1 := {| uid := uid c;
               calls := (calls c ++ [search_call c model params])%list |} in
  let (c2, call) := until_settled search_step (query_events w)
                    (c1, setTimeout search_timeout_ms) in
  (c2, promise call).

Definition searchRead (w : World) (model : string)
           (params : OdooSearchParams) (c : Client)
  : Client * Async (OdooResponse jsval) :=
  if negb (truthy (uid c)) then
    match authenticate (auth_events w) c with
    | (c', Resolved authResult) =>
        if negb (success authResult)
        then (c', Resolved {| success := false; data := None;
                              error := error authResult |})
        else search_query w model params c'
    | (c', Rejected) => (c', Rejected)
    | (c', Pending) => (c', Pending)
    end
  else search_query w model params c.

End Session.

(* ------------------------------------------------------------------ *)
(** ** The tool front end's bound on [limit]

    [GetSalesOrdersArgsSchema] (src/index.ts) declares
    [limit: z.number().min(1).max(1000).optional()], and the tool's input
    schema documents [maximum: 1000]; [handleGetSalesOrders] then passes
    [args.limit || 100]. *)

Definition documented_limit_cap : Z := 1000.

Definition GetSalesOrdersArgsSchema_limit (l : option Z) : bool :=
  match l with
  | None => true
  | Some n => (1 <=? n)%Z && (n <=? documented_limit_cap)%Z
  end.

Definition handleGetSalesOrders_limit (l : option Z) : Z :=
  match l with
  | Some n => if Z.eqb n 0 then 100%Z else n
  | None => 100%Z
  end.

(* ------------------------------------------------------------------ *)
(** ** A reference URL parser for the worked examples

    Addresses of the plain form [scheme://host[:port][/path]] only.  On the
    addresses used in the examples of this file it reports the fields the
    platform's [URL] constructor reports (lower-cased scheme and host, the
    scheme's default port elided, ["/"] for an empty path).  It is no model
    of the platform's parser: every other text is rejected here, also text
    the platform accepts ([localhost:8069] is, for the platform, the scheme
    [localhost:] with the path [8069]).  The theorems quantify over the
    parser; this one serves the worked examples alone. *)

Definition is_alpha (c : ascii) : bool :=
  let n := nat_of_ascii (JS.lower_char c) in (97 <=? n)%nat && (n <=? 122)%nat.

Definition is_digit (c : ascii) : bool :=
  match JS.digit_value c with Some _ => true | None => false end.

Fixpoint all_chars (p : ascii -> bool) (s : string) : bool :=
  match s with
  | EmptyString => true
  | String c s' => p c && all_chars p s'
  end.

Definition default_port (scheme : string) : option Z :=
  if String.eqb scheme "http" then Some 80%Z
  else if String.eqb scheme "https" then Some 443%Z
  else None.

Definition plain_port (scheme digits : string) : option string :=
  if JS.is_empty digits then Some ""
  else if negb (all_chars is_digit digits) then None
  else match JS.parseInt digits with
       | Some n =>
           if (65535 <? n)%Z then None
           else if match default_port scheme with
                   | Some d => Z.eqb d n
                   | None => false
                   end
                then Some ""
                else Some (JS.string_of_Z n)
       | None => None
       end.

Definition plain_URL (s : string) : option URL :=
  let (scheme, r) := JS.span is_alpha s in
  if JS.is_empty scheme then None
  else match JS.strip_prefix "://" r with
       | None => None
       | Some r1 =>
           let (authority, path) :=
             JS.span (fun c => negb (Ascii.eqb c "/")) r1 in
           let (host, r2) :=
             JS.span (fun c => negb (Ascii.eqb c ":")) authority in
           if JS.is_empty host || negb (all_chars (fun c => negb (JS.is_space c)) host)
           then None
           else
             let scheme := JS.toLowerCase scheme in
             match match r2 with
                   | EmptyString => Some ""
                   | String _ digits => plain_port scheme digits
                   end with
             | Some p =>
                 Some {| protocol := scheme ++ ":";
                         hostname := JS.toLowerCase host;
                         port := p;
                         pathname := if JS.is_empty path then "/" else path |}
             | None => None
             end
       end.

Definition plain_parser : URLParser := plain_URL.

(* ------------------------------------------------------------------ *)
(** ** Predicates used in the statements *)

Definition quote_free (s : string) : bool :=
  all_chars (fun c => negb (Ascii.eqb c "'")) s.

(** [msg] holds the text [Unknown XML-RPC tag 'X'] at offset [length pre],
    with a non-empty, quote-free tag [X]. *)
Definition signature_at (msg pre X : string) : Prop :=
  exists post,
    msg = pre ++ "Unknown XML-RPC tag '" ++ X ++ "'" ++ post /\
    X <> "" /\ quote_free X = true.

(** [X] is the tag of the first such signature of [msg]: the one a regular
    expression search reports. *)
Definition first_unknown_tag (msg X : string) : Prop :=
  exists pre,
    signature_at msg pre X /\
    forall pre' Y, signature_at msg pre' Y ->
                  String.length pre <= String.length pre'.

Definition is_authenticate (c : RpcCall) : bool :=
  match c with
  | CommonAuthenticate _ _ _ => true
  | ObjectExecuteKw _ _ _ _ _ _ _ => false
  end.

(** Number of authentication attempts in a trace of remote calls. *)
Definition auth_attempts (l : list RpcCall) : nat :=
  length (filter is_authenticate l).

(** The identity is held: [this.uid] is set (and so truthy). *)
Definition identity_held (c : Client) : Prop := truthy (uid c) = true.

(** The identity field is [null] or truthy. *)
Definition identity_well_formed (c : Client) : Prop :=
  uid c = JNull \/ truthy (uid c) = true.

(** What the resolver is said to offer for an address it cannot parse:
    the secure scheme with the standard sub-path, and the non-secure scheme
    with port 8069 and the standard sub-path. *)
Definition suggests_both_prefixes {parser : URLParser} (configUrl : string)
  : Prop :=
  let r := validateAndSuggestUrls configUrl in
  isValid r = false /\
  In ("https://" ++ configUrl ++ "/xmlrpc/2/common") (suggestions r) /\
  In ("http://" ++ configUrl ++ ":8069/xmlrpc/2/common") (suggestions r).

(** What the keyword arguments of a [search_read] call carry for a query
    specification: the members [fields], [limit], [offset] and [order] and
    no other; the defaults 100, 0 and [id desc] where the specification
    leaves a member out and the caller's value where it gives one; the
    requested field list when it is not empty, and the value [undefined]
    when it is absent or empty. *)
Definition carries_query (params : OdooSearchParams) (kw : JSObject)
  : Prop :=
  map fst kw = ["fields"; "limit"; "offset"; "order"] /\
  member kw "limit" =
    Some (JNum (match limit params with Some l => l | None => 100%Z end)) /\
  member kw "offset" =
    Some (JNum (match offset params with Some o => o | None => 0%Z end)) /\
  member kw "order" =
    Some (JStr (match order params with Some o => o | None => "id desc" end)) /\
  member kw "fields" =
    Some (match fields params with
          | Some (f :: fs) => JArr (map JStr (f :: fs))
          | Some [] | None => JUndefined
          end).

(* ------------------------------------------------------------------ *)
(** ** Concrete configurations and networks for the worked examples *)

Definition acme_config : OdooConfig :=
  {| url := "https://acme.example.com"; database := "acme";
     username := "admin"; password := "secret" |}.

(** A web server that answers every request with an HTML login page. *)
Definition login_page : Network :=
  fun _ => NetResponse 200 "OK" [("content-type", "text/html; charset=utf-8")]
                       "<html><head><title> Login | Odoo </title></head></html>".


Definition unreachable : Network := fun _ => NetError "connect ECONNREFUSED".

Definition login_page_diagnostics : Diagnostics :=
  {| body_net := login_page; probe_net := login_page |}.

Definition html_tag_error : XmlRpcError :=
  {| message := Some "Unknown XML-RPC tag 'HTML'"; code := None |}.

Definition acme_url : URL :=
  {| protocol := "https:"; hostname := "acme.example.com"; port := "";
     pathname := "/" |}.

Definition local_config : OdooConfig :=
  {| url := "http://localhost"; database := "dev";
     username := "admin"; password := "admin" |}.

Definition local_url : URL :=
  {| protocol := "http:"; hostname := "localhost"; port := ""; pathname := "/" |}.

Definition proxied_config : OdooConfig :=
  {| url := "http://localhost:8080"; database := "dev";
     username := "admin"; password := "admin" |}.

Definition proxied_url : URL :=
  {| protocol := "http:"; hostname := "localhost"; port := "8080";
     pathname := "/" |}.

Definition unreachable_diagnostics : Diagnostics :=
  {| body_net := unreachable; probe_net := unreachable |}.

(** A server that sends the head of an HTML page and closes the connection
    before the body's end. *)
Definition cut_short : Network :=
  fun _ => NetUnended 200 "OK" [("content-type", "text/html; charset=utf-8")].

Definition cut_short_diagnostics : Diagnostics :=
  {| body_net := cut_short; probe_net := cut_short |}.

(** A configuration whose address names the default port of its scheme. *)
Definition default_port_config : OdooConfig :=
  {| url := "http://localhost:80"; database := "dev";
     username := "admin"; password := "admin" |}.

(** A host that listens on port 80 only. *)
Definition only_port_80 : Network :=
  fun req =>
    if Z.eqb (req_port req) 80 then NetResponse 200 "OK" [] "<methodResponse/>"
    else NetError "connect ECONNREFUSED".


(** The transport answers the query with two rows; no authentication
    traffic is expected. *)
Definition rows_world : World :=
  {| auth_events := [];
     query_events := [Callback None (JArr [JNum 1; JNum 2])
                               unreachable_diagnostics] |}.

(** The server rejects the credentials: [authenticate] yields [false]. *)
Definition rejecting_world : World :=
  {| auth_events := [Callback None (JBool false) unreachable_diagnostics];
     query_events := [] |}.

Definition signed_in : Client := {| uid := JNum 7; calls := [] |}.

Definition large_query : OdooSearchParams :=
  {| domain := None; fields := None; limit := Some 5000%Z; offset := None;
     order := None |}.

(* ------------------------------------------------------------------ *)
(** ** The other operations of the client

    [testConnection], [count] and [getFields] issue remote calls that
    [RpcCall] has no constructor for; a session records every
    [methodCall] in order. *)

Inductive RemoteCall :=
| Logged (c : RpcCall)                   (* authenticate, search_read *)
| CommonVersion                          (* [methodCall('version', [])] *)
| ObjectSearchCount (db : string) (uid : jsval) (pass : string)
                    (model : string) (domain : list jsval)
| ObjectFieldsGet (db : string) (uid : jsval) (pass : string)
                  (model : string).

Record Session := mkSession {
  session_uid : jsval;                   (* [this.uid] *)
  trace : list RemoteCall
}.

(** [new OdooClient(config)]: no identity, nothing called yet. *)
Definition new_session : Session := {| session_uid := JNull; trace := [] |}.

(** The two endpoints the constructor creates its clients for. *)
Definition common_endpoint (cfg : OdooConfig) : string :=
  url cfg ++ "/xmlrpc/2/common".
Definition object_endpoint (cfg : OdooConfig) : string :=
  url cfg ++ "/xmlrpc/2/object".

(** Runs an operation of the claims' client on the session's identity and
    appends the calls it issued to the trace. *)
Definition with_client {A : Type} (op : Client -> Client * A) (s : Session)
  : Session * A :=
  let (c', a) := op {| uid := session_uid s; calls := [] |} in
  ({| session_uid := uid c';
      trace := (trace s ++ map Logged (calls c'))%list |}, a).

Definition msg_connection_timeout : string :=
  "XML-RPC connection test timed out - check your Odoo URL and network connectivity".

Definition connection_timeout_ms : Z := 10000.

(** The callback's first invocation, if the transport ever invokes it; a
    call without a timer has nothing else to wait for. *)
Fixpoint first_reply (evs : list TransportEvent)
  : option (option XmlRpcError * jsval) :=
  match evs with
  | [] => None
  | TimerFired :: evs' => first_reply evs'
  | Callback err value _ :: _ => Some (err, value)
  end.

(** What happens to a session, one thing after the other: an operation is
    called and awaited, with the transport behaviour it meets; or the
    transport invokes, only now, the callback of an earlier [authenticate]
    call whose timer had fired.  The events of an authentication call that
    are listed after the one that settles it are late events too: they
    happen once the operation has returned, before the next step. *)
Inductive Operation :=
| DoAuthenticate (evs : list TransportEvent)
| DoSearchRead (w : World) (model : string) (params : OdooSearchParams)
| DoCount (w : World) (model : string) (domain : option (list jsval))
| DoGetFields (w : World) (model : string)
| DoTestConnection (evs : list TransportEvent)
| LateReply (err : option XmlRpcError) (value : jsval) (diag : Diagnostics).

Definition is_explicit_authenticate (op : Operation) : bool :=
  match op with DoAuthenticate _ => true | _ => false end.

Definition is_late_reply (op : Operation) : bool :=
  match op with LateReply _ _ _ => true | _ => false end.

(** The events a call has not consumed when its promise settles. *)
Fixpoint after_settled (step : TransportEvent -> Client * Call -> Client * Call)
         (evs : list TransportEvent) (st : Client * Call)
  : list TransportEvent :=
  match settled (snd st), evs with
  | None, ev :: evs' => after_settled step evs' (step ev st)
  | _, _ => evs
  end.

Section Operations.
Context {parser : URLParser}.
Variable cfg : OdooConfig.

(** One event of a running [testConnection()] call. *)
Definition connection_step (ev : TransportEvent) (st : Client * Call)
  : Client * Call :=
  let (c, call) := st in
  match ev with
  | TimerFired =>
      match timer call with
      | Some _ => (c, resolve (failure msg_connection_timeout) (clearTimeout call))
      | None => st
      end
  | Callback err result diag =>
      let call := clearTimeout call in
      match validateXmlRpcResponse cfg diag err result "Connection test" with
      | Resolved validationResult => (c, resolve validationResult call)
      | Rejected | Pending => (c, call)
      end
  end.

Definition testConnection (evs : list TransportEvent) (s : Session)
  : Session * Async (OdooResponse jsval) :=
  let s1 := {| session_uid := session_uid s;
               trace := (trace s ++ [CommonVersion])%list |} in
  let (_, call) :=
    until_settled connection_step evs
      ({| uid := session_uid s; calls := [] |},
       setTimeout connection_timeout_ms) in
  (s1, promise call).

(** The block [if (!this.uid) { ... }] that [count] and [getFields] open
    with: authenticate when no identity is held, and hand the failure on. *)
Definition ensure_identity (auth_evs : list TransportEvent)
           (k : Session -> Session * Async (OdooResponse jsval))
           (s : Session) : Session * Async (OdooResponse jsval) :=
  if negb (truthy (session_uid s)) then
    match with_client (authenticate cfg auth_evs) s with
    | (s', Resolved authResult) =>
        if negb (success authResult)
        then (s', Resolved {| success := false; data := None;
                              error := error authResult |})
        else k s'
    | (s', Rejected) => (s', Rejected)
    | (s', Pending) => (s', Pending)
    end
  else k s.

Definition count_query (w : World) (model : string)
           (domain : option (list jsval)) (s : Session)
  : Session * Async (OdooResponse jsval) :=
  ({| session_uid := session_uid s;
      trace := (trace s ++
                [ObjectSearchCount (database cfg) (session_uid s) (password cfg)
                   model (match domain with Some d => d | None => [] end)])%list |},
   match first_reply (query_events w) with
   | None => Pending
   | Some (Some e, _) =>
       Resolved (failure ("Count failed: " ++ show (message e)))
   | Some (None, result) => Resolved (ok result)
   end).

(** [count(model, domain = [])]: no timer, no validator. *)
Definition count (w : World) (model : string)
           (domain : option (list jsval)) (s : Session)
  : Session * Async (OdooResponse jsval) :=
  ensure_identity (auth_events w) (count_query w model domain) s.

Definition fields_query (w : World) (model : string) (s : Session)
  : Session * Async (OdooResponse jsval) :=
  ({| session_uid := session_uid s;
      trace := (trace s ++
                [ObjectFieldsGet (database cfg) (session_uid s) (password cfg)
                   model])%list |},
   match first_reply (query_events w) with
   | None => Pending
   | Some (Some e, _) =>
       Resolved (failure ("Fields retrieval failed: " ++ show (message e)))
   | Some (None, result) => Resolved (ok result)
   end).

(** [getFields(model)]: [fields_get] with no arguments and empty options. *)
Definition getFields (w : World) (model : string) (s : Session)
  : Session * Async (OdooResponse jsval) :=
  ensure_identity (auth_events w) (fields_query w model) s.

(** The session at the moment the awaited operation returns. *)
Definition at_return (op : Operation) (s : Session) : Session :=
  match op with
  | DoAuthenticate evs => fst (with_client (authenticate cfg evs) s)
  | DoSearchRead w model params =>
      fst (with_client (searchRead cfg w model params) s)
  | DoCount w model domain => fst (count w model domain s)
  | DoGetFields w model => fst (getFields w model s)
  | DoTestConnection evs => fst (testConnection evs s)
  | LateReply _ _ _ => s
  end.

(** The events of the [authenticate()] call an operation makes on [s], if
    it makes one: always for [authenticate], and for the data operations
    when no identity is held. *)
Definition authentication_events (op : Operation) (s : Session)
  : option (list TransportEvent) :=
  match op with
  | DoAuthenticate evs => Some evs
  | DoSearchRead w _ _ | DoCount w _ _ | DoGetFields w _ =>
      if negb (truthy (session_uid s)) then Some (auth_events w) else None
  | DoTestConnection _ | LateReply _ _ _ => None
  end.

(** An [authenticate] call whose timer has fired. *)
Definition timed_out_call : Call :=
  resolve (failure msg_auth_timeout) (clearTimeout (setTimeout auth_timeout_ms)).

(** The callback of [authenticate] invoked on a call that has timed out:
    the promise keeps its value, [this.uid = uid] runs as ever. *)
Definition late_reply (err : option XmlRpcError) (value : jsval)
           (diag : Diagnostics) (s : Session) : Session :=
  let (c, _) := authenticate_step cfg (Callback err value diag)
                  ({| uid := session_uid s; calls := [] |}, timed_out_call) in
  {| session_uid := uid c; trace := trace s |}.

(** The state a step leaves the session in.  The calls are those made up
    to the operation's return; the identity is the one left when every
    event of the operation's authentication call has happened, also those
    that arrive after its promise has settled: neither the query of a data
    operation nor its callbacks assign [this.uid]. *)
Definition perform (op : Operation) (s : Session) : Session :=
  match op with
  | LateReply err value diag => late_reply err value diag s
  | _ =>
      match authentication_events op s with
      | Some evs =>
          {| session_uid :=
               uid (fst (authenticate_run cfg evs
                           {| uid := session_uid s; calls := [] |}));
             trace := trace (at_return op s) |}
      | None => at_return op s
      end
  end.

Definition perform_all (ops : list Operation) (s : Session) : Session :=
  fold_left (fun s op => perform op s) ops s.

End Operations.

(** Authentication attempts in a session's trace. *)
Definition is_logged_authenticate (c : RemoteCall) : bool :=
  match c with Logged r => is_authenticate r | _ => false end.

Definition session_auth_attempts (l : list RemoteCall) : nat :=
  length (filter is_logged_authenticate l).

(** The identity argument of a data call. *)
Definition call_identity (c : RemoteCall) : option jsval :=
  match c with
  | Logged (ObjectExecuteKw _ i _ _ _ _ _) => Some i
  | ObjectSearchCount _ i _ _ _ => Some i
  | ObjectFieldsGet _ i _ _ => Some i
  | Logged (CommonAuthenticate _ _ _) | CommonVersion => None
  end.

(** Every data call in [new] carries a truthy identity. *)
Definition identified (new : list RemoteCall) : Prop :=
  Forall (fun c => forall i, call_identity c = Some i -> truthy i = true) new.

(** The calls an operation adds: at most one authentication attempt, and
    data calls only with a truthy identity; the identity is kept or
    replaced by a truthy one. *)
Definition orderly (old_uid new_uid : jsval) (new : list RemoteCall) : Prop :=
  identified new /\
  session_auth_attempts new <= 1 /\
  (new_uid = old_uid \/ truthy new_uid = true).

(** An outcome has the shape the interface promises: a success carries a
    payload and no message, a failure a non-empty message and no payload. *)
Definition well_formed_outcome {T : Type} (r : OdooResponse T) : Prop :=
  (success r = true /\ (exists d, data r = Some d) /\ error r = None) \/
  (success r = false /\ data r = None /\
   exists m, error r = Some m /\ m <> "").

(** The number a run of decimal digits denotes, continuing from [a]. *)
Fixpoint decimal_value (d : Decimal.uint) (a : Z) : Z :=
  match d with
  | Decimal.Nil => a
  | Decimal.D0 d' => decimal_value d' (a * 10 + 0)
  | Decimal.D1 d' => decimal_value d' (a * 10 + 1)
  | Decimal.D2 d' => decimal_value d' (a * 10 + 2)
  | Decimal.D3 d' => decimal_value d' (a * 10 + 3)
  | Decimal.D4 d' => decimal_value d' (a * 10 + 4)
  | Decimal.D5 d' => decimal_value d' (a * 10 + 5)
  | Decimal.D6 d' => decimal_value d' (a * 10 + 6)
  | Decimal.D7 d' => decimal_value d' (a * 10 + 7)
  | Decimal.D8 d' => decimal_value d' (a * 10 + 8)
  | Decimal.D9 d' => decimal_value d' (a * 10 + 9)
  end%Z.

(* ------------------------------------------------------------------ *)
(** ** Configuration loader ([validateConfig], src/index.ts) *)

(** The eight environment variables [ConfigSchema] reads; [None] is an
    unset variable. *)
Record Env := mkEnv {
  ODOO_URL : option string;
  ODOO_DATABASE : option string;
  ODOO_USERNAME : option string;
  ODOO_API_KEY : option string;
  ODOO_HOST : option string;
  ODOO_DB : option string;
  ODOO_USER : option string;
  ODOO_PASS : option string
}.

(** [z.string().url(message).optional()]: the check constructs a [URL]. *)
Definition url_issue {parser : URLParser} (key message : string)
           (v : option string) : list string :=
  match v with
  | Some s => match new_URL s with
              | Some _ => []
              | None => [key ++ ": " ++ message]
              end
  | None => []
  end.

(** [z.string().min(1, message).optional()] *)
Definition min_issue (key message : string) (v : option string)
  : list string :=
  match v with
  | Some s => if JS.is_empty s then [key ++ ": " ++ message] else []
  | None => []
  end.

(** The issues of [ConfigSchema.parse], in the order of the schema's keys,
    each rendered as [path: message]. *)
Definition ConfigSchema_issues {parser : URLParser} (env : Env) : list string :=
  (url_issue "ODOO_URL" "Invalid Odoo URL" (ODOO_URL env) ++
   min_issue "ODOO_DATABASE" "Database name is required" (ODOO_DATABASE env) ++
   min_issue "ODOO_USERNAME" "Username is required" (ODOO_USERNAME env) ++
   min_issue "ODOO_API_KEY" "Password is required" (ODOO_API_KEY env) ++
   url_issue "ODOO_HOST" "Invalid Odoo host" (ODOO_HOST env) ++
   min_issue "ODOO_DB" "Database name is required" (ODOO_DB env) ++
   min_issue "ODOO_USER" "Username is required" (ODOO_USER env) ++
   min_issue "ODOO_PASS" "Password is required" (ODOO_PASS env))%list.

(** [xs.join(sep)] *)
Fixpoint join (sep : string) (xs : list string) : string :=
  match xs with
  | [] => ""
  | [x] => x
  | x :: xs' => x ++ sep ++ join sep xs'
  end.

(** [a || b] on possibly unset strings. *)
Definition first_truthy (a b : option string) : option string :=
  match a with
  | Some x => if truthy_string x then a else b
  | None => b
  end.

(** [!v] *)
Definition unset (v : option string) : bool :=
  match v with
  | Some x => negb (truthy_string x)
  | None => true
  end.

Definition msg_missing_configuration : string :=
  "Missing required configuration. Provide either ODOO_HOST/ODOO_DB/ODOO_USER/ODOO_PASS or ODOO_URL/ODOO_DATABASE/ODOO_USERNAME/ODOO_API_KEY".

(** The separator the source writes as a doubled backslash and [n] inside
    its literals: a backslash character followed by the letter n. *)
Definition backslash_n : string := "\n".

(** [`${urlObj.protocol}//${urlObj.hostname}${urlObj.port ? ':' + urlObj.port : ''}`] *)
Definition cleanUrl (u : URL) : string :=
  protocol u ++ "//" ++ hostname u ++
  (if truthy_string (port u) then ":" ++ port u else "").

(** [validateConfig] returns a configuration or throws an [Error]. *)
Inductive ConfigResult :=
| Loaded (cfg : OdooConfig)
| Thrown (message : string).

Definition validateConfig {parser : URLParser} (env : Env) : ConfigResult :=
  match ConfigSchema_issues env with
  | [] =>
      let address := first_truthy (ODOO_HOST env) (ODOO_URL env) in
      let db := first_truthy (ODOO_DB env) (ODOO_DATABASE env) in
      let user := first_truthy (ODOO_USER env) (ODOO_USERNAME env) in
      let pass := first_truthy (ODOO_PASS env) (ODOO_API_KEY env) in
      if unset address || unset db || unset user || unset pass
      then Thrown msg_missing_configuration
      else
        let address := show address in
        match new_URL address with
        | Some urlObj =>
            Loaded {| url := cleanUrl urlObj; database := show db;
                      username := show user; password := show pass |}
        | None =>
            Loaded {| url := address; database := show db;
                      username := show user; password := show pass |}
        end
  | messages =>
      Thrown ("Configuration validation failed:" ++ backslash_n ++
              join backslash_n messages)
  end.

(* ------------------------------------------------------------------ *)
(** ** The tool front end: argument schemas and query specifications
      (src/index.ts, src/tools/sales-orders.ts) *)

(** [offset: z.number().min(0).optional()] *)
Definition GetSalesOrdersArgsSchema_offset (o : option Z) : bool :=
  match o with
  | None => true
  | Some n => (0 <=? n)%Z
  end.

(** [args.offset || 0] *)
Definition handleGetSalesOrders_offset (o : option Z) : Z :=
  match o with
  | Some n => if Z.eqb n 0 then 0%Z else n
  | None => 0%Z
  end.

(** [s.split(',')] *)
Fixpoint split_comma (s : string) : list string :=
  match s with
  | EmptyString => [EmptyString]
  | String c s' =>
      if Ascii.eqb c ","
      then EmptyString :: split_comma s'
      else match split_comma s' with
           | h :: t => String c h :: t
           | [] => [String c EmptyString]
           end
  end.

Definition default_order_fields : list string :=
  ["id"; "name"; "partner_id"; "date_order"; "state"; "amount_untaxed";
   "amount_tax"; "amount_total"; "currency_id"; "user_id"; "team_id";
   "invoice_status"; "delivery_status"].

(** [args.fields ? args.fields.split(',').map(f => f.trim()) : [...]] *)
Definition handleGetSalesOrders_fields (f : option string) : list string :=
  match f with
  | Some s => if truthy_string s then map JS.trim (split_comma s)
              else default_order_fields
  | None => default_order_fields
  end.

(** A filter triplet [[field, operator, value]]. *)
Definition triplet (field operator : string) (value : jsval) : jsval :=
  JArr [JStr field; JStr operator; value].

(** [JSON.parse(text)], a function of the platform: the value, or the
    message of the [SyntaxError] it throws. *)
Inductive Parsed :=
| ParsedValue (v : jsval)
| SyntaxError (message : string).

Class JSONParser := JSON_parse : string -> Parsed.

(** The arguments of [get_sales_orders], four optional members. *)
Record GetSalesOrdersArgs := mkOrdersArgs {
  arg_domain : option string;
  arg_limit : option Z;
  arg_offset : option Z;
  arg_fields : option string
}.

(** [GetSalesOrdersArgsSchema.parse(args)] succeeds: [domain] and [fields]
    are any strings, [limit] and [offset] are within their bounds. *)
Definition GetSalesOrdersArgsSchema (args : GetSalesOrdersArgs) : bool :=
  GetSalesOrdersArgsSchema_limit (arg_limit args) &&
  GetSalesOrdersArgsSchema_offset (arg_offset args).

(** [args.domain ? JSON.parse(args.domain) : [['state', '=', 'sale']]] *)
Definition handleGetSalesOrders_domain {json : JSONParser}
           (d : option string) : Parsed :=
  match d with
  | Some text =>
      if truthy_string text then JSON_parse text
      else ParsedValue (JArr [triplet "state" "=" (JStr "sale")])
  | None => ParsedValue (JArr [triplet "state" "=" (JStr "sale")])
  end.

(** The query specification [handleGetSalesOrders] hands to [searchRead]
    once the filter is there. *)
Definition handleGetSalesOrders_query (domain : jsval)
           (f : option string) (l o : option Z) : OdooSearchParams :=
  {| domain := Some domain;
     fields := Some (handleGetSalesOrders_fields f);
     limit := Some (handleGetSalesOrders_limit l);
     offset := Some (handleGetSalesOrders_offset o);
     order := Some "date_order desc" |}.

(** [handleGetSalesOrders] up to the outcome of its [searchRead]: either
    [JSON.parse] threw and the [catch] block returned its text, no remote
    call having been made, or the search was issued. *)
Inductive HandlerRun :=
| Caught (text : string)
| Searched (result : Async (OdooResponse jsval)).

Definition handleGetSalesOrders_call {parser : URLParser} {json : JSONParser}
           (cfg : OdooConfig) (w : World) (args : GetSalesOrdersArgs)
           (c : Client) : Client * HandlerRun :=
  match handleGetSalesOrders_domain (arg_domain args) with
  | SyntaxError m => (c, Caught ("Error: " ++ m))
  | ParsedValue d =>
      let (c', result) :=
        searchRead cfg w "sale.order"
          (handleGetSalesOrders_query d (arg_fields args) (arg_limit args)
             (arg_offset args)) c in
      (c', Searched result)
  end.

(** A regular expression of the form [/^c1{n1}c2{n2}...$/]. *)
Inductive Atom := Repeat (c : ascii) (n : nat).

Fixpoint eat (c : ascii) (n : nat) (s : string) : option string :=
  match n with
  | O => Some s
  | S n' => match s with
            | String c' s' => if Ascii.eqb c c' then eat c n' s' else None
            | EmptyString => None
            end
  end.

(** [regex.test(s)] for such an expression. *)
Fixpoint match_atoms (atoms : list Atom) (s : string) : bool :=
  match atoms with
  | [] => JS.is_empty s
  | Repeat c n :: rest =>
      match eat c n s with
      | Some s' => match_atoms rest s'
      | None => false
      end
  end.

(** The regular-expression literal of [GetSalesStatsArgsSchema], as it
    stands in the source, with each backslash doubled: an escaped backslash
    followed by the letter d, repeated. *)
Definition date_pattern : list Atom :=
  [Repeat "\" 1; Repeat "d" 4; Repeat "-" 1;
   Repeat "\" 1; Repeat "d" 2; Repeat "-" 1;
   Repeat "\" 1; Repeat "d" 2].

(** [date_from] / [date_to]: [z.string().regex(...).optional()] *)
Definition GetSalesStatsArgsSchema_date (v : option string) : bool :=
  match v with
  | None => true
  | Some s => match_atoms date_pattern s
  end.

(** The filter [handleGetSalesStats] builds: confirmed orders, then the
    date bounds that are given. *)
Definition handleGetSalesStats_domain (date_from date_to : option string)
  : list jsval :=
  ([triplet "state" "=" (JStr "sale")] ++
   (if unset date_from then []
    else [triplet "date_order" ">=" (JStr (show date_from))]) ++
   (if unset date_to then []
    else [triplet "date_order" "<=" (JStr (show date_to))]))%list.

(** The query specification [handleGetSalesStats] hands to [searchRead]. *)
Definition handleGetSalesStats_query (date_from date_to : option string)
  : OdooSearchParams :=
  {| domain := Some (JArr (handleGetSalesStats_domain date_from date_to));
     fields := Some ["id"; "name"; "partner_id"; "date_order"; "amount_total";
                     "user_id"; "team_id"; "state"];
     limit := None; offset := None; order := None |}.

(** The two query specifications of [handleGetSalesOrderDetails]: the
    order itself, and its lines. *)
Definition handleGetSalesOrderDetails_order_query (orderId : jsval)
  : OdooSearchParams :=
  {| domain := Some (JArr [triplet "id" "=" orderId]);
     fields := None; limit := Some 1%Z; offset := None; order := None |}.

Definition handleGetSalesOrderDetails_lines_query (order_line : jsval)
  : OdooSearchParams :=
  {| domain := Some (JArr [triplet "id" "in" order_line]);
     fields := Some ["id"; "product_id"; "name"; "product_uom_qty";
                     "qty_delivered"; "qty_invoiced"; "price_unit";
                     "price_subtotal"; "price_total"; "discount"];
     limit := None; offset := None; order := None |}.

(** The text a string ends with / starts with, for the statements. *)
Definition starts_with_space (s : string) : bool :=
  match s with
  | String c _ => JS.is_space c
  | EmptyString => false
  end.

Fixpoint ends_with_space (s : string) : bool :=
  match s with
  | EmptyString => false
  | String c EmptyString => JS.is_space c
  | String _ s' => ends_with_space s'
  end.

Definition comma_free (s : string) : bool :=
  all_chars (fun c => negb (Ascii.eqb c ",")) s.

(** A variable that is unset, or set to an address that parses. *)
Definition valid_url_var {parser : URLParser} (v : option string) : Prop :=
  forall s, v = Some s -> exists u, new_URL s = Some u.

(** A variable that is unset, or set to a non-empty text. *)
Definition valid_text_var (v : option string) : Prop :=
  forall s, v = Some s -> s <> "".

(** Every variable that is set passes its check, in both namings. *)
Definition all_valid {parser : URLParser} (env : Env) : Prop :=
  valid_url_var (ODOO_URL env) /\ valid_text_var (ODOO_DATABASE env) /\
  valid_text_var (ODOO_USERNAME env) /\ valid_text_var (ODOO_API_KEY env) /\
  valid_url_var (ODOO_HOST env) /\ valid_text_var (ODOO_DB env) /\
  valid_text_var (ODOO_USER env) /\ valid_text_var (ODOO_PASS env).

(** A variable set to a non-empty text. *)
Definition set_nonempty (v : option string) : Prop :=
  exists s, v = Some s /\ s <> "".

(** Each of the four settings has a variable set to a non-empty text, in
    one naming or the other. *)
Definition all_present (env : Env) : Prop :=
  (set_nonempty (ODOO_HOST env) \/ set_nonempty (ODOO_URL env)) /\
  (set_nonempty (ODOO_DB env) \/ set_nonempty (ODOO_DATABASE env)) /\
  (set_nonempty (ODOO_USER env) \/ set_nonempty (ODOO_USERNAME env)) /\
  (set_nonempty (ODOO_PASS env) \/ set_nonempty (ODOO_API_KEY env)).

(** The one text an expression [/^c1{n1}c2{n2}...$/] matches. *)
Fixpoint repeat_char (c : ascii) (n : nat) : string :=
  match n with
  | O => EmptyString
  | S n' => String c (repeat_char c n')
  end.

Fixpoint expand (atoms : list Atom) : string :=
  match atoms with
  | [] => EmptyString
  | Repeat c n :: rest => repeat_char c n ++ expand rest
  end.

(** Digits and dashes: the characters of a date written [YYYY-MM-DD]. *)
Definition date_char (c : ascii) : bool := is_digit c || Ascii.eqb c "-".

(* ------------------------------------------------------------------ *)
(** ** More concrete inputs for the worked examples *)

Definition held_session : Session := {| session_uid := JNum 7; trace := [] |}.

(** The server accepts the credentials with identity 7 and answers the
    query with the number 0. *)
Definition welcoming_world : World :=
  {| auth_events := [Callback None (JNum 7) unreachable_diagnostics];
     query_events := [Callback None (JNum 0) unreachable_diagnostics] |}.

(** The server answers the authentication with identity 7, but only after
    the call's timer has fired. *)
Definition slow_world : World :=
  {| auth_events := [TimerFired; Callback None (JNum 7) unreachable_diagnostics];
     query_events := [Callback None (JNum 0) unreachable_diagnostics] |}.

(** The authentication's timer fires and nothing else is heard during the
    operation. *)
Definition silent_world : World :=
  {| auth_events := [TimerFired];
     query_events := [Callback None (JNum 0) unreachable_diagnostics] |}.

(** An error that holds the signature text but no quoted tag. *)
Definition bare_tag_error : XmlRpcError :=
  {| message := Some "Unknown XML-RPC tag"; code := None |}.

(** New names for address and database, old names for user and key, and a
    path on the address. *)
Definition acme_env : Env :=
  {| ODOO_URL := None; ODOO_DATABASE := Some "legacy";
     ODOO_USERNAME := Some "admin"; ODOO_API_KEY := Some "secret";
     ODOO_HOST := Some "https://acme.example.com/start";
     ODOO_DB := Some "acme"; ODOO_USER := None; ODOO_PASS := None |}.

(** A good new address beside an old one that does not parse. *)
Definition stale_env : Env :=
  {| ODOO_URL := Some "acme.example.com"; ODOO_DATABASE := None;
     ODOO_USERNAME := None; ODOO_API_KEY := None;
     ODOO_HOST := Some "https://acme.example.com";
     ODOO_DB := Some "acme"; ODOO_USER := Some "admin";
     ODOO_PASS := Some "secret" |}.

(** A reference for [JSON.parse] on the two texts of the worked examples:
    the empty array, and a blank text, on which the platform throws
    [SyntaxError: Unexpected end of JSON input].  It is not used on any
    other text. *)
Definition sample_JSON : JSONParser :=
  fun text =>
    if String.eqb text "[]" then ParsedValue (JArr [])
    else SyntaxError "Unexpected end of JSON input".

Definition fifty_orders : GetSalesOrdersArgs :=
  {| arg_domain := None; arg_limit := Some 50%Z; arg_offset := None;
     arg_fields := None |}.

Definition blank_filter : GetSalesOrdersArgs :=
  {| arg_domain := Some " "; arg_limit := None; arg_offset := None;
     arg_fields := None |}.

(* ================================================================== *)
(** * Properties *)

(** ** Strings *)

Lemma append_assoc (a b c : string) : (a ++ b) ++ c = a ++ b ++ c.
Proof. induction a as [|x a IH]; simpl; [reflexivity | now rewrite IH]. Qed.

Lemma append_empty_r (a : string) : a ++ "" = a.
Proof. induction a as [|x a IH]; simpl; [reflexivity | now rewrite IH]. Qed.

Lemma length_append (a b : string) :
  String.length (a ++ b) = String.length a + String.length b.
Proof. induction a as [|x a IH]; simpl; [reflexivity | now rewrite IH]. Qed.

Lemma strip_prefix_append (p s : string) : JS.strip_prefix p (p ++ s) = Some s.
Proof.
  induction p as [|x p IH]; simpl; [reflexivity|].
  now rewrite Ascii.eqb_refl.
Qed.

Lemma strip_prefix_sound (p s r : string) :
  JS.strip_prefix p s = Some r -> s = p ++ r.
Proof.
  revert s; induction p as [|x p IH]; intros s; simpl.
  - intros [= ->]; reflexivity.
  - destruct s as [|y s]; [discriminate|].
    destruct (Ascii.eqb x y) eqn:E; [|discriminate].
    apply Ascii.eqb_eq in E; subst y.
    intros H; now rewrite (IH _ H).
Qed.

Lemma startsWith_append (p s : string) : JS.startsWith (p ++ s) p = true.
Proof. unfold JS.startsWith; now rewrite strip_prefix_append. Qed.

Lemma includes_cons (c : ascii) (hay needle : string) :
  JS.includes hay needle = true -> JS.includes (String c hay) needle = true.
Proof.
  intros H; simpl.
  destruct (JS.startsWith (String c hay) needle); [reflexivity | exact H].
Qed.


Lemma span_sound (p : ascii -> bool) (s a b : string) :
  JS.span p s = (a, b) -> s = a ++ b /\ all_chars p a = true.
Proof.
  revert a b; induction s as [|c s IH]; intros a b; simpl.
  - intros [= <- <-]; now split.
  - destruct (p c) eqn:E.
    + destruct (JS.span p s) as [a' b'] eqn:Es.
      intros [= <- <-]. destruct (IH _ _ eq_refl) as [-> Ha].
      simpl; rewrite E, Ha; now split.
    + intros [= <- <-]; now split.
Qed.

(** A run of [p]-characters followed by a non-[p] character is taken whole. *)
Lemma span_run (p : ascii -> bool) (a : string) (c : ascii) (r : string) :
  all_chars p a = true -> p c = false ->
  JS.span p (a ++ String c r) = (a, String c r).
Proof.
  intros Ha Hc; induction a as [|x a IH]; simpl in *.
  - now rewrite Hc.
  - apply andb_true_iff in Ha as [Hx Ha].
    now rewrite Hx, (IH Ha).
Qed.

Lemma is_empty_spec (s : string) : JS.is_empty s = true <-> s = "".
Proof. destruct s; simpl; split; congruence. Qed.

(** ** Endpoint resolver *)

Lemma set_add_NoDup (seen : list string) (s : string) :
  NoDup seen -> NoDup (set_add seen s).
Proof.
  intros H; unfold set_add.
  destruct (in_dec string_dec s seen) as [Hin|Hnin]; [exact H|].
  apply NoDup_app; [exact H | constructor; [intros [] | constructor] |].
  intros x Hx [<-|[]]; contradiction.
Qed.

Lemma fold_set_add_NoDup (xs seen : list string) :
  NoDup seen -> NoDup (fold_left set_add xs seen).
Proof.
  revert seen; induction xs as [|x xs IH]; intros seen H; simpl;
    [exact H | apply IH, set_add_NoDup, H].
Qed.

Lemma spread_set_NoDup (xs : list string) : NoDup (spread_set xs).
Proof. apply fold_set_add_NoDup; constructor. Qed.

Lemma set_add_In (seen : list string) (s x : string) :
  In x (set_add seen s) <-> In x seen \/ x = s.
Proof.
  unfold set_add; destruct (in_dec string_dec s seen) as [Hin|Hnin].
  - split; [now left | intros [H| ->]; assumption].
  - rewrite in_app_iff; simpl; intuition congruence.
Qed.

Lemma fold_set_add_In (xs seen : list string) (x : string) :
  In x (fold_left set_add xs seen) <-> In x seen \/ In x xs.
Proof.
  revert seen; induction xs as [|y xs IH]; intros seen; simpl.
  - tauto.
  - rewrite IH, set_add_In; intuition congruence.
Qed.

(** The spread of a [Set] has exactly the elements that were pushed. *)
Lemma spread_set_In (xs : list string) (x : string) :
  In x (spread_set xs) <-> In x xs.
Proof. unfold spread_set; rewrite fold_set_add_In; simpl; tauto. Qed.

Lemma fold_set_add_fresh (xs seen : list string) :
  NoDup (seen ++ xs)%list -> fold_left set_add xs seen = (seen ++ xs)%list.
Proof.
  revert seen; induction xs as [|x xs IH]; intros seen H; simpl.
  - now rewrite app_nil_r.
  - unfold set_add at 2.
    destruct (in_dec string_dec x seen) as [Hin|Hnin].
    + exfalso. apply NoDup_remove_2 in H. apply H.
      apply in_or_app; now left.
    + rewrite IH; rewrite <- app_assoc; simpl; [reflexivity | exact H].
Qed.

(** De-duplicating a list without duplicates changes nothing. *)
Lemma spread_set_fixed (xs : list string) : NoDup xs -> spread_set xs = xs.
Proof. intros H; unfold spread_set; now rewrite fold_set_add_fresh. Qed.

Section ResolverProperties.
Context {parser : URLParser}.

Lemma suggestions_NoDup (configUrl : string) :
  NoDup (suggestions (validateAndSuggestUrls configUrl)).
Proof.
  unfold validateAndSuggestUrls.
  destruct (new_URL configUrl); simpl; apply spread_set_NoDup.
Qed.

(** C8: [validateAndSuggestUrls] is deterministic and idempotent: however
    often it is called on one address, every call returns the validity
    flag and the ordered suggestion list of the first call; that list has
    no duplicate entry, and de-duplicating it again leaves it unchanged. *)
Theorem validateAndSuggestUrls_idempotent (configUrl : string) (n : nat) :
  let first := validateAndSuggestUrls configUrl in
  Forall (fun r => isValid r = isValid first /\
                   suggestions r = suggestions first)
         (map validateAndSuggestUrls (repeat configUrl n)) /\
  NoDup (suggestions first) /\
  spread_set (suggestions first) = suggestions first.
Proof.
  intros first; split; [|split].
  - induction n as [|n IH]; simpl; constructor; [now split | exact IH].
  - apply suggestions_NoDup.
  - apply spread_set_fixed, suggestions_NoDup.
Qed.

Lemma secure_differs_from_insecure (x : string) :
  "http://" ++ x ++ ":8069/xmlrpc/2/common" <>
  "https://" ++ x ++ "/xmlrpc/2/common".
Proof. simpl; intros H; discriminate H. Qed.

(** C9 (amended): an address that does not parse is marked invalid; when it
    does not start with [http] the suggestions are exactly the secure
    scheme with the standard sub-path followed by the non-secure scheme
    with port 8069 and the standard sub-path; when it starts with [http]
    nothing is suggested. *)
Theorem unparseable_address_suggestions (configUrl : string) :
  new_URL configUrl = None ->
  let r := validateAndSuggestUrls configUrl in
  isValid r = false /\
  (JS.startsWith configUrl "http" = false ->
   suggestions r = ["https://" ++ configUrl ++ "/xmlrpc/2/common";
                    "http://" ++ configUrl ++ ":8069/xmlrpc/2/common"]) /\
  (JS.startsWith configUrl "http" = true -> suggestions r = []).
Proof.
  intros Hparse; unfold validateAndSuggestUrls; rewrite Hparse; simpl.
  split; [reflexivity|split]; intros Hs; rewrite Hs; simpl.
  - apply spread_set_fixed.
    constructor; [|constructor; [intros [] | constructor]].
    intros [H|[]]; exact (secure_differs_from_insecure _ H).
  - reflexivity.
Qed.

End ResolverProperties.

(** The amended C9 at the address [odoo.example.com], which has no scheme. *)
Lemma unparseable_address_suggestions_witness :
  @new_URL plain_parser "odoo.example.com" = None /\
  let r := @validateAndSuggestUrls plain_parser "odoo.example.com" in
  isValid r = false /\
  (JS.startsWith "odoo.example.com" "http" = false ->
   suggestions r = ["https://odoo.example.com/xmlrpc/2/common";
                    "http://odoo.example.com:8069/xmlrpc/2/common"]) /\
  (JS.startsWith "odoo.example.com" "http" = true -> suggestions r = []).
Proof.
  split; [reflexivity|].
  apply (@unparseable_address_suggestions plain_parser "odoo.example.com").
  reflexivity.
Defined.

(** C9 as stated fails: [http//odoo.example.com] (the colon is missing) does
    not parse, and because it starts with [http] the resolver suggests
    nothing for it. *)
Lemma unparseable_http_address_gets_no_suggestion :
  @new_URL plain_parser "http//odoo.example.com" = None /\
  suggestions (@validateAndSuggestUrls plain_parser "http//odoo.example.com") = [] /\
  ~ @suggests_both_prefixes plain_parser "http//odoo.example.com".
Proof.
  split; [reflexivity | split; [reflexivity|]].
  intros (_ & H & _). vm_compute in H. exact H.
Qed.

(** The scenario of the specification: [https://acme.example.com]. *)
Example acme_suggestions :
  let r := @validateAndSuggestUrls plain_parser "https://acme.example.com" in
  isValid r = true /\
  In "https://acme.example.com/xmlrpc/2/common" (suggestions r) /\
  In "https://acme.example.com:8069/xmlrpc/2/common" (suggestions r) /\
  In "https://acme.example.com:443/xmlrpc/2/common" (suggestions r) /\
  NoDup (suggestions r).
Proof.
  repeat split; try (vm_compute; tauto).
  apply (@suggestions_NoDup plain_parser).
Qed.

(** ** Tag extraction *)

Lemma unknown_tag_at_complete (X post : string) :
  X <> "" -> quote_free X = true ->
  unknown_tag_at ("Unknown XML-RPC tag '" ++ X ++ "'" ++ post) = Some X.
Proof.
  intros Hne Hq; unfold unknown_tag_at.
  rewrite strip_prefix_append.
  change ("'" ++ post) with (String "'" post).
  rewrite span_run; [| exact Hq | reflexivity].
  destruct X; [contradiction | reflexivity].
Qed.

Lemma unknown_tag_at_sound (s Y : string) :
  unknown_tag_at s = Some Y -> signature_at s "" Y.
Proof.
  unfold unknown_tag_at, signature_at.
  destruct (JS.strip_prefix "Unknown XML-RPC tag '" s) as [rest|] eqn:Hp;
    [|discriminate].
  apply strip_prefix_sound in Hp.
  destruct (JS.span (fun c => negb (Ascii.eqb c "'")) rest) as [tag rest'] eqn:Hs.
  apply span_sound in Hs as [-> Hq].
  destruct tag as [|t tag]; [discriminate|]; cbn [JS.is_empty].
  destruct rest' as [|q post]; [discriminate|].
  destruct (Ascii.eqb q "'") eqn:Eq.
  - apply Ascii.eqb_eq in Eq; subst q. intros [= <-].
    exists post; repeat split; [exact Hp | discriminate | exact Hq].
  - intros H. exfalso.
    destruct q as [[] [] [] [] [] [] [] []]; try discriminate H; discriminate Eq.
Qed.

Lemma first_match_hit {A : Type} (m : string -> option A) (s : string) (a : A) :
  m s = Some a -> JS.first_match m s = Some a.
Proof. intros H; destruct s; simpl; now rewrite H. Qed.

Lemma first_match_miss {A : Type} (m : string -> option A) (c : ascii)
      (s : string) :
  m (String c s) = None -> JS.first_match m (String c s) = JS.first_match m s.
Proof. intros H; simpl; now rewrite H. Qed.

(** The regular-expression search reports the tag of the first signature. *)
Lemma match_unknown_tag_first (msg X : string) :
  first_unknown_tag msg X -> match_unknown_tag msg = Some X.
Proof.
  intros (pre & Hsig & Hfirst); unfold match_unknown_tag.
  revert msg Hsig Hfirst; induction pre as [|c pre IH]; intros msg Hsig Hfirst.
  - destruct Hsig as (post & -> & Hne & Hq).
    apply first_match_hit.
    change ("" ++ "Unknown XML-RPC tag '" ++ X ++ "'" ++ post)
      with ("Unknown XML-RPC tag '" ++ X ++ "'" ++ post).
    now apply unknown_tag_at_complete.
  - pose proof Hsig as (post & Hmsg & Hne & Hq).
    destruct (unknown_tag_at msg) as [Y|] eqn:Hat.
    + apply unknown_tag_at_sound in Hat.
      apply Hfirst in Hat; simpl in Hat; lia.
    + rewrite Hmsg in Hat |- *.
      change (String c pre ++ "Unknown XML-RPC tag '" ++ X ++ "'" ++ post)
        with (String c (pre ++ "Unknown XML-RPC tag '" ++ X ++ "'" ++ post))
        in Hat |- *.
      rewrite (first_match_miss _ _ _ Hat).
      apply IH.
      * exists post; repeat split; assumption.
      * intros pre' Y (post' & Hm' & Hne' & Hq').
        assert (Hs : signature_at msg (String c pre') Y).
        { exists post'; repeat split; try assumption.
          rewrite Hmsg.
          change (String c pre ++ "Unknown XML-RPC tag '" ++ X ++ "'" ++ post)
            with (String c (pre ++ "Unknown XML-RPC tag '" ++ X ++ "'" ++ post)).
          now rewrite Hm'. }
        apply Hfirst in Hs; simpl in Hs; lia.
Qed.

(** A message that holds a signature anywhere has a first one. *)
Lemma signature_has_first (msg pre X : string) :
  signature_at msg pre X -> exists Y, first_unknown_tag msg Y.
Proof.
  revert msg; induction pre as [|c pre IH]; intros msg Hsig.
  - exists X, ""; split; [exact Hsig | intros; simpl; lia].
  - destruct (unknown_tag_at msg) as [Y|] eqn:Hat.
    + exists Y, ""; split;
        [now apply unknown_tag_at_sound | intros; simpl; lia].
    + destruct Hsig as (post & Hmsg & Hne & Hq).
      destruct (IH (pre ++ "Unknown XML-RPC tag '" ++ X ++ "'" ++ post))
        as (Y & pre0 & (post0 & Htail & Hne0 & Hq0) & Hfirst).
      { exists post; repeat split; assumption. }
      exists Y, (String c pre0); split.
      * exists post0; repeat split; try assumption.
        rewrite Hmsg.
        change (String c (pre ++ "Unknown XML-RPC tag '" ++ X ++ "'" ++ post) =
                String c (pre0 ++ "Unknown XML-RPC tag '" ++ Y ++ "'" ++ post0)).
        now rewrite Htail.
      * intros pre' Z (post' & Hm' & Hne' & Hq').
        destruct pre' as [|c' pre'].
        -- rewrite Hm' in Hat.
           change ("" ++ "Unknown XML-RPC tag '" ++ Z ++ "'" ++ post')
             with ("Unknown XML-RPC tag '" ++ Z ++ "'" ++ post') in Hat.
           now rewrite unknown_tag_at_complete in Hat.
        -- rewrite Hmsg in Hm'.
           assert (Hm'' : String c (pre ++ "Unknown XML-RPC tag '" ++ X ++ "'" ++ post) =
                          String c' (pre' ++ "Unknown XML-RPC tag '" ++ Z ++ "'" ++ post'))
             by exact Hm'.
           clear Hm'. injection Hm'' as _ Hm'.
           assert (Hs : signature_at
                          (pre ++ "Unknown XML-RPC tag '" ++ X ++ "'" ++ post)
                          pre' Z)
             by (exists post'; repeat split; assumption).
           apply Hfirst in Hs; simpl; lia.
Qed.

(** The first signature's tag is unique. *)
Lemma first_unknown_tag_unique (msg X Y : string) :
  first_unknown_tag msg X -> first_unknown_tag msg Y -> X = Y.
Proof.
  intros HX HY.
  apply match_unknown_tag_first in HX, HY. congruence.
Qed.



(** ** Transport probe, body fetch and classifier *)






Section ProbeProperties.
Context {parser : URLParser}.
Variable cfg : OdooConfig.
Variable u : URL.
Hypothesis address_parses : new_URL (url cfg) = Some u.

(** The body fetch settles unless the response is cut before its end. *)
Lemma inspectResponseBody_settles (net : Network) (path : string) :
  (forall sc sm hdrs, net (fetch_request u path) <> NetUnended sc sm hdrs) ->
  exists body, inspectResponseBody cfg net path = Resolved body.
Proof.
  intros H. unfold inspectResponseBody; rewrite address_parses.
  destruct (net (fetch_request u path)) as [sc sm hdrs body|sc sm hdrs|m|];
    try (eexists; reflexivity).
  now destruct (H sc sm hdrs).
Qed.

Lemma testHttpEndpoint_settles (net : Network) (path : string) :
  exists outcome, testHttpEndpoint cfg net path = Resolved outcome.
Proof.
  unfold testHttpEndpoint; rewrite address_parses.
  destruct (net (probe_request u path)) as [sc sm hdrs body|sc sm hdrs|m|];
    try destruct (Z.eqb sc 200 || Z.eqb sc 400 || Z.eqb sc 500);
    try destruct (Z.eqb sc 405); eexists; reflexivity.
Qed.

(** The probe settles on the head of the response: a response cut before
    its end is classified like a complete one. *)
Lemma testHttpEndpoint_reads_the_head (net net' : Network) (path : string)
      (sc : Z) (sm : string) (hdrs : Headers) (body : string) :
  net (probe_request u path) = NetUnended sc sm hdrs ->
  net' (probe_request u path) = NetResponse sc sm hdrs body ->
  testHttpEndpoint cfg net path = testHttpEndpoint cfg net' path.
Proof.
  intros H H'. unfold testHttpEndpoint. now rewrite address_parses, H, H'.
Qed.




(** C10 (amended): both diagnostic requests take their port from the
    [port] field of the parsed address, [parseInt(url.port)]: when that is
    [NaN] or zero they go to 8069 for the [http] scheme (not to 80) and to
    443 for [https]; a port field that parses to a non-zero number is used
    as given.  Each operation consults the network at that request only. *)
Theorem diagnostic_requests_port (path : string) :
  (forall net net',
      net (probe_request u path) = net' (probe_request u path) ->
      testHttpEndpoint cfg net path = testHttpEndpoint cfg net' path) /\
  (forall net net',
      net (fetch_request u path) = net' (fetch_request u path) ->
      inspectResponseBody cfg net path = inspectResponseBody cfg net' path) /\
  ((forall n, JS.parseInt (port u) = Some n -> n = 0%Z) ->
   (protocol u = "http:" ->
    req_port (probe_request u path) = 8069%Z /\
    req_port (fetch_request u path) = 8069%Z /\
    req_secure (probe_request u path) = false /\
    req_secure (fetch_request u path) = false) /\
   (protocol u = "https:" ->
    req_port (probe_request u path) = 443%Z /\
    req_port (fetch_request u path) = 443%Z /\
    req_secure (probe_request u path) = true /\
    req_secure (fetch_request u path) = true)) /\
  (forall n, JS.parseInt (port u) = Some n -> n <> 0%Z ->
             req_port (probe_request u path) = n /\
             req_port (fetch_request u path) = n).
Proof.
  split; [|split; [|split]].
  - intros net net' H. unfold testHttpEndpoint.
    rewrite address_parses. now rewrite H.
  - intros net net' H. unfold inspectResponseBody.
    rewrite address_parses. now rewrite H.
  - intros Hnone.
    assert (Hport : request_port u = if isSecure u then 443%Z else 8069%Z).
    { unfold request_port.
      destruct (JS.parseInt (port u)) as [n|]; [|reflexivity].
      now rewrite (Hnone n eq_refl). }
    unfold probe_request, fetch_request, request_options; cbn [req_port req_secure].
    rewrite Hport. unfold isSecure.
    split; intros ->; repeat split; reflexivity.
  - intros n Hn Hnz.
    unfold probe_request, fetch_request, request_options, request_port;
      cbn [req_port].
    rewrite Hn. apply Z.eqb_neq in Hnz. now rewrite Hnz.
Qed.

End ProbeProperties.




(** The diagnosis composed for that error names the tag, the content type,
    the page title, and the first suggested address. *)
Example login_page_diagnosis :
  exists d,
    @validateXmlRpcResponse plain_parser acme_config jsval
      login_page_diagnostics (Some html_tag_error) JUndefined "Authentication"
    = Resolved (failure d) /\
    JS.startsWith d "Server returned non-XML-RPC response (found <HTML> tag). " = true /\
    JS.includes d "Endpoint returns Content-Type: text/html; charset=utf-8" = true /\
    JS.includes d ("Page title: " ++ dquote ++ "Login | Odoo" ++ dquote) = true /\
    JS.includes d "This is a login page." = true /\
    JS.includes d "1. ODOO_URL=https://acme.example.com" = true /\
    JS.includes d "2. ODOO_URL=https://acme.example.com:8069" = true /\
    JS.includes d "6. ODOO_URL=" = false.
Proof. eexists; split; [reflexivity | vm_compute; repeat split]. Qed.

(** ** RPC session *)

Section SessionProperties.
Context {parser : URLParser}.
Variable cfg : OdooConfig.

Lemma authenticate_step_settled ev st r :
  settled (snd st) = Some r ->
  settled (snd (authenticate_step cfg ev st)) = Some r.
Proof.
  destruct st as [c call]; cbn [snd]; intros H.
  destruct ev as [|err value diag]; cbn [authenticate_step].
  - destruct (timer call); cbn [snd]; [|exact H].
    unfold resolve, clearTimeout; cbn [settled]; now rewrite H.
  - destruct (validateXmlRpcResponse cfg diag err value "Authentication")
      as [v| |]; [|exact H|exact H].
    destruct (success v); [destruct (negb (truthy value))|];
      cbn [snd]; unfold resolve, clearTimeout; cbn [settled]; now rewrite H.
Qed.

Lemma authenticate_step_calls ev st :
  calls (fst (authenticate_step cfg ev st)) = calls (fst st).
Proof.
  destruct st as [c call]; destruct ev as [|err value diag];
    cbn [authenticate_step].
  - now destruct (timer call).
  - destruct (validateXmlRpcResponse cfg diag err value "Authentication")
      as [v| |]; try reflexivity.
    destruct (success v); [destruct (negb (truthy value))|]; reflexivity.
Qed.

Lemma search_step_client ev st : fst (search_step cfg ev st) = fst st.
Proof.
  destruct st as [c call]; destruct ev as [|err value diag];
    cbn [search_step].
  - now destruct (timer call).
  - destruct (validateXmlRpcResponse cfg diag err value "SearchRead")
      as [v| |]; try reflexivity.
    now destruct (success v).
Qed.

Lemma events_settled evs st r :
  settled (snd st) = Some r ->
  settled (snd (fold_left (fun st ev => authenticate_step cfg ev st) evs st))
  = Some r.
Proof.
  revert st; induction evs as [|ev evs IH]; intros st H; simpl;
    [exact H | apply IH, authenticate_step_settled, H].
Qed.

(** An event that is not an error-free callback with a truthy value leaves
    the identity alone. *)
Lemma authenticate_step_keeps_uid ev st :
  (forall err v d, ev = Callback err v d -> err = None -> truthy v = false) ->
  uid (fst (authenticate_step cfg ev st)) = uid (fst st).
Proof.
  destruct st as [c call]; destruct ev as [|err value diag];
    cbn [authenticate_step]; intros H.
  - now destruct (timer call).
  - destruct err as [e|].
    + unfold validateXmlRpcResponse.
      destruct (match message e with
                | Some m => truthy_string m && JS.includes m "Unknown XML-RPC tag"
                | None => false
                end); [|reflexivity].
      destruct (inspectResponseBody cfg (body_net diag) "/xmlrpc/2/common");
        cbn [await]; try reflexivity.
      destruct (testHttpEndpoint cfg (probe_net diag) "/xmlrpc/2/common");
        cbn [await]; reflexivity.
    + cbn [validateXmlRpcResponse success ok].
      now rewrite (H None value diag eq_refl eq_refl).
Qed.

Lemma events_keep_uid evs st :
  (forall err v d, In (Callback err v d) evs -> err = None -> truthy v = false) ->
  uid (fst (fold_left (fun st ev => authenticate_step cfg ev st) evs st))
  = uid (fst st).
Proof.
  revert st; induction evs as [|ev evs IH]; intros st H; simpl; [reflexivity|].
  rewrite IH.
  - apply authenticate_step_keeps_uid.
    intros err v d ->; apply (H err v d); now left.
  - intros err v d Hin; apply (H err v d); now right.
Qed.

Lemma until_settled_done step evs st r :
  settled (snd st) = Some r -> until_settled step evs st = st.
Proof. intros H; destruct evs; simpl; now rewrite H. Qed.

Lemma until_settled_calls evs st :
  calls (fst (until_settled (authenticate_step cfg) evs st)) = calls (fst st).
Proof.
  revert st; induction evs as [|ev evs IH]; intros st; simpl.
  - now destruct (settled (snd st)).
  - destruct (settled (snd st)); [reflexivity|].
    now rewrite IH, authenticate_step_calls.
Qed.

Lemma until_settled_search_client evs st :
  fst (until_settled (search_step cfg) evs st) = fst st.
Proof.
  revert st; induction evs as [|ev evs IH]; intros st; simpl.
  - now destruct (settled (snd st)).
  - destruct (settled (snd st)); [reflexivity|].
    now rewrite IH, search_step_client.
Qed.

(** C2 (amended): when the 15-second timer of an [authenticate()] call
    fires before the transport has called back, the call yields the
    failure with the time-out message and never a success, whatever the
    transport does afterwards; the identity is unchanged when the timer
    fires, and stays unchanged unless the transport later calls back
    without error and with a truthy identity. *)
Theorem authentication_timeout (evs : list TransportEvent) (c : Client) :
  timer (snd (authenticate_start cfg c)) = Some 15000%Z /\
  authenticate cfg (TimerFired :: evs) c =
    ({| uid := uid c; calls := (calls c ++ [authenticate_call cfg])%list |},
     Resolved (failure msg_auth_timeout)) /\
  promise (snd (authenticate_run cfg (TimerFired :: evs) c)) =
    Resolved (failure msg_auth_timeout) /\
  JS.includes msg_auth_timeout "timed out" = true /\
  uid (fst (authenticate_run cfg [TimerFired] c)) = uid c /\
  ((forall err v d, In (Callback err v d) evs -> err = None -> truthy v = false) ->
   uid (fst (authenticate_run cfg (TimerFired :: evs) c)) = uid c).
Proof.
  split; [reflexivity|]. split; [|split; [|split; [reflexivity|split]]].
  - unfold authenticate, authenticate_start; cbn.
    now rewrite (until_settled_done _ evs _ (failure msg_auth_timeout)).
  - unfold authenticate_run, promise; cbn [fold_left].
    now rewrite (events_settled evs _ (failure msg_auth_timeout)).
  - reflexivity.
  - intros H. unfold authenticate_run; cbn [fold_left].
    now rewrite events_keep_uid.
Qed.

Lemma tag_sentence_is_not_invalid_credentials (t : option string)
      (tail : string) :
  tag_sentence t ++ tail <> msg_invalid_credentials.
Proof. unfold tag_sentence; simpl; discriminate. Qed.

(** A failure the validator reports for [authenticate] is never the
    invalid-credentials message. *)
Lemma validator_never_reports_invalid_credentials
      {T : Type} diag e (v : T) r :
  validateXmlRpcResponse cfg diag (Some e) v "Authentication" = Resolved r ->
  success r = false /\ error r <> Some msg_invalid_credentials.
Proof.
  unfold validateXmlRpcResponse.
  destruct (match message e with
            | Some m => truthy_string m && JS.includes m "Unknown XML-RPC tag"
            | None => false
            end).
  - destruct (inspectResponseBody cfg (body_net diag) "/xmlrpc/2/common")
      as [body| |]; cbn [await]; try discriminate.
    destruct (testHttpEndpoint cfg (probe_net diag) "/xmlrpc/2/common")
      as [probe| |]; cbn [await]; try discriminate.
    intros [= <-]; split; [reflexivity|].
    cbn [error failure].
    destruct (negb (success probe)); intros [= H];
      exact (tag_sentence_is_not_invalid_credentials _ _ H).
  - intros [= <-]; split; [reflexivity|].
    cbn [error failure]; simpl; discriminate.
Qed.

(** C3: when the transport calls back without error, a falsy identity
    makes [authenticate()] fail with the invalid-credentials message and
    store nothing; that message is neither the time-out message nor any
    message the validator composes for an erroneous response.  A truthy
    identity is stored in [uid] and returned as the payload of a success. *)
Theorem authentication_identity
        (value : jsval) (diag : Diagnostics) (evs : list TransportEvent)
        (c : Client) :
  let r := authenticate cfg (Callback None value diag :: evs) c in
  (truthy value = false ->
   r = ({| uid := uid c; calls := (calls c ++ [authenticate_call cfg])%list |},
        Resolved (failure msg_invalid_credentials))) /\
  (truthy value = true ->
   r = ({| uid := value; calls := (calls c ++ [authenticate_call cfg])%list |},
        Resolved (ok value))) /\
  msg_invalid_credentials <> msg_auth_timeout /\
  (forall diag' e (v : jsval) r',
      validateXmlRpcResponse cfg diag' (Some e) v "Authentication" = Resolved r' ->
      success r' = false /\ error r' <> Some msg_invalid_credentials).
Proof.
  cbv zeta. split; [|split; [|split]].
  - intros Hv. unfold authenticate, authenticate_start.
    cbn [until_settled snd settled setTimeout authenticate_step
         validateXmlRpcResponse success ok].
    rewrite Hv; cbn [negb].
    now rewrite (until_settled_done _ evs _ (failure msg_invalid_credentials)).
  - intros Hv. unfold authenticate, authenticate_start.
    cbn [until_settled snd settled setTimeout authenticate_step
         validateXmlRpcResponse success ok].
    rewrite Hv; cbn [negb].
    now rewrite (until_settled_done _ evs _ (ok value)).
  - discriminate.
  - intros diag' e v r'. apply validator_never_reports_invalid_credentials.
Qed.

Lemma authenticate_calls evs c :
  calls (fst (authenticate cfg evs c)) = (calls c ++ [authenticate_call cfg])%list.
Proof.
  unfold authenticate.
  pose proof (until_settled_calls evs (authenticate_start cfg c)) as H.
  destruct (until_settled (authenticate_step cfg) evs (authenticate_start cfg c))
    as [c' call]; exact H.
Qed.

Lemma search_query_client w model params c :
  fst (search_query cfg w model params c) =
  {| uid := uid c;
     calls := (calls c ++ [search_call cfg c model params])%list |}.
Proof.
  unfold search_query.
  pose proof (until_settled_search_client (query_events w)
                ({| uid := uid c;
                    calls := (calls c ++ [search_call cfg c model params])%list |},
                 setTimeout search_timeout_ms)) as H.
  destruct (until_settled (search_step cfg) (query_events w) _) as [c2 call];
    exact H.
Qed.

Lemma auth_attempts_app l1 l2 :
  auth_attempts (l1 ++ l2)%list = auth_attempts l1 + auth_attempts l2.
Proof. unfold auth_attempts; now rewrite filter_app, length_app. Qed.

Lemma searchRead_calls_held w model params c :
  truthy (uid c) = true ->
  calls (fst (searchRead cfg w model params c)) =
  (calls c ++ [search_call cfg c model params])%list.
Proof.
  intros H; unfold searchRead; rewrite H; cbn [negb].
  now rewrite search_query_client.
Qed.

Lemma searchRead_identity_kept w model params c :
  truthy (uid c) = true ->
  uid (fst (searchRead cfg w model params c)) = uid c.
Proof.
  intros H; unfold searchRead; rewrite H; cbn [negb].
  now rewrite search_query_client.
Qed.

Lemma searchRead_calls_fresh w model params c :
  truthy (uid c) = false ->
  exists rest,
    calls (fst (searchRead cfg w model params c)) =
    (calls c ++ authenticate_call cfg :: rest)%list /\
    (rest = [] \/ exists c', rest = [search_call cfg c' model params]).
Proof.
  intros H; unfold searchRead; rewrite H; cbn [negb].
  pose proof (authenticate_calls (auth_events w) c) as Hc.
  destruct (authenticate cfg (auth_events w) c) as [c' [authResult| |]];
    cbn [fst] in Hc.
  - destruct (success authResult); cbn [negb].
    + rewrite search_query_client; cbn [fst calls]. rewrite Hc.
      exists [search_call cfg c' model params].
      rewrite <- app_assoc. split; [reflexivity|].
      right; now exists c'.
    + cbn [fst]; rewrite Hc. exists []; split; [reflexivity | now left].
  - cbn [fst]; rewrite Hc. exists []; split; [reflexivity | now left].
  - cbn [fst]; rewrite Hc. exists []; split; [reflexivity | now left].
Qed.

(** C4: with an identity held, [searchRead] issues the query and no
    authentication call.  With none held it makes exactly one
    authentication attempt, before anything else; the query follows only
    if that attempt succeeds, and if it fails [searchRead] returns a
    failure that carries the attempt's error unchanged. *)
Theorem searchRead_authentication
        (w : World) (model : string) (params : OdooSearchParams) (c : Client) :
  let r := searchRead cfg w model params c in
  (identity_held c ->
   calls (fst r) = (calls c ++ [search_call cfg c model params])%list /\
   auth_attempts (calls (fst r)) = auth_attempts (calls c)) /\
  (~ identity_held c ->
   auth_attempts (calls (fst r)) = S (auth_attempts (calls c)) /\
   exists rest,
     calls (fst r) = (calls c ++ authenticate_call cfg :: rest)%list /\
     (rest = [] \/ exists c', rest = [search_call cfg c' model params])) /\
  (~ identity_held c ->
   forall c' authResult,
     authenticate cfg (auth_events w) c = (c', Resolved authResult) ->
     success authResult = false ->
     r = (c', Resolved {| success := false; data := None;
                          error := error authResult |}) /\
     calls c' = (calls c ++ [authenticate_call cfg])%list) /\
  (~ identity_held c ->
   forall c' authResult,
     authenticate cfg (auth_events w) c = (c', Resolved authResult) ->
     success authResult = true ->
     calls (fst r) =
     (calls c ++ [authenticate_call cfg; search_call cfg c' model params])%list).
Proof.
  cbv zeta; unfold identity_held.
  split; [|split; [|split]].
  - intros Hheld.
    rewrite (searchRead_calls_held _ _ _ _ Hheld). split; [reflexivity|].
    rewrite auth_attempts_app; cbn; lia.
  - intros Hn. apply not_true_is_false in Hn.
    destruct (searchRead_calls_fresh w model params c Hn)
      as (rest & Hc & Hrest).
    split; [|now exists rest].
    rewrite Hc, auth_attempts_app.
    destruct Hrest as [->|(c' & ->)]; cbn; lia.
  - intros Hn c' authResult Hauth Hfail. unfold searchRead.
    apply not_true_is_false in Hn. rewrite Hn; cbn [negb].
    pose proof (authenticate_calls (auth_events w) c) as Hc.
    rewrite Hauth in Hc |- *. rewrite Hfail; cbn [negb].
    split; [reflexivity | exact Hc].
  - intros Hn c' authResult Hauth Hok. unfold searchRead.
    apply not_true_is_false in Hn. rewrite Hn; cbn [negb].
    pose proof (authenticate_calls (auth_events w) c) as Hc.
    rewrite Hauth in Hc |- *. rewrite Hok; cbn [negb].
    rewrite search_query_client; cbn [fst calls] in Hc |- *.
    rewrite Hc, <- app_assoc. reflexivity.
Qed.

Lemma search_kwargs_carries_query params :
  carries_query params (search_kwargs params).
Proof.
  unfold carries_query, search_kwargs.
  repeat split.
  cbn [member String.eqb Ascii.eqb Bool.eqb].
  destruct (fields params) as [[|f fs]|]; reflexivity.
Qed.

(** C5 (amended): the [search_read] call of [searchRead] carries limit
    100, offset 0 and order [id desc] where the query specification leaves
    them out and the caller's values, unchanged, where it gives them
    ([searchRead] applies no cap to the limit); the [fields] member is
    always written, holding the requested field list when that is not
    empty and the value [undefined] when it is absent or empty.  With an
    identity held that call is the one call issued. *)
Theorem searchRead_request_parameters
        (w : World) (model : string) (params : OdooSearchParams) (c : Client) :
  let after := calls (fst (searchRead cfg w model params c)) in
  (forall db i pass m method args kw,
      In (ObjectExecuteKw db i pass m method args kw) after ->
      In (ObjectExecuteKw db i pass m method args kw) (calls c) \/
      (m = model /\ method = "search_read" /\ carries_query params kw)) /\
  (identity_held c ->
   after = (calls c ++
            [ObjectExecuteKw (database cfg) (uid c) (password cfg) model
               "search_read"
               [match domain params with Some d => d | None => JArr [] end]
               (search_kwargs params)])%list /\
   carries_query params (search_kwargs params)).
Proof.
  cbv zeta. split.
  - intros db i pass m method args kw Hin.
    destruct (truthy (uid c)) eqn:Hheld.
    + rewrite (searchRead_calls_held _ _ _ _ Hheld) in Hin.
      apply in_app_or in Hin as [Hin|[Heq|[]]]; [now left|right].
      injection Heq as <- <- <- <- <- <- <-.
      repeat split; apply search_kwargs_carries_query.
    + destruct (searchRead_calls_fresh w model params c Hheld)
        as (rest & Hc & Hrest).
      rewrite Hc in Hin.
      apply in_app_or in Hin as [Hin|[Heq|Hin]];
        [now left | discriminate Heq |].
      destruct Hrest as [->|(c' & ->)]; [destruct Hin|].
      destruct Hin as [Heq|[]]. right.
      injection Heq as <- <- <- <- <- <- <-.
      repeat split; apply search_kwargs_carries_query.
  - intros Hheld. split; [|apply search_kwargs_carries_query].
    exact (searchRead_calls_held _ _ _ _ Hheld).
Qed.

(** The identity field stays [null] or truthy throughout a session. *)
Lemma authenticate_step_identity ev st :
  identity_well_formed (fst st) ->
  identity_well_formed (fst (authenticate_step cfg ev st)).
Proof.
  destruct st as [c call]; destruct ev as [|err value diag];
    cbn [authenticate_step fst]; intros H.
  - now destruct (timer call).
  - destruct (validateXmlRpcResponse cfg diag err value "Authentication")
      as [v| |]; try exact H.
    destruct (success v); [|exact H].
    destruct (truthy value) eqn:Hv; cbn [negb fst]; [|exact H].
    now right.
Qed.

Lemma searchRead_identity w model params c :
  identity_well_formed c ->
  identity_well_formed (fst (searchRead cfg w model params c)).
Proof.
  intros H.
  assert (Hauth : identity_well_formed (fst (authenticate cfg (auth_events w) c))).
  { unfold authenticate.
    assert (G : forall evs st, identity_well_formed (fst st) ->
                identity_well_formed
                  (fst (until_settled (authenticate_step cfg) evs st))).
    { induction evs as [|ev evs IH]; intros st Hst; simpl.
      - now destruct (settled (snd st)).
      - destruct (settled (snd st)); [exact Hst|].
        apply IH, authenticate_step_identity, Hst. }
    specialize (G (auth_events w) (authenticate_start cfg c) H).
    now destruct (until_settled _ _ _). }
  unfold searchRead.
  destruct (negb (truthy (uid c))).
  - destruct (authenticate cfg (auth_events w) c) as [c' [authResult| |]];
      cbn [fst] in Hauth |- *; try exact Hauth.
    destruct (negb (success authResult)); [exact Hauth|].
    rewrite search_query_client. exact Hauth.
  - rewrite search_query_client. exact H.
Qed.

(** The cap lives in the tool front end: a [limit] that passed the
    argument schema reaches [searchRead] between 1 and 1000. *)
Lemma front_end_limit_within_cap (l : option Z) :
  GetSalesOrdersArgsSchema_limit l = true ->
  (1 <= handleGetSalesOrders_limit l <= documented_limit_cap)%Z.
Proof.
  unfold GetSalesOrdersArgsSchema_limit, handleGetSalesOrders_limit,
    documented_limit_cap.
  destruct l as [n|]; [|lia].
  intros H; apply andb_true_iff in H as [H1 H2].
  apply Z.leb_le in H1, H2.
  destruct (Z.eqb n 0) eqn:E; [apply Z.eqb_eq in E|]; lia.
Qed.

End SessionProperties.

(** Whatever the configured address, an erroneous response is never turned
    into a success: when the validator resolves at all, it resolves to a
    failure that carries a message. *)
Lemma erroneous_response_never_succeeds
      {parser : URLParser} (cfg : OdooConfig) {T : Type}
      (diag : Diagnostics) (e : XmlRpcError) (v : T) (operation : string)
      (r : OdooResponse T) :
  validateXmlRpcResponse cfg diag (Some e) v operation = Resolved r ->
  success r = false /\ exists m, error r = Some m.
Proof.
  unfold validateXmlRpcResponse.
  destruct (match message e with
            | Some m => truthy_string m && JS.includes m "Unknown XML-RPC tag"
            | None => false
            end).
  - destruct (inspectResponseBody cfg (body_net diag) "/xmlrpc/2/common")
      as [body| |]; cbn [await]; try discriminate.
    destruct (testHttpEndpoint cfg (probe_net diag) "/xmlrpc/2/common")
      as [probe| |]; cbn [await]; try discriminate.
    intros [= <-]; split; [reflexivity | eexists; reflexivity].
  - intros [= <-]; split; [reflexivity | eexists; reflexivity].
Qed.

(** Outside what the configuration loader hands over: were the configured
    address not parseable, [new URL] would throw before any request is made
    and both sub-steps would reject. *)
Remark unparseable_address_rejects
       {parser : URLParser} (cfg : OdooConfig) (net : Network) (path : string) :
  new_URL (url cfg) = None ->
  inspectResponseBody cfg net path = Rejected /\
  testHttpEndpoint cfg net path = Rejected.
Proof.
  intros H; unfold inspectResponseBody, testHttpEndpoint; now rewrite H.
Qed.

(** ** Worked instances *)




(** C10 at [http://localhost], [https://acme.example.com] and
    [http://localhost:8080]. *)
Lemma diagnostic_requests_port_witness :
  (@new_URL plain_parser (url local_config) = Some local_url /\
   req_port (probe_request local_url "/xmlrpc/2/common") = 8069%Z /\
   req_port (fetch_request local_url "/xmlrpc/2/common") = 8069%Z) /\
  (@new_URL plain_parser (url acme_config) = Some acme_url /\
   req_port (probe_request acme_url "/xmlrpc/2/common") = 443%Z /\
   req_port (fetch_request acme_url "/xmlrpc/2/common") = 443%Z) /\
  (@new_URL plain_parser (url proxied_config) = Some proxied_url /\
   req_port (probe_request proxied_url "/xmlrpc/2/common") = 8080%Z /\
   req_port (fetch_request proxied_url "/xmlrpc/2/common") = 8080%Z).
Proof.
  split; [|split]; (split; [reflexivity|]).
  - destruct (@diagnostic_requests_port plain_parser local_config local_url
                eq_refl "/xmlrpc/2/common") as (_ & _ & H & _).
    assert (Hnone : forall n, JS.parseInt (port local_url) = Some n -> n = 0%Z)
      by (intros n Hn; discriminate Hn).
    destruct (H Hnone) as (Hhttp & _).
    destruct (Hhttp eq_refl) as (H1 & H2 & _). now split.
  - destruct (@diagnostic_requests_port plain_parser acme_config acme_url
                eq_refl "/xmlrpc/2/common") as (_ & _ & H & _).
    assert (Hnone : forall n, JS.parseInt (port acme_url) = Some n -> n = 0%Z)
      by (intros n Hn; discriminate Hn).
    destruct (H Hnone) as (_ & Hhttps).
    destruct (Hhttps eq_refl) as (H1 & H2 & _). now split.
  - destruct (@diagnostic_requests_port plain_parser proxied_config proxied_url
                eq_refl "/xmlrpc/2/common") as (_ & _ & _ & H).
    apply (H 8080%Z); [reflexivity | discriminate].
Defined.

(** C10 as stated fails: the address [http://localhost:80] names a port
    that parses to a non-zero number, but the parsed address has an empty
    [port] field, the scheme's default port being elided, and both requests
    go to port 8069: on a host that listens on port 80 only, the probe
    reports a refused connection and the body fetch its placeholder. *)
Lemma default_port_is_not_used_as_given :
  url default_port_config = "http://localhost:80" /\
  @new_URL plain_parser (url default_port_config) = Some local_url /\
  port local_url = "" /\
  req_port (probe_request local_url "/xmlrpc/2/common") = 8069%Z /\
  req_port (fetch_request local_url "/xmlrpc/2/common") = 8069%Z /\
  8069%Z <> 80%Z /\
  @testHttpEndpoint plain_parser default_port_config only_port_80
    "/xmlrpc/2/common"
  = Resolved (failure (msg_request_failed "connect ECONNREFUSED")) /\
  @inspectResponseBody plain_parser default_port_config only_port_80
    "/xmlrpc/2/common"
  = Resolved body_unavailable.
Proof. repeat split; discriminate. Qed.

(** C2 as stated fails: the timer fires, the call yields the time-out
    failure, and when the transport calls back afterwards with identity 7
    the call stores it: [uid] goes from [null] to 7. *)
Lemma late_identity_is_stored_after_timeout :
  let st := @authenticate_run plain_parser acme_config
              [TimerFired; Callback None (JNum 7) unreachable_diagnostics]
              new_client in
  promise (snd st) = Resolved (failure msg_auth_timeout) /\
  uid new_client = JNull /\
  uid (fst st) = JNum 7 /\
  uid (fst st) <> uid new_client.
Proof. cbv zeta; repeat split; discriminate. Qed.

(** The amended C2 where the late callback reports rejected credentials. *)
Lemma authentication_timeout_witness :
  let evs := [Callback None (JBool false) unreachable_diagnostics] in
  @authenticate plain_parser acme_config (TimerFired :: evs) new_client =
    ({| uid := JNull; calls := [authenticate_call acme_config] |},
     Resolved (failure msg_auth_timeout)) /\
  uid (fst (@authenticate_run plain_parser acme_config (TimerFired :: evs)
              new_client)) = JNull.
Proof.
  cbv zeta.
  destruct (@authentication_timeout plain_parser acme_config
              [Callback None (JBool false) unreachable_diagnostics] new_client)
    as (_ & Hawait & _ & _ & _ & Hkeep).
  split; [exact Hawait|].
  apply Hkeep.
  intros err v d [Heq|[]] _. now injection Heq as _ <- _.
Defined.

(** C3 at the identities [false] and 7. *)
Lemma authentication_identity_witness :
  @authenticate plain_parser acme_config
    [Callback None (JBool false) unreachable_diagnostics] new_client =
    ({| uid := JNull; calls := [authenticate_call acme_config] |},
     Resolved (failure msg_invalid_credentials)) /\
  @authenticate plain_parser acme_config
    [Callback None (JNum 7) unreachable_diagnostics] new_client =
    ({| uid := JNum 7; calls := [authenticate_call acme_config] |},
     Resolved (ok (JNum 7))).
Proof.
  split.
  - destruct (@authentication_identity plain_parser acme_config (JBool false)
                unreachable_diagnostics [] new_client) as (H & _).
    exact (H eq_refl).
  - destruct (@authentication_identity plain_parser acme_config (JNum 7)
                unreachable_diagnostics [] new_client) as (_ & H & _).
    exact (H eq_refl).
Defined.

(** C4 at a signed-in client, and at a fresh client whose credentials the
    server rejects. *)
Lemma searchRead_authentication_witness :
  calls (fst (@searchRead plain_parser acme_config rows_world "sale.order"
                no_params signed_in)) =
    [search_call acme_config signed_in "sale.order" no_params] /\
  @searchRead plain_parser acme_config rejecting_world "sale.order" no_params
    new_client =
    ({| uid := JNull; calls := [authenticate_call acme_config] |},
     Resolved (failure msg_invalid_credentials)).
Proof.
  split.
  - destruct (@searchRead_authentication plain_parser acme_config rows_world
                "sale.order" no_params signed_in) as (H & _).
    destruct (H eq_refl) as (Hc & _). exact Hc.
  - destruct (@searchRead_authentication plain_parser acme_config rejecting_world
                "sale.order" no_params new_client) as (_ & _ & H & _).
    assert (Hn : ~ identity_held new_client) by (intros Hh; discriminate Hh).
    destruct (H Hn {| uid := JNull; calls := [authenticate_call acme_config] |}
                (failure msg_invalid_credentials) eq_refl eq_refl) as (Hr & _).
    exact Hr.
Defined.

(** C5 as stated fails: a query specification with limit 5000 and no
    field list reaches the remote call with limit 5000, above the
    documented cap of 1000, and with a [fields] member, whose value is
    [undefined]. *)
Lemma searchRead_passes_limit_above_cap :
  exists kw,
    calls (fst (@searchRead plain_parser acme_config rows_world "sale.order"
                  large_query signed_in)) =
      [ObjectExecuteKw "acme" (JNum 7) "secret" "sale.order" "search_read"
                       [JArr []] kw] /\
    member kw "limit" = Some (JNum 5000) /\
    ~ (5000 <= documented_limit_cap)%Z /\
    fields large_query = None /\
    In "fields" (map fst kw) /\
    member kw "fields" = Some JUndefined.
Proof.
  eexists; split; [reflexivity|]. split; [reflexivity|].
  split; [unfold documented_limit_cap; lia|].
  split; [reflexivity|]. split; [now left | reflexivity].
Qed.

(** The amended C5 at the empty query specification. *)
Lemma searchRead_request_parameters_witness :
  calls (fst (@searchRead plain_parser acme_config rows_world "sale.order"
                no_params signed_in)) =
    [ObjectExecuteKw "acme" (JNum 7) "secret" "sale.order" "search_read"
       [JArr []]
       [("fields", JUndefined); ("limit", JNum 100); ("offset", JNum 0);
        ("order", JStr "id desc")]].
Proof.
  destruct (@searchRead_request_parameters plain_parser acme_config rows_world
              "sale.order" no_params signed_in) as (_ & H).
  destruct (H eq_refl) as (Hc & _). exact Hc.
Defined.

(* ================================================================== *)
(** * Further properties of the client *)

(** ** Outcomes *)

Lemma ok_well_formed {T : Type} (d : T) : well_formed_outcome (ok d).
Proof. left; repeat split; eexists; reflexivity. Qed.

Lemma failure_well_formed {T : Type} (m : string) :
  m <> "" -> well_formed_outcome (@failure T m).
Proof. intros H; right; repeat split. exists m; now split. Qed.

Lemma tag_sentence_nonempty (t : option string) (tail : string) :
  tag_sentence t ++ tail <> "".
Proof. unfold tag_sentence; simpl; discriminate. Qed.

Lemma generic_message_nonempty (operation detail : string) :
  operation ++ " failed: " ++ detail <> "".
Proof. destruct operation; simpl; discriminate. Qed.

Lemma validator_outcome_well_formed
      {parser : URLParser} (cfg : OdooConfig) {T : Type}
      (diag : Diagnostics) (err : option XmlRpcError) (v : T)
      (operation : string) (r : OdooResponse T) :
  validateXmlRpcResponse cfg diag err v operation = Resolved r ->
  well_formed_outcome r.
Proof.
  unfold validateXmlRpcResponse.
  destruct err as [e|]; [|intros [= <-]; apply ok_well_formed].
  destruct (match message e with
            | Some m => truthy_string m && JS.includes m "Unknown XML-RPC tag"
            | None => false
            end).
  - destruct (inspectResponseBody cfg (body_net diag) "/xmlrpc/2/common")
      as [body| |]; cbn [await]; try discriminate.
    destruct (testHttpEndpoint cfg (probe_net diag) "/xmlrpc/2/common")
      as [probe| |]; cbn [await]; try discriminate.
    intros [= <-]. apply failure_well_formed.
    destruct (negb (success probe)); apply tag_sentence_nonempty.
  - intros [= <-]. apply failure_well_formed, generic_message_nonempty.
Qed.

Lemma probe_outcome_well_formed
      {parser : URLParser} (cfg : OdooConfig) (net : Network) (path : string)
      (r : OdooResponse ProbeData) :
  testHttpEndpoint cfg net path = Resolved r -> well_formed_outcome r.
Proof.
  unfold testHttpEndpoint.
  destruct (new_URL (url cfg)) as [u|]; [|discriminate].
  destruct (net (probe_request u path)) as [sc sm hdrs body|sc sm hdrs|m|].
  - destruct (Z.eqb sc 200 || Z.eqb sc 400 || Z.eqb sc 500);
      [intros [= <-]; apply ok_well_formed|].
    destruct (Z.eqb sc 405); intros [= <-]; apply failure_well_formed.
    + discriminate.
    + unfold msg_status; simpl; discriminate.
  - destruct (Z.eqb sc 200 || Z.eqb sc 400 || Z.eqb sc 500);
      [intros [= <-]; apply ok_well_formed|].
    destruct (Z.eqb sc 405); intros [= <-]; apply failure_well_formed.
    + discriminate.
    + unfold msg_status; simpl; discriminate.
  - intros [= <-]; apply failure_well_formed.
    unfold msg_request_failed; simpl; discriminate.
  - intros [= <-]; apply failure_well_formed; discriminate.
Qed.

(** What holds of the value a timeout-bounded call settles with holds of
    the value its promise resolves to. *)
Lemma until_settled_value
      (P : Client -> Client -> OdooResponse jsval -> Prop)
      (Q : Client -> Client -> Prop)
      (step : TransportEvent -> Client * Call -> Client * Call) :
  (forall c, Q c c) ->
  (forall c0 ev c call,
      Q c0 c -> settled call = None ->
      match settled (snd (step ev (c, call))) with
      | Some r => P c0 (fst (step ev (c, call))) r
      | None => Q c0 (fst (step ev (c, call)))
      end) ->
  forall evs c call,
    settled call = None ->
    match settled (snd (until_settled step evs (c, call))) with
    | Some r => P c (fst (until_settled step evs (c, call))) r
    | None => Q c (fst (until_settled step evs (c, call)))
    end.
Proof.
  intros HQ Hstep evs c call Hnone.
  assert (G : forall evs c0 c1 call1,
             Q c0 c1 -> settled call1 = None ->
             match settled (snd (until_settled step evs (c1, call1))) with
             | Some r => P c0 (fst (until_settled step evs (c1, call1))) r
             | None => Q c0 (fst (until_settled step evs (c1, call1)))
             end).
  { clear evs c call Hnone.
    induction evs as [|ev evs IH]; intros c0 c1 call1 Hq Hn.
    - simpl. rewrite Hn. cbn [snd fst]. now rewrite Hn.
    - cbn [until_settled snd]. rewrite Hn.
      pose proof (Hstep c0 ev c1 call1 Hq Hn) as Hs.
      destruct (step ev (c1, call1)) as [c2 call2] eqn:E. cbn [snd fst] in Hs.
      destruct (settled call2) as [r|] eqn:E2.
      + rewrite (until_settled_done step evs (c2, call2) r E2).
        cbn [snd fst]. now rewrite E2.
      + now apply IH. }
  apply G; [apply HQ | exact Hnone].
Qed.

Section OutcomeProperties.
Context {parser : URLParser}.
Variable cfg : OdooConfig.

Lemma authenticate_step_settles ev c call :
  settled call = None ->
  match settled (snd (authenticate_step cfg ev (c, call))) with
  | Some r =>
      well_formed_outcome r /\
      calls (fst (authenticate_step cfg ev (c, call))) = calls c /\
      ((success r = true /\
        data r = Some (uid (fst (authenticate_step cfg ev (c, call)))) /\
        truthy (uid (fst (authenticate_step cfg ev (c, call)))) = true) \/
       (success r = false /\
        uid (fst (authenticate_step cfg ev (c, call))) = uid c))
  | None =>
      uid (fst (authenticate_step cfg ev (c, call))) = uid c /\
      calls (fst (authenticate_step cfg ev (c, call))) = calls c
  end.
Proof.
  intros Hn. destruct ev as [|err value diag]; cbn [authenticate_step].
  - destruct (timer call); cbn [snd fst].
    + unfold resolve, clearTimeout; cbn [settled]; rewrite Hn; cbn [settled].
      split; [apply failure_well_formed; discriminate|].
      split; [reflexivity | right; now split].
    + rewrite Hn; now split.
  - destruct (validateXmlRpcResponse cfg diag err value "Authentication")
      as [v| |] eqn:Ev; cbn [snd fst clearTimeout settled];
      try (rewrite Hn; now split).
    destruct (success v) eqn:Es.
    + destruct (truthy value) eqn:Et; cbn [negb snd fst];
        unfold resolve; cbn [clearTimeout settled]; rewrite Hn; cbn [settled].
      * split; [apply ok_well_formed|].
        split; [reflexivity | left; repeat split; assumption].
      * split; [apply failure_well_formed; discriminate|].
        split; [reflexivity | right; now split].
    + cbn [snd fst]; unfold resolve; cbn [clearTimeout settled];
        rewrite Hn; cbn [settled].
      split; [exact (validator_outcome_well_formed _ _ _ _ _ _ Ev)|].
      split; [reflexivity | right; now split].
Qed.

Lemma search_step_settles ev c call :
  settled call = None ->
  match settled (snd (search_step cfg ev (c, call))) with
  | Some r => well_formed_outcome r
  | None => True
  end.
Proof.
  intros Hn. destruct ev as [|err value diag]; cbn [search_step].
  - destruct (timer call); cbn [snd].
    + unfold resolve, clearTimeout; cbn [settled]; rewrite Hn; cbn [settled].
      apply failure_well_formed; discriminate.
    + now rewrite Hn.
  - destruct (validateXmlRpcResponse cfg diag err value "SearchRead")
      as [v| |] eqn:Ev; cbn [snd clearTimeout settled];
      try (now rewrite Hn).
    destruct (success v) eqn:Es; cbn [snd]; unfold resolve;
      cbn [clearTimeout settled]; rewrite Hn; cbn [settled].
    + apply ok_well_formed.
    + exact (validator_outcome_well_formed _ _ _ _ _ _ Ev).
Qed.

Lemma connection_step_settles ev c call :
  settled call = None ->
  match settled (snd (connection_step cfg ev (c, call))) with
  | Some r => well_formed_outcome r
  | None => True
  end.
Proof.
  intros Hn. destruct ev as [|err value diag]; cbn [connection_step].
  - destruct (timer call); cbn [snd].
    + unfold resolve, clearTimeout; cbn [settled]; rewrite Hn; cbn [settled].
      apply failure_well_formed; discriminate.
    + now rewrite Hn.
  - destruct (validateXmlRpcResponse cfg diag err value "Connection test")
      as [v| |] eqn:Ev; cbn [snd clearTimeout settled];
      try (now rewrite Hn).
    unfold resolve; cbn [clearTimeout settled]; rewrite Hn; cbn [settled].
    exact (validator_outcome_well_formed _ _ _ _ _ _ Ev).
Qed.

(** What an awaited [authenticate()] leaves behind, by its outcome. *)
Lemma authenticate_resolved evs c c' r :
  authenticate cfg evs c = (c', Resolved r) ->
  well_formed_outcome r /\
  calls c' = (calls c ++ [authenticate_call cfg])%list /\
  ((success r = true /\ data r = Some (uid c') /\ truthy (uid c') = true) \/
   (success r = false /\ uid c' = uid c)).
Proof.
  unfold authenticate, authenticate_start.
  pose proof (until_settled_value
                (fun c0 c1 r =>
                   well_formed_outcome r /\ calls c1 = calls c0 /\
                   ((success r = true /\ data r = Some (uid c1) /\
                     truthy (uid c1) = true) \/
                    (success r = false /\ uid c1 = uid c0)))
                (fun c0 c1 => uid c1 = uid c0 /\ calls c1 = calls c0)
                (authenticate_step cfg)) as H.
  specialize (H (fun c => conj eq_refl eq_refl)).
  assert (Hstep : forall c0 ev c1 call,
             uid c1 = uid c0 /\ calls c1 = calls c0 -> settled call = None ->
             match settled (snd (authenticate_step cfg ev (c1, call))) with
             | Some r =>
                 well_formed_outcome r /\
                 calls (fst (authenticate_step cfg ev (c1, call))) = calls c0 /\
                 ((success r = true /\
                   data r = Some (uid (fst (authenticate_step cfg ev (c1, call)))) /\
                   truthy (uid (fst (authenticate_step cfg ev (c1, call)))) = true) \/
                  (success r = false /\
                   uid (fst (authenticate_step cfg ev (c1, call))) = uid c0))
             | None =>
                 uid (fst (authenticate_step cfg ev (c1, call))) = uid c0 /\
                 calls (fst (authenticate_step cfg ev (c1, call))) = calls c0
             end).
  { intros c0 ev c1 call [Hu Hc] Hn.
    pose proof (authenticate_step_settles ev c1 call Hn) as Hs.
    destruct (settled (snd (authenticate_step cfg ev (c1, call)))).
    - destruct Hs as (Hw & Hcalls & Hcase).
      split; [exact Hw|]. split; [congruence|].
      destruct Hcase as [Hok|[Hf Huid]]; [now left | right; split; congruence].
    - destruct Hs; split; congruence. }
  specialize (H Hstep evs
                {| uid := uid c; calls := (calls c ++ [authenticate_call cfg])%list |}
                (setTimeout auth_timeout_ms) eq_refl).
  destruct (until_settled (authenticate_step cfg) evs _) as [c1 call1].
  cbn [snd fst] in H. unfold promise.
  destruct (settled call1) as [r1|]; [|discriminate].
  intros [= <- <-]. exact H.
Qed.

Lemma search_query_resolved w model params c c' r :
  search_query cfg w model params c = (c', Resolved r) ->
  well_formed_outcome r.
Proof.
  unfold search_query.
  pose proof (until_settled_value
                (fun _ _ r => well_formed_outcome r) (fun _ _ => True)
                (search_step cfg) (fun _ => I)) as H.
  specialize (H (fun c0 ev c1 call _ Hn => search_step_settles ev c1 call Hn)
                (query_events w)
                {| uid := uid c;
                   calls := (calls c ++ [search_call cfg c model params])%list |}
                (setTimeout search_timeout_ms) eq_refl).
  destruct (until_settled (search_step cfg) (query_events w) _) as [c1 call1].
  cbn [snd fst] in H. unfold promise.
  destruct (settled call1) as [r1|]; [|discriminate].
  intros [= <- <-]. exact H.
Qed.

Lemma propagated_failure_well_formed (authResult : OdooResponse jsval) :
  well_formed_outcome authResult -> success authResult = false ->
  well_formed_outcome
    {| success := false; data := @None jsval; error := error authResult |}.
Proof.
  intros [(Ht & _)|(_ & _ & m & Hm & Hne)] Hf; [congruence|].
  right; repeat split. exists m; now split.
Qed.

Lemma searchRead_resolved w model params c c' r :
  searchRead cfg w model params c = (c', Resolved r) ->
  well_formed_outcome r.
Proof.
  unfold searchRead.
  destruct (negb (truthy (uid c))); [|apply search_query_resolved].
  destruct (authenticate cfg (auth_events w) c) as [c1 [authResult| |]] eqn:Ea;
    try discriminate.
  destruct (authenticate_resolved _ _ _ _ Ea) as (Hw & _ & _).
  destruct (success authResult) eqn:Es; cbn [negb].
  - apply search_query_resolved.
  - intros [= <- <-]. now apply propagated_failure_well_formed.
Qed.

End OutcomeProperties.

(** ** Sessions *)

Section SessionOperations.
Context {parser : URLParser}.
Variable cfg : OdooConfig.

Lemma authenticate_pending evs c c' :
  authenticate cfg evs c = (c', Pending) ->
  uid c' = uid c /\ calls c' = (calls c ++ [authenticate_call cfg])%list.
Proof.
  unfold authenticate, authenticate_start.
  pose proof (until_settled_value
                (fun _ _ _ => True)
                (fun c0 c1 => uid c1 = uid c0 /\ calls c1 = calls c0)
                (authenticate_step cfg) (fun c => conj eq_refl eq_refl)) as H.
  assert (Hstep : forall c0 ev c1 call,
             uid c1 = uid c0 /\ calls c1 = calls c0 -> settled call = None ->
             match settled (snd (authenticate_step cfg ev (c1, call))) with
             | Some r => True
             | None =>
                 uid (fst (authenticate_step cfg ev (c1, call))) = uid c0 /\
                 calls (fst (authenticate_step cfg ev (c1, call))) = calls c0
             end).
  { intros c0 ev c1 call [Hu Hc] Hn.
    pose proof (authenticate_step_settles cfg ev c1 call Hn) as Hs.
    destruct (settled (snd (authenticate_step cfg ev (c1, call))));
      [exact I | destruct Hs; split; congruence]. }
  specialize (H Hstep evs
                {| uid := uid c; calls := (calls c ++ [authenticate_call cfg])%list |}
                (setTimeout auth_timeout_ms) eq_refl).
  destruct (until_settled (authenticate_step cfg) evs _) as [c1 call1].
  cbn [snd fst] in H. unfold promise.
  destruct (settled call1) as [r1|]; [discriminate|].
  intros [= <-]. exact H.
Qed.

(** [authenticate] never rejects: the promise resolves or stays pending. *)
Lemma authenticate_never_rejects evs c c' :
  authenticate cfg evs c <> (c', Rejected).
Proof.
  unfold authenticate.
  destruct (until_settled (authenticate_step cfg) evs (authenticate_start cfg c))
    as [c1 call1].
  unfold promise; destruct (settled call1); intros [= _ H]; discriminate.
Qed.

(** Every event of an [authenticate()] call, late ones included, keeps the
    identity or replaces it with a truthy one. *)
Lemma authenticate_step_uid ev st :
  uid (fst (authenticate_step cfg ev st)) = uid (fst st) \/
  truthy (uid (fst (authenticate_step cfg ev st))) = true.
Proof.
  destruct st as [c call]; destruct ev as [|err value diag];
    cbn [authenticate_step fst].
  - left; now destruct (timer call).
  - destruct (validateXmlRpcResponse cfg diag err value "Authentication")
      as [v| |]; try (now left).
    destruct (success v); [|now left].
    destruct (truthy value) eqn:Hv; cbn [negb fst uid]; [now right | now left].
Qed.

Lemma authenticate_run_effect evs c :
  calls (fst (authenticate_run cfg evs c)) =
  (calls c ++ [authenticate_call cfg])%list /\
  (uid (fst (authenticate_run cfg evs c)) = uid c \/
   truthy (uid (fst (authenticate_run cfg evs c))) = true).
Proof.
  unfold authenticate_run.
  assert (G : forall evs st,
             calls (fst (fold_left (fun st ev => authenticate_step cfg ev st) evs st))
             = calls (fst st) /\
             (uid (fst (fold_left (fun st ev => authenticate_step cfg ev st) evs st))
              = uid (fst st) \/
              truthy (uid (fst (fold_left (fun st ev => authenticate_step cfg ev st)
                                          evs st))) = true)).
  { clear evs. induction evs as [|ev evs IH]; intros st; simpl.
    - split; [reflexivity | now left].
    - destruct (IH (authenticate_step cfg ev st)) as [Hc Hu].
      split; [now rewrite Hc, authenticate_step_calls|].
      destruct Hu as [Hu|Hu]; [|now right].
      rewrite Hu. apply authenticate_step_uid. }
  destruct (G evs (authenticate_start cfg c)) as [Hc Hu].
  split; [exact Hc | exact Hu].
Qed.

(** What one [searchRead] does to the client, whatever its outcome. *)
Lemma searchRead_effect w model params c :
  let c' := fst (searchRead cfg w model params c) in
  (truthy (uid c) = true ->
   uid c' = uid c /\
   calls c' = (calls c ++ [search_call cfg c model params])%list) /\
  (truthy (uid c) = false ->
   (uid c' = uid c /\
    calls c' = (calls c ++ [authenticate_call cfg])%list) \/
   (truthy (uid c') = true /\
    calls c' = (calls c ++ [authenticate_call cfg;
                            search_call cfg c' model params])%list)).
Proof.
  cbv zeta; unfold searchRead. split; intros Hheld; rewrite Hheld; cbn [negb].
  - rewrite search_query_client; cbn [uid calls]. now split.
  - destruct (authenticate cfg (auth_events w) c) as [c1 [authResult| |]] eqn:Ea.
    + destruct (authenticate_resolved _ _ _ _ _ Ea) as (_ & Hc & Hcase).
      destruct (success authResult) eqn:Es; cbn [negb fst].
      * destruct Hcase as [(_ & _ & Ht)|(Hf & _)]; [|discriminate].
        right. rewrite search_query_client; cbn [uid calls].
        split; [exact Ht|]. rewrite Hc, <- app_assoc. reflexivity.
      * destruct Hcase as [(Hf & _)|(_ & Hu)]; [discriminate|].
        left; now split.
    + exfalso; exact (authenticate_never_rejects _ _ _ Ea).
    + cbn [fst]. left. exact (authenticate_pending _ _ _ Ea).
Qed.

Lemma count_query_effect w model domain s :
  session_uid (fst (count_query cfg w model domain s)) = session_uid s /\
  exists call,
    trace (fst (count_query cfg w model domain s)) = (trace s ++ [call])%list /\
    call_identity call = Some (session_uid s) /\
    is_logged_authenticate call = false.
Proof. split; [reflexivity | eexists; repeat split]. Qed.

Lemma fields_query_effect w model s :
  session_uid (fst (fields_query cfg w model s)) = session_uid s /\
  exists call,
    trace (fst (fields_query cfg w model s)) = (trace s ++ [call])%list /\
    call_identity call = Some (session_uid s) /\
    is_logged_authenticate call = false.
Proof. split; [reflexivity | eexists; repeat split]. Qed.

Lemma ensure_identity_effect auth_evs k s :
  (forall s0,
      session_uid (fst (k s0)) = session_uid s0 /\
      exists call,
        trace (fst (k s0)) = (trace s0 ++ [call])%list /\
        call_identity call = Some (session_uid s0) /\
        is_logged_authenticate call = false) ->
  let s' := fst (ensure_identity cfg auth_evs k s) in
  exists new,
    trace s' = (trace s ++ new)%list /\
    orderly (session_uid s) (session_uid s') new /\
    (truthy (session_uid s) = true ->
     session_auth_attempts new = 0 /\ session_uid s' = session_uid s).
Proof.
  intros Hk; cbv zeta; unfold ensure_identity.
  destruct (truthy (session_uid s)) eqn:Hheld; cbn [negb].
  - destruct (Hk s) as (Hu & call & Ht & Hi & Hl).
    exists [call]. split; [exact Ht|]. split.
    + split; [|split].
      * constructor; [|constructor]. intros i Hci. congruence.
      * unfold session_auth_attempts; cbn. rewrite Hl. cbn; lia.
      * now left.
    + intros _. split; [|exact Hu].
      unfold session_auth_attempts; cbn. now rewrite Hl.
  - unfold with_client.
    destruct (authenticate cfg auth_evs {| uid := session_uid s; calls := [] |})
      as [c1 [authResult| |]] eqn:Ea.
    + destruct (authenticate_resolved _ _ _ _ _ Ea) as (_ & Hc & Hcase).
      cbn [calls app] in Hc. rewrite Hc; cbn [map].
      destruct (success authResult) eqn:Es; cbn [negb fst].
      * destruct Hcase as [(_ & _ & Ht)|(Hf & _)]; [|discriminate].
        destruct (Hk {| session_uid := uid c1;
                        trace := (trace s ++ [Logged (authenticate_call cfg)])%list |})
          as (Hu & call & Htr & Hi & Hl).
        cbn [session_uid trace] in Hu, Htr, Hi.
        exists [Logged (authenticate_call cfg); call].
        split; [rewrite Htr, <- app_assoc; reflexivity|].
        split; [|discriminate].
        split; [|split].
        -- constructor; [intros i Hci; discriminate Hci|].
           constructor; [|constructor]. intros i Hci. congruence.
        -- unfold session_auth_attempts; cbn. rewrite Hl. cbn; lia.
        -- right. now rewrite Hu.
      * destruct Hcase as [(Hf & _)|(_ & Hu)]; [discriminate|].
        exists [Logged (authenticate_call cfg)]. cbn [session_uid trace].
        split; [reflexivity|]. split; [|discriminate].
        split; [|split].
        -- constructor; [intros i Hci; discriminate Hci | constructor].
        -- unfold session_auth_attempts; cbn; lia.
        -- now left.
    + exfalso; exact (authenticate_never_rejects _ _ _ Ea).
    + destruct (authenticate_pending _ _ _ Ea) as (Hu & Hc).
      cbn [calls app] in Hc. cbn [fst session_uid trace]. rewrite Hc; cbn [map].
      exists [Logged (authenticate_call cfg)].
      split; [reflexivity|]. split; [|discriminate].
      split; [|split].
      * constructor; [intros i Hci; discriminate Hci | constructor].
      * unfold session_auth_attempts; cbn; lia.
      * now left.
Qed.

End SessionOperations.

Section SessionSequences.
Context {parser : URLParser}.
Variable cfg : OdooConfig.

(** Running all events of a call is running the late ones from the state
    in which the promise settled. *)
Lemma late_events_continue (step : TransportEvent -> Client * Call -> Client * Call)
      (evs : list TransportEvent) (st : Client * Call) :
  fold_left (fun st ev => step ev st) evs st =
  fold_left (fun st ev => step ev st) (after_settled step evs st)
            (until_settled step evs st).
Proof.
  revert st; induction evs as [|ev evs IH]; intros st; simpl.
  - now destruct (settled (snd st)).
  - destruct (settled (snd st)); [reflexivity | apply IH].
Qed.

Lemma authenticate_effect evs c :
  calls (fst (authenticate cfg evs c)) =
  (calls c ++ [authenticate_call cfg])%list /\
  (uid (fst (authenticate cfg evs c)) = uid c \/
   truthy (uid (fst (authenticate cfg evs c))) = true).
Proof.
  destruct (authenticate cfg evs c) as [c1 [r| |]] eqn:Ea; cbn [fst].
  - destruct (authenticate_resolved cfg _ _ _ _ Ea) as (_ & Hc & Hcase).
    split; [exact Hc|].
    destruct Hcase as [(_ & _ & Ht)|(_ & Hu)]; [now right | now left].
  - exfalso; exact (authenticate_never_rejects cfg _ _ _ Ea).
  - destruct (authenticate_pending cfg _ _ _ Ea) as (Hu & Hc).
    split; [exact Hc | now left].
Qed.

(** What a step has done to the session when its operation returns. *)
Lemma at_return_effect op s :
  exists new,
    trace (at_return cfg op s) = (trace s ++ new)%list /\
    identified new /\
    session_auth_attempts new <= 1 /\
    (session_uid (at_return cfg op s) = session_uid s \/
     truthy (session_uid (at_return cfg op s)) = true) /\
    (truthy (session_uid s) = true -> is_explicit_authenticate op = false ->
     session_auth_attempts new = 0 /\
     session_uid (at_return cfg op s) = session_uid s).
Proof.
  destruct op as [evs|w model params|w model domain|w model|evs|err value diag];
    cbn [at_return is_explicit_authenticate].
  - unfold with_client.
    destruct (authenticate_effect evs {| uid := session_uid s; calls := [] |})
      as [Hc Hu].
    destruct (authenticate cfg evs {| uid := session_uid s; calls := [] |})
      as [c' a].
    cbn [fst calls app uid session_uid trace] in *.
    rewrite Hc; cbn [map].
    exists [Logged (authenticate_call cfg)].
    split; [reflexivity|]. split; [|split; [|split; [exact Hu | discriminate]]].
    + constructor; [intros i Hci; discriminate Hci | constructor].
    + unfold session_auth_attempts; cbn; lia.
  - unfold with_client.
    pose proof (searchRead_effect cfg w model params
                  {| uid := session_uid s; calls := [] |}) as [Hheld Hfresh].
    destruct (searchRead cfg w model params
                {| uid := session_uid s; calls := [] |}) as [c' a].
    cbn [fst uid calls app session_uid trace] in *.
    destruct (truthy (session_uid s)) eqn:Ht.
    + destruct (Hheld eq_refl) as [Hu Hc]. rewrite Hc; cbn [map].
      eexists; split; [reflexivity|]. split; [|split; [|split]].
      * constructor; [|constructor]. cbn. intros i [= <-]. exact Ht.
      * unfold session_auth_attempts; cbn; lia.
      * now left.
      * intros _ _. split; [reflexivity | exact Hu].
    + destruct (Hfresh eq_refl) as [[Hu Hc]|[Hu Hc]]; rewrite Hc; cbn [map];
        (eexists; split; [reflexivity|]);
        (split; [|split; [|split; [|discriminate]]]).
      * constructor; [intros i Hci; discriminate Hci | constructor].
      * unfold session_auth_attempts; cbn; lia.
      * now left.
      * constructor; [intros i Hci; discriminate Hci|].
        constructor; [|constructor]. cbn. intros i [= <-]. exact Hu.
      * unfold session_auth_attempts; cbn; lia.
      * now right.
  - unfold count.
    destruct (ensure_identity_effect cfg (auth_events w)
                (count_query cfg w model domain) s)
      as (new & Ht & (Hi & Ha & Hu) & Hh);
      [intros s0; apply count_query_effect|].
    exists new. repeat (split; [assumption|]).
    intros Htr _; now apply Hh.
  - unfold getFields.
    destruct (ensure_identity_effect cfg (auth_events w)
                (fields_query cfg w model) s)
      as (new & Ht & (Hi & Ha & Hu) & Hh);
      [intros s0; apply fields_query_effect|].
    exists new. repeat (split; [assumption|]).
    intros Htr _; now apply Hh.
  - unfold testConnection.
    destruct (until_settled (connection_step cfg) evs _) as [c1 call1].
    cbn [fst session_uid trace].
    exists [CommonVersion]. split; [reflexivity|].
    split; [|split; [|split; [now left|intros _ _; split; reflexivity]]].
    + constructor; [intros i Hci; discriminate Hci | constructor].
    + unfold session_auth_attempts; cbn; lia.
  - exists []. rewrite app_nil_r. split; [reflexivity|].
    split; [constructor|]. split; [cbn; lia|]. split; [now left|].
    intros _ _. split; reflexivity.
Qed.

(** What a step does to the session, its late events included. *)
Lemma perform_effect op s :
  exists new,
    trace (perform cfg op s) = (trace s ++ new)%list /\
    orderly (session_uid s) (session_uid (perform cfg op s)) new /\
    (truthy (session_uid s) = true -> is_explicit_authenticate op = false ->
     session_auth_attempts new = 0 /\
     (is_late_reply op = false ->
      session_uid (perform cfg op s) = session_uid s)).
Proof.
  destruct (at_return_effect op s) as (new & Ht & Hi & Ha & Hu & Hh).
  assert (Hrun : forall evs,
             uid (fst (authenticate_run cfg evs
                         {| uid := session_uid s; calls := [] |}))
             = session_uid s \/
             truthy (uid (fst (authenticate_run cfg evs
                                 {| uid := session_uid s; calls := [] |})))
             = true).
  { intros evs.
    destruct (authenticate_run_effect cfg evs
                {| uid := session_uid s; calls := [] |}) as [_ H]. exact H. }
  assert (Hheld : forall w,
             truthy (session_uid s) = true ->
             (if negb (truthy (session_uid s))
              then Some (auth_events w) else None) = None).
  { intros w ->. reflexivity. }
  exists new.
  destruct op as [evs|w model params|w model domain|w model|evs|err value diag];
    cbn [perform authentication_events is_explicit_authenticate is_late_reply].
  - cbn [session_uid trace]. split; [exact Ht|].
    split; [split; [exact Hi | split; [exact Ha | apply Hrun]]|].
    intros _ Hx; discriminate Hx.
  - destruct (truthy (session_uid s)) eqn:Hs; cbn [negb session_uid trace].
    + split; [exact Ht|]. split; [split; [exact Hi | split; [exact Ha | exact Hu]]|].
      intros _ _. destruct (Hh eq_refl eq_refl) as [H0 H1]. now split.
    + split; [exact Ht|].
      split; [split; [exact Hi | split; [exact Ha | apply Hrun]]|].
      intros Hx; discriminate Hx.
  - destruct (truthy (session_uid s)) eqn:Hs; cbn [negb session_uid trace].
    + split; [exact Ht|]. split; [split; [exact Hi | split; [exact Ha | exact Hu]]|].
      intros _ _. destruct (Hh eq_refl eq_refl) as [H0 H1]. now split.
    + split; [exact Ht|].
      split; [split; [exact Hi | split; [exact Ha | apply Hrun]]|].
      intros Hx; discriminate Hx.
  - destruct (truthy (session_uid s)) eqn:Hs; cbn [negb session_uid trace].
    + split; [exact Ht|]. split; [split; [exact Hi | split; [exact Ha | exact Hu]]|].
      intros _ _. destruct (Hh eq_refl eq_refl) as [H0 H1]. now split.
    + split; [exact Ht|].
      split; [split; [exact Hi | split; [exact Ha | apply Hrun]]|].
      intros Hx; discriminate Hx.
  - split; [exact Ht|]. split; [split; [exact Hi | split; [exact Ha | exact Hu]]|].
    intros Hs _. destruct (Hh Hs eq_refl) as [H0 H1]. now split.
  - unfold late_reply.
    pose proof (authenticate_step_uid cfg (Callback err value diag)
                  ({| uid := session_uid s; calls := [] |}, timed_out_call))
      as Hstep.
    destruct (authenticate_step cfg (Callback err value diag) _) as [c1 call1].
    cbn [fst uid session_uid trace at_return] in *.
    split; [exact Ht|]. split; [split; [exact Hi | split; [exact Ha | exact Hstep]]|].
    intros Hs _. destruct (Hh Hs eq_refl) as [H0 _].
    split; [exact H0 | intros Hx; discriminate Hx].
Qed.

Lemma identified_app l1 l2 :
  identified l1 -> identified l2 -> identified (l1 ++ l2)%list.
Proof. unfold identified; intros H1 H2; apply Forall_app; now split. Qed.

Lemma session_auth_attempts_app l1 l2 :
  session_auth_attempts (l1 ++ l2)%list =
  session_auth_attempts l1 + session_auth_attempts l2.
Proof. unfold session_auth_attempts; now rewrite filter_app, length_app. Qed.

Lemma perform_all_effect ops s :
  exists new,
    trace (perform_all cfg ops s) = (trace s ++ new)%list /\
    identified new /\
    session_auth_attempts new <= length ops /\
    (session_uid (perform_all cfg ops s) = session_uid s \/
     truthy (session_uid (perform_all cfg ops s)) = true) /\
    (truthy (session_uid s) = true ->
     truthy (session_uid (perform_all cfg ops s)) = true) /\
    (truthy (session_uid s) = true ->
     forallb (fun op => negb (is_explicit_authenticate op)) ops = true ->
     session_auth_attempts new = 0 /\
     (forallb (fun op => negb (is_late_reply op)) ops = true ->
      session_uid (perform_all cfg ops s) = session_uid s)).
Proof.
  revert s; induction ops as [|op ops IH]; intros s; cbn [perform_all fold_left].
  - exists []. rewrite app_nil_r.
    repeat split; try constructor; auto.
  - fold (perform_all cfg ops (perform cfg op s)).
    destruct (perform_effect op s) as (new1 & Ht1 & (Hi1 & Ha1 & Hu1) & Hh1).
    destruct (IH (perform cfg op s))
      as (new2 & Ht2 & Hi2 & Ha2 & Hu2 & Hk2 & Hh2).
    exists (new1 ++ new2)%list.
    split; [rewrite Ht2, Ht1, app_assoc; reflexivity|].
    split; [now apply identified_app|].
    split; [rewrite session_auth_attempts_app; cbn [length]; lia|].
    assert (Hkeep : truthy (session_uid s) = true ->
                    truthy (session_uid (perform cfg op s)) = true).
    { intros Ht. destruct Hu1 as [Hu1|Hu1]; [now rewrite Hu1 | exact Hu1]. }
    split; [|split].
    + destruct Hu2 as [Hu2|Hu2]; [|now right].
      rewrite Hu2. exact Hu1.
    + intros Ht. apply Hk2, Hkeep, Ht.
    + intros Ht Hall. cbn [forallb] in Hall.
      apply andb_true_iff in Hall as [Hop Hall].
      apply negb_true_iff in Hop.
      destruct (Hh1 Ht Hop) as [Hz1 Hs1].
      destruct (Hh2 (Hkeep Ht) Hall) as [Hz2 Hs2].
      split; [rewrite session_auth_attempts_app; lia|].
      intros Hlate. cbn [forallb] in Hlate.
      apply andb_true_iff in Hlate as [Hl Hlate].
      apply negb_true_iff in Hl.
      rewrite (Hs2 Hlate). exact (Hs1 Hl).
Qed.

(** X3: every data call of a session ([search_read], [search_count],
    [fields_get]) is sent with a truthy identity: whatever operations are
    awaited one after the other, whatever events their calls meet, and
    whenever late replies to timed-out authentication calls arrive, no
    query leaves with [null] or a falsy value in the identity position. *)
Theorem data_calls_carry_identity (ops : list Operation) (s : Session) :
  exists new,
    trace (perform_all cfg ops s) = (trace s ++ new)%list /\
    forall c i, In c new -> call_identity c = Some i -> truthy i = true.
Proof.
  destruct (perform_all_effect ops s) as (new & Ht & Hi & _).
  exists new; split; [exact Ht|].
  intros c i Hin. unfold identified in Hi. rewrite Forall_forall in Hi.
  now apply Hi.
Qed.

(** X4: the identity is never cleared.  Over any sequence of steps, the
    late callbacks of explicit and of implicit [authenticate] calls
    included, [uid] is either what it was or a truthy value; so a
    well-formed identity ([null] or truthy) stays well-formed, and an
    identity once held stays held. *)
Theorem identity_is_never_cleared (ops : list Operation) (s : Session) :
  let s' := perform_all cfg ops s in
  (session_uid s' = session_uid s \/ truthy (session_uid s') = true) /\
  (session_uid s = JNull \/ truthy (session_uid s) = true ->
   session_uid s' = JNull \/ truthy (session_uid s') = true) /\
  (truthy (session_uid s) = true -> truthy (session_uid s') = true).
Proof.
  cbv zeta.
  destruct (perform_all_effect ops s) as (new & _ & _ & _ & Hu & Hk & _).
  split; [exact Hu|]. split; [|exact Hk].
  intros [Hn|Ht]; [|right; now apply Hk].
  destruct Hu as [Hu|Hu]; [left; congruence | now right].
Qed.

(** X5: a held identity is reused.  Each step makes at most one
    authentication attempt; when an identity is held and no step of the
    sequence is an explicit [authenticate()], the sequence makes no
    authentication attempt at all; and when, moreover, no late reply to an
    earlier authentication call arrives, it leaves [uid] as it was. *)
Theorem held_identity_is_reused (ops : list Operation) (s : Session) :
  exists new,
    trace (perform_all cfg ops s) = (trace s ++ new)%list /\
    session_auth_attempts new <= length ops /\
    (truthy (session_uid s) = true ->
     forallb (fun op => negb (is_explicit_authenticate op)) ops = true ->
     session_auth_attempts new = 0 /\
     (forallb (fun op => negb (is_late_reply op)) ops = true ->
      session_uid (perform_all cfg ops s) = session_uid s)).
Proof.
  destruct (perform_all_effect ops s) as (new & Ht & _ & Ha & _ & _ & Hh).
  exists new; repeat split; try assumption; now apply Hh.
Qed.

End SessionSequences.

Section OperationOutcomes.
Context {parser : URLParser}.
Variable cfg : OdooConfig.

Lemma first_reply_outcome_well_formed (prefix : string)
      (evs : list TransportEvent) (r : OdooResponse jsval) :
  match first_reply evs with
  | None => Pending
  | Some (Some e, _) => Resolved (failure (prefix ++ show (message e)))
  | Some (None, result) => Resolved (ok result)
  end = Resolved r ->
  prefix <> "" -> well_formed_outcome r.
Proof.
  destruct (first_reply evs) as [[[e|] v]|]; try discriminate; intros [= <-] Hp.
  - apply failure_well_formed. destruct prefix; [contradiction | discriminate].
  - apply ok_well_formed.
Qed.

Lemma ensure_identity_resolved auth_evs k s s' r :
  (forall s0 s1 r0, k s0 = (s1, Resolved r0) -> well_formed_outcome r0) ->
  ensure_identity cfg auth_evs k s = (s', Resolved r) ->
  well_formed_outcome r.
Proof.
  intros Hk; unfold ensure_identity.
  destruct (negb (truthy (session_uid s))); [|apply Hk].
  unfold with_client.
  destruct (authenticate cfg auth_evs {| uid := session_uid s; calls := [] |})
    as [c1 [authResult| |]] eqn:Ea; try discriminate.
  destruct (authenticate_resolved _ _ _ _ _ Ea) as (Hw & _ & _).
  destruct (success authResult) eqn:Es; cbn [negb]; [apply Hk|].
  intros [= <- <-]. now apply propagated_failure_well_formed.
Qed.

Lemma testConnection_resolved evs s s' r :
  testConnection cfg evs s = (s', Resolved r) -> well_formed_outcome r.
Proof.
  unfold testConnection.
  pose proof (until_settled_value
                (fun _ _ r => well_formed_outcome r) (fun _ _ => True)
                (connection_step cfg) (fun _ => I)) as H.
  specialize (H (fun c0 ev c1 call _ Hn => connection_step_settles cfg ev c1 call Hn)
                evs {| uid := session_uid s; calls := [] |}
                (setTimeout connection_timeout_ms) eq_refl).
  destruct (until_settled (connection_step cfg) evs _) as [c1 call1].
  cbn [snd fst] in H. unfold promise.
  destruct (settled call1) as [r1|]; [|discriminate].
  intros [= <- <-]. exact H.
Qed.

(** X1: every outcome that an operation of the client resolves to has the
    shape of the interface: a success carries a payload and no message; a
    failure carries no payload and a message that is not empty.  This
    holds of the validator, the probe, [authenticate], [searchRead],
    [count], [getFields] and [testConnection], for every transport and
    network behaviour. *)
Theorem outcomes_are_well_formed :
  (forall (diag : Diagnostics) (err : option XmlRpcError) (v : jsval)
          (operation : string) (r : OdooResponse jsval),
      validateXmlRpcResponse cfg diag err v operation = Resolved r ->
      well_formed_outcome r) /\
  (forall net path r,
      testHttpEndpoint cfg net path = Resolved r -> well_formed_outcome r) /\
  (forall evs c c' r,
      authenticate cfg evs c = (c', Resolved r) -> well_formed_outcome r) /\
  (forall w model params c c' r,
      searchRead cfg w model params c = (c', Resolved r) ->
      well_formed_outcome r) /\
  (forall w model domain s s' r,
      count cfg w model domain s = (s', Resolved r) -> well_formed_outcome r) /\
  (forall w model s s' r,
      getFields cfg w model s = (s', Resolved r) -> well_formed_outcome r) /\
  (forall evs s s' r,
      testConnection cfg evs s = (s', Resolved r) -> well_formed_outcome r).
Proof.
  repeat split.
  - intros diag err v operation r. apply validator_outcome_well_formed.
  - intros net path r. apply probe_outcome_well_formed.
  - intros evs c c' r H. now destruct (authenticate_resolved _ _ _ _ _ H).
  - intros w model params c c' r. apply searchRead_resolved.
  - intros w model domain s s' r. unfold count.
    apply ensure_identity_resolved.
    intros s0 s1 r0; unfold count_query; intros [= _ H].
    now apply (first_reply_outcome_well_formed "Count failed: " _ _ H).
  - intros w model s s' r. unfold getFields.
    apply ensure_identity_resolved.
    intros s0 s1 r0; unfold fields_query; intros [= _ H].
    now apply (first_reply_outcome_well_formed "Fields retrieval failed: " _ _ H).
  - intros evs s s' r. apply testConnection_resolved.
Qed.

(** X2: an awaited [authenticate()] and the identity agree.  When it
    resolves to a success, the payload is the identity now stored in [uid],
    and that identity is truthy; when it resolves to a failure, [uid] is
    what it was before the call. *)
Theorem authentication_outcome_matches_identity
        (evs : list TransportEvent) (c c' : Client) (r : OdooResponse jsval) :
  authenticate cfg evs c = (c', Resolved r) ->
  (success r = true -> data r = Some (uid c') /\ truthy (uid c') = true) /\
  (success r = false -> uid c' = uid c).
Proof.
  intros H. destruct (authenticate_resolved _ _ _ _ _ H) as (_ & _ & Hcase).
  split; intros Hs; destruct Hcase as [(Ht & Hd & Hu)|(Hf & Hu)];
    try congruence; now split.
Qed.


(** X7: with an identity held, [count] and [getFields] are decided by the
    transport's first reply alone.  A reply without error is a success
    with the replied value as payload, whatever the value (0 and [false]
    included); a reply with an error is a failure whose message is the
    fixed prefix followed by the error's message, with no diagnosis; and
    without a reply the promise stays pending, since neither operation sets
    a timer.  The platform's URL parser and the diagnosis networks play no
    part. *)
Theorem count_and_getFields_verdict
        (w : World) (model : string) (domain : option (list jsval))
        (s : Session) :
  truthy (session_uid s) = true ->
  (forall result,
      first_reply (query_events w) = Some (None, result) ->
      snd (count cfg w model domain s) = Resolved (ok result) /\
      snd (getFields cfg w model s) = Resolved (ok result)) /\
  (forall e v,
      first_reply (query_events w) = Some (Some e, v) ->
      snd (count cfg w model domain s) =
        Resolved (failure ("Count failed: " ++ show (message e))) /\
      snd (getFields cfg w model s) =
        Resolved (failure ("Fields retrieval failed: " ++ show (message e)))) /\
  (first_reply (query_events w) = None ->
   snd (count cfg w model domain s) = Pending /\
   snd (getFields cfg w model s) = Pending) /\
  (forall (parser' : URLParser) (w' : World),
      first_reply (query_events w') = first_reply (query_events w) ->
      @count parser' cfg w' model domain s = count cfg w model domain s /\
      @getFields parser' cfg w' model s = getFields cfg w model s).
Proof.
  intros Hheld.
  unfold count, getFields, ensure_identity; rewrite Hheld; cbn [negb].
  unfold count_query, fields_query; cbn [snd].
  split; [|split; [|split]].
  - intros result ->; now split.
  - intros e v ->; now split.
  - intros ->; now split.
  - intros parser' w' ->; now split.
Qed.

(** X8: without an identity, [count] and [getFields] authenticate first and
    send their query only after a successful attempt; a failed attempt is
    returned as a failure with the attempt's message, and then the trace
    holds the attempt and no data call. *)
Theorem count_and_getFields_require_identity
        (w : World) (model : string) (domain : option (list jsval))
        (s : Session) (c' : Client) (authResult : OdooResponse jsval) :
  truthy (session_uid s) = false ->
  authenticate cfg (auth_events w) {| uid := session_uid s; calls := [] |}
  = (c', Resolved authResult) ->
  success authResult = false ->
  let denied :=
    ({| session_uid := session_uid s;
        trace := (trace s ++ [Logged (authenticate_call cfg)])%list |},
     Resolved {| success := false; data := @None jsval;
                 error := error authResult |}) in
  count cfg w model domain s = denied /\
  getFields cfg w model s = denied /\
  exists m, error authResult = Some m /\ m <> "".
Proof.
  intros Hfresh Hauth Hfail; cbv zeta.
  destruct (authenticate_resolved _ _ _ _ _ Hauth) as (Hw & Hc & Hcase).
  destruct Hcase as [(Ht & _)|(_ & Hu)]; [congruence|].
  cbn [uid calls app] in Hc, Hu.
  unfold count, getFields, ensure_identity, with_client.
  rewrite Hfresh, Hauth, Hfail; cbn [negb]. rewrite Hc, Hu; cbn [map].
  split; [reflexivity | split; [reflexivity|]].
  destruct Hw as [(Ht & _)|(_ & _ & m & Hm & Hne)]; [congruence|].
  now exists m.
Qed.

End OperationOutcomes.

(** ** The classifier's use of the network *)

Lemma first_match_sound {A : Type} (m : string -> option A) (s : string) (a : A) :
  JS.first_match m s = Some a ->
  exists pre suf, s = pre ++ suf /\ m suf = Some a.
Proof.
  induction s as [|c s IH]; cbn [JS.first_match].
  - destruct (m "") eqn:E; [|discriminate].
    intros [= <-]. now exists "", "".
  - destruct (m (String c s)) eqn:E.
    + intros [= <-]. now exists "", (String c s).
    + intros H. destruct (IH H) as (pre & suf & -> & Hm).
      now exists (String c pre), suf.
Qed.

(** Without a quoted, non-empty tag behind the signature text the search
    finds nothing. *)
Lemma match_unknown_tag_none (msg : string) :
  (forall pre X, ~ signature_at msg pre X) -> match_unknown_tag msg = None.
Proof.
  intros Hno. destruct (match_unknown_tag msg) as [Y|] eqn:E; [|reflexivity].
  exfalso. apply first_match_sound in E as (pre & suf & -> & Hat).
  apply unknown_tag_at_sound in Hat as (post & -> & Hne & Hq).
  apply (Hno pre Y). exists post; repeat split; assumption.
Qed.

Lemma includes_nonempty (hay needle : string) :
  JS.includes hay needle = true -> needle <> "" -> truthy_string hay = true.
Proof.
  destruct hay; [|reflexivity].
  destruct needle; [contradiction | discriminate].
Qed.

Lemma undefined_sentence_prefix (tail : string) :
  JS.startsWith (tag_sentence None ++ tail)
    "Server returned non-XML-RPC response (found <undefined> tag). " = true.
Proof.
  change (tag_sentence None)
    with ("Server returned non-XML-RPC response (found <undefined> tag). ").
  apply startsWith_append.
Qed.

Section ClassifierFrame.
Context {parser : URLParser}.
Variable cfg : OdooConfig.
Variable u : URL.
Hypothesis address_parses : new_URL (url cfg) = Some u.

(** X9: the classifier touches the network on the unknown-tag path only,
    and there only through the body fetch and the probe of
    [/xmlrpc/2/common]: two diagnosis networks that answer those two
    requests alike give the same outcome, whatever operation failed; on
    that path the outcome does not depend on the operation name; and for a
    success or any other error the outcome is the same for every network,
    every configured address and every URL parser. *)
Theorem classifier_network_frame
        (diag diag' : Diagnostics) (err : option XmlRpcError)
        (result : jsval) (operation : string) :
  (body_net diag (fetch_request u "/xmlrpc/2/common") =
   body_net diag' (fetch_request u "/xmlrpc/2/common") ->
   probe_net diag (probe_request u "/xmlrpc/2/common") =
   probe_net diag' (probe_request u "/xmlrpc/2/common") ->
   validateXmlRpcResponse cfg diag err result operation =
   validateXmlRpcResponse cfg diag' err result operation) /\
  (forall e m operation',
      err = Some e -> message e = Some m ->
      JS.includes m "Unknown XML-RPC tag" = true ->
      validateXmlRpcResponse cfg diag err result operation =
      validateXmlRpcResponse cfg diag err result operation') /\
  ((err = None \/
    exists e, err = Some e /\
              forall m, message e = Some m ->
                        JS.includes m "Unknown XML-RPC tag" = false) ->
   forall (parser' : URLParser) (cfg' : OdooConfig),
     @validateXmlRpcResponse parser' cfg' jsval diag' err result operation =
     validateXmlRpcResponse cfg diag err result operation).
Proof.
  split; [|split].
  - intros Hb Hp. unfold validateXmlRpcResponse.
    destruct err as [e|]; [|reflexivity].
    destruct (match message e with
              | Some m => truthy_string m && JS.includes m "Unknown XML-RPC tag"
              | None => false
              end); [|reflexivity].
    unfold inspectResponseBody, testHttpEndpoint.
    rewrite address_parses, Hb, Hp. reflexivity.
  - intros e m operation' -> Hm Hinc. unfold validateXmlRpcResponse.
    rewrite Hm, Hinc.
    rewrite (includes_nonempty _ _ Hinc) by discriminate.
    reflexivity.
  - intros [->|(e & -> & Hno)] parser' cfg'; [reflexivity|].
    unfold validateXmlRpcResponse.
    destruct (message e) as [m|]; [|reflexivity].
    rewrite (Hno m eq_refl), andb_false_r. reflexivity.
Qed.

(** X10: when the error message holds the text [Unknown XML-RPC tag] but no
    quoted, non-empty tag follows it anywhere, the classifier still takes
    the diagnosis path: whatever it returns is a failure whose message
    names the tag as [undefined]; it returns whenever the body fetch is
    answered by a response that ends, a network error or a timeout, and it
    stays pending when the response is cut before its end. *)
Theorem missing_tag_is_reported_as_undefined
        (diag : Diagnostics) (e : XmlRpcError) (msg : string)
        (result : jsval) (operation : string) :
  message e = Some msg ->
  JS.includes msg "Unknown XML-RPC tag" = true ->
  (forall pre X, ~ signature_at msg pre X) ->
  let outcome := validateXmlRpcResponse cfg diag (Some e) result operation in
  (forall r, outcome = Resolved r ->
     exists detailedError,
       r = failure detailedError /\
       JS.startsWith detailedError
         "Server returned non-XML-RPC response (found <undefined> tag). " = true) /\
  ((forall sc sm hdrs,
       body_net diag (fetch_request u "/xmlrpc/2/common") <> NetUnended sc sm hdrs) ->
   exists r, outcome = Resolved r) /\
  (forall sc sm hdrs,
      body_net diag (fetch_request u "/xmlrpc/2/common") = NetUnended sc sm hdrs ->
      outcome = Pending).
Proof.
  intros Hmsg Hinc Hno. cbv zeta. unfold validateXmlRpcResponse.
  rewrite Hmsg, Hinc, (match_unknown_tag_none _ Hno).
  rewrite (includes_nonempty _ _ Hinc) by discriminate. cbn [andb].
  split; [|split].
  - intros r.
    destruct (inspectResponseBody cfg (body_net diag) "/xmlrpc/2/common")
      as [body| |]; cbn [await]; try discriminate.
    destruct (testHttpEndpoint cfg (probe_net diag) "/xmlrpc/2/common")
      as [probe| |]; cbn [await]; try discriminate.
    intros [= <-].
    destruct (negb (success probe)); eexists;
      (split; [reflexivity | apply undefined_sentence_prefix]).
  - intros Hends.
    destruct (inspectResponseBody_settles cfg u address_parses (body_net diag)
                "/xmlrpc/2/common" Hends) as (body & ->).
    destruct (testHttpEndpoint_settles cfg u address_parses (probe_net diag)
                "/xmlrpc/2/common") as (probe & ->).
    cbn [await]. eexists; reflexivity.
  - intros sc sm hdrs Hcut. unfold inspectResponseBody.
    rewrite address_parses, Hcut. reflexivity.
Qed.

Lemma until_settled_idle
      (step : TransportEvent -> Client * Call -> Client * Call)
      (evs : list TransportEvent) (st : Client * Call) :
  (forall ev, In ev evs -> step ev st = st) ->
  until_settled step evs st = st.
Proof.
  induction evs as [|ev evs IH]; intros H; simpl.
  - now destruct (settled (snd st)).
  - destruct (settled (snd st)); [reflexivity|].
    rewrite (H ev (or_introl eq_refl)). apply IH.
    intros ev' Hin. apply H. now right.
Qed.

(** On the diagnosis path, a body fetch that is cut leaves the validator
    pending. *)
Lemma hung_diagnosis (diag : Diagnostics) (e : XmlRpcError) (msg : string)
      (result : jsval) (operation : string)
      (sc : Z) (sm : string) (hdrs : Headers) :
  message e = Some msg ->
  JS.includes msg "Unknown XML-RPC tag" = true ->
  body_net diag (fetch_request u "/xmlrpc/2/common") = NetUnended sc sm hdrs ->
  validateXmlRpcResponse cfg diag (Some e) result operation = Pending.
Proof.
  intros Hmsg Hinc Hcut. unfold validateXmlRpcResponse.
  rewrite Hmsg, Hinc.
  rewrite (includes_nonempty _ _ Hinc) by discriminate. cbn [andb].
  unfold inspectResponseBody. rewrite address_parses, Hcut. reflexivity.
Qed.

(** X21: a diagnosis that hangs defeats the timeout.  When the transport
    calls back with an error that carries the unknown-tag text before the
    timer has fired, and the server cuts the body of the diagnosis fetch,
    then [authenticate], the query of [searchRead] and [testConnection]
    never settle: their callback has cleared the timer before it awaits
    the validator, so the time-out outcome is not delivered either, and the
    identity is left as it was. *)
Theorem hung_diagnosis_defeats_the_timeout
        (diag : Diagnostics) (e : XmlRpcError) (msg : string) (value : jsval)
        (sc : Z) (sm : string) (hdrs : Headers) (evs : list TransportEvent) :
  message e = Some msg ->
  JS.includes msg "Unknown XML-RPC tag" = true ->
  body_net diag (fetch_request u "/xmlrpc/2/common") = NetUnended sc sm hdrs ->
  (forall ev, In ev evs -> ev = TimerFired) ->
  let reply := Callback (Some e) value diag in
  (forall c,
      authenticate cfg (reply :: evs) c =
      ({| uid := uid c; calls := (calls c ++ [authenticate_call cfg])%list |},
       Pending)) /\
  (forall w model params c,
      query_events w = reply :: evs ->
      search_query cfg w model params c =
      ({| uid := uid c;
          calls := (calls c ++ [search_call cfg c model params])%list |},
       Pending)) /\
  (forall s,
      testConnection cfg (reply :: evs) s =
      ({| session_uid := session_uid s;
          trace := (trace s ++ [CommonVersion])%list |}, Pending)).
Proof.
  intros Hmsg Hinc Hcut Hevs. cbv zeta.
  split; [|split].
  - intros c. unfold authenticate, authenticate_start.
    cbn [until_settled snd settled setTimeout authenticate_step].
    rewrite (hung_diagnosis diag e msg value "Authentication" sc sm hdrs
               Hmsg Hinc Hcut).
    rewrite until_settled_idle; [reflexivity|].
    intros ev Hin. rewrite (Hevs ev Hin). reflexivity.
  - intros w model params c Hw. unfold search_query. rewrite Hw.
    cbn [until_settled snd settled setTimeout search_step].
    rewrite (hung_diagnosis diag e msg value "SearchRead" sc sm hdrs
               Hmsg Hinc Hcut).
    rewrite until_settled_idle; [reflexivity|].
    intros ev Hin. rewrite (Hevs ev Hin). reflexivity.
  - intros s. unfold testConnection.
    cbn [until_settled snd settled setTimeout connection_step].
    rewrite (hung_diagnosis diag e msg value "Connection test" sc sm hdrs
               Hmsg Hinc Hcut).
    rewrite until_settled_idle; [reflexivity|].
    intros ev Hin. rewrite (Hevs ev Hin). reflexivity.
Qed.

End ClassifierFrame.

(** ** The resolver's list *)

Lemma append_inj_l (a x y : string) : a ++ x = a ++ y -> x = y.
Proof.
  induction a as [|c a IH]; cbn [append]; [trivial|].
  intros [= H]; now apply IH.
Qed.

Lemma fold_set_add_length (xs seen : list string) :
  length (fold_left set_add xs seen) <= length seen + length xs.
Proof.
  revert seen; induction xs as [|x xs IH]; intros seen; cbn [fold_left length].
  - lia.
  - specialize (IH (set_add seen x)).
    assert (length (set_add seen x) <= S (length seen)).
    { unfold set_add. destruct (in_dec string_dec x seen); [lia|].
      rewrite length_app; cbn; lia. }
    lia.
Qed.

Lemma spread_set_length (xs : list string) :
  length (spread_set xs) <= length xs.
Proof. unfold spread_set. pose proof (fold_set_add_length xs []). cbn in *; lia. Qed.

Lemma fold_set_add_cons (x : string) (l acc : list string) :
  fold_left set_add l (x :: acc) =
  x :: fold_left set_add (filter (fun y => negb (String.eqb y x)) l) acc.
Proof.
  revert acc; induction l as [|y l IH]; intros acc; cbn [fold_left filter];
    [reflexivity|].
  destruct (String.eqb y x) eqn:E; cbn [negb].
  - apply String.eqb_eq in E; subst y.
    replace (set_add (x :: acc) x) with (x :: acc); [apply IH|].
    unfold set_add. destruct (in_dec string_dec x (x :: acc)) as [|Hn];
      [reflexivity | exfalso; apply Hn; now left].
  - apply String.eqb_neq in E. cbn [fold_left].
    replace (set_add (x :: acc) y) with (x :: set_add acc y); [apply IH|].
    unfold set_add.
    destruct (in_dec string_dec y (x :: acc)) as [Hin|Hn];
      destruct (in_dec string_dec y acc) as [Hin'|Hn']; try reflexivity.
    + destruct Hin as [->|Hin]; [now contradiction E | contradiction].
    + exfalso; apply Hn; now right.
Qed.

(** The spread of the [Set] keeps exactly the pushed suggestions, each
    once, in the order of their first push: an element is in the result
    iff it was pushed, and the result for [x] followed by [l] is [x]
    followed by the result for [l] without its copies of [x]. *)
Theorem dedup_keeps_first_occurrences (x : string) (l : list string) :
  (forall y, In y (spread_set l) <-> In y l) /\
  NoDup (spread_set l) /\
  length (spread_set l) <= length l /\
  spread_set (x :: l) =
  x :: spread_set (filter (fun y => negb (String.eqb y x)) l).
Proof.
  split; [intros y; apply spread_set_In|].
  split; [apply spread_set_NoDup|].
  split; [apply spread_set_length|].
  unfold spread_set. cbn [fold_left].
  replace (set_add [] x) with [x] by reflexivity.
  apply fold_set_add_cons.
Qed.

Section ResolverShape.
Context {parser : URLParser}.

(** X11: for an address that parses, with [base] its scheme, host and port
    (if any), the resolver answers [isValid = true] with between four and
    seven suggestions; each ends with [/xmlrpc/2/common]; and the list
    always holds [base/xmlrpc/2/common], [base:8069/xmlrpc/2/common]
    (a second port suffix when [base] already has one),
    [base/odoo/xmlrpc/2/common] and [base/web/xmlrpc/2/common]. *)
Theorem parseable_address_suggestions (configUrl : string) (u : URL) :
  new_URL configUrl = Some u ->
  let r := validateAndSuggestUrls configUrl in
  let base := protocol u ++ "//" ++ hostname u ++
              (if truthy_string (port u) then ":" ++ port u else "") in
  isValid r = true /\
  4 <= length (suggestions r) <= 7 /\
  (forall x, In x (suggestions r) -> exists b, x = b ++ "/xmlrpc/2/common") /\
  In (base ++ "/xmlrpc/2/common") (suggestions r) /\
  In (base ++ ":8069/xmlrpc/2/common") (suggestions r) /\
  In (base ++ "/odoo/xmlrpc/2/common") (suggestions r) /\
  In (base ++ "/web/xmlrpc/2/common") (suggestions r).
Proof.
  intros Hparse; cbv zeta. unfold validateAndSuggestUrls; rewrite Hparse.
  cbn [isValid suggestions].
  set (base := protocol u ++ "//" ++ hostname u ++
               (if truthy_string (port u) then ":" ++ port u else "")).
  set (s1 := if String.eqb (pathname u) "/" || String.eqb (pathname u) ""
             then [JS.strip_trailing_slash configUrl ++ "/xmlrpc/2/common"]
             else []).
  set (s2 := if negb (truthy_string (port u))
             then [protocol u ++ "//" ++ hostname u ++ ":8069/xmlrpc/2/common";
                   protocol u ++ "//" ++ hostname u ++ ":443/xmlrpc/2/common"]
             else []).
  set (s3 := [base ++ "/xmlrpc/2/common"; base ++ ":8069/xmlrpc/2/common";
              base ++ "/odoo/xmlrpc/2/common"; base ++ "/web/xmlrpc/2/common"]).
  assert (Hin3 : forall x, In x s3 -> In x (spread_set (s1 ++ s2 ++ s3)%list)).
  { intros x Hx. apply spread_set_In. apply in_or_app; right.
    apply in_or_app; now right. }
  split; [reflexivity|]. split; [split|].
  - assert (Hnd : NoDup s3).
    { unfold s3.
      repeat constructor; cbn [In];
        intros H; repeat destruct H as [H|H]; try contradiction;
        apply append_inj_l in H; discriminate H. }
    pose proof (NoDup_incl_length Hnd Hin3) as Hl. exact Hl.
  - pose proof (spread_set_length (s1 ++ s2 ++ s3)%list) as Hl.
    rewrite !length_app in Hl.
    assert (length s1 <= 1) by (unfold s1; destruct (_ || _); cbn; lia).
    assert (length s2 <= 2) by (unfold s2; destruct (negb _); cbn; lia).
    cbn [length s3] in Hl. lia.
  - split.
    + intros x Hx. apply (proj1 (spread_set_In _ _)) in Hx.
      apply in_app_or in Hx as [Hx|Hx]; [|apply in_app_or in Hx as [Hx|Hx]].
      * unfold s1 in Hx. destruct (_ || _); [|destruct Hx].
        destruct Hx as [<-|[]]. eexists; reflexivity.
      * unfold s2 in Hx. destruct (negb _); [|destruct Hx].
        destruct Hx as [<-|[<-|[]]].
        -- exists (protocol u ++ "//" ++ hostname u ++ ":8069").
           now rewrite !append_assoc.
        -- exists (protocol u ++ "//" ++ hostname u ++ ":443").
           now rewrite !append_assoc.
      * unfold s3 in Hx. destruct Hx as [<-|[<-|[<-|[<-|[]]]]].
        -- now exists base.
        -- exists (base ++ ":8069"). now rewrite append_assoc.
        -- exists (base ++ "/odoo"). now rewrite append_assoc.
        -- exists (base ++ "/web"). now rewrite append_assoc.
    + repeat split; apply Hin3; unfold s3; cbn [In]; tauto.
Qed.

End ResolverShape.

(** ** Ports written in decimal *)

Lemma read_digits_decimal (d : Decimal.uint) (a : Z) :
  JS.read_digits 10 JS.digit_value (Some a) (NilEmpty.string_of_uint d) =
  Some (decimal_value d a).
Proof.
  revert a; induction d; intros a; cbn [NilEmpty.string_of_uint decimal_value];
    [reflexivity | ..]; cbn [JS.read_digits];
    match goal with
    | |- context [JS.digit_value ?c] =>
        change (JS.digit_value c) with (Some (Z.of_nat (nat_of_ascii c - 48)))
    end; cbn [nat_of_ascii]; apply IHd.
Qed.

Lemma read_digits_decimal_start (d : Decimal.uint) :
  d <> Decimal.Nil ->
  JS.read_digits 10 JS.digit_value None (NilEmpty.string_of_uint d) =
  Some (decimal_value d 0).
Proof.
  destruct d; [contradiction | ..]; intros _;
    cbn [NilEmpty.string_of_uint decimal_value JS.read_digits];
    match goal with
    | |- context [JS.digit_value ?c] =>
        change (JS.digit_value c) with (Some (Z.of_nat (nat_of_ascii c - 48)))
    end; apply read_digits_decimal.
Qed.

Lemma of_uint_acc_decimal (d : Decimal.uint) (p : positive) :
  Z.pos (Pos.of_uint_acc d p) = decimal_value d (Z.pos p).
Proof.
  revert p; induction d; intros p; cbn [Pos.of_uint_acc decimal_value];
    [reflexivity | ..]; rewrite IHd; f_equal; lia.
Qed.

Lemma of_uint_decimal (d : Decimal.uint) :
  Z.of_N (Pos.of_uint d) = decimal_value d 0.
Proof.
  induction d; cbn [Pos.of_uint decimal_value]; [reflexivity | exact IHd | ..];
    cbn [Z.of_N]; rewrite of_uint_acc_decimal; reflexivity.
Qed.

(** A run of decimal digits is read as the digits, with no sign, no white
    space and no hexadecimal prefix in the way. *)
Lemma parseInt_digits (d : Decimal.uint) :
  d <> Decimal.Nil ->
  JS.parseInt (NilEmpty.string_of_uint d) =
  JS.read_digits 10 JS.digit_value None (NilEmpty.string_of_uint d).
Proof.
  intros Hd. unfold JS.parseInt.
  destruct d as [|d|d|d|d|d|d|d|d|d|d]; [contradiction | ..];
    cbn [NilEmpty.string_of_uint];
    try (generalize (NilEmpty.string_of_uint d); intros t; simpl;
         match goal with
         | |- context [JS.read_digits ?r ?f ?a t] =>
             destruct (JS.read_digits r f a t); reflexivity
         end).
  destruct d; cbn [NilEmpty.string_of_uint]; [reflexivity | ..];
    generalize (NilEmpty.string_of_uint d); intros t; simpl;
    match goal with
    | |- context [JS.read_digits ?r ?f ?a t] =>
        destruct (JS.read_digits r f a t); reflexivity
    end.
Qed.

(** Writing a positive number in decimal and reading it back with
    [parseInt] gives the number. *)
Lemma parseInt_string_of_Z (n : Z) :
  (0 < n)%Z -> JS.parseInt (JS.string_of_Z n) = Some n.
Proof.
  intros Hn. destruct n as [|p|p]; try lia.
  unfold JS.string_of_Z; cbn [Z.to_int NilZero.string_of_int].
  pose proof (DecimalPos.Unsigned.to_uint_nonnil p) as Hnil.
  unfold NilZero.string_of_uint.
  replace (match Pos.to_uint p with
           | Decimal.Nil => "0"
           | _ => NilEmpty.string_of_uint (Pos.to_uint p)
           end) with (NilEmpty.string_of_uint (Pos.to_uint p))
    by (destruct (Pos.to_uint p); [contradiction | reflexivity ..]).
  rewrite (parseInt_digits _ Hnil), (read_digits_decimal_start _ Hnil).
  rewrite <- of_uint_decimal, DecimalPos.Unsigned.of_to. reflexivity.
Qed.

(** X13: a port that the parsed address gives as the decimal text of a
    positive number is the port both diagnostic requests go to; an absent
    port and the port [0] fall back to 443 under [https:] and to 8069
    under any other scheme. *)
Theorem decimal_port_is_used (u : URL) (path : string) :
  (forall n, (0 < n)%Z -> port u = JS.string_of_Z n ->
             req_port (probe_request u path) = n /\
             req_port (fetch_request u path) = n) /\
  (port u = "" \/ port u = "0" ->
   req_port (probe_request u path) = (if isSecure u then 443 else 8069)%Z /\
   req_port (fetch_request u path) = (if isSecure u then 443 else 8069)%Z).
Proof.
  unfold probe_request, fetch_request, request_options; cbn [req_port].
  unfold request_port. split.
  - intros n Hn ->. rewrite (parseInt_string_of_Z n Hn).
    replace (Z.eqb n 0) with false by (symmetry; apply Z.eqb_neq; lia).
    now split.
  - intros [-> | ->]; now split.
Qed.

(** ** Configuration loader *)

Section Loader.
Context {parser : URLParser}.

Lemma url_issue_nil key message v :
  url_issue key message v = [] <-> valid_url_var v.
Proof.
  unfold url_issue, valid_url_var. destruct v as [s|].
  - destruct (new_URL s) as [u|] eqn:E; split.
    + intros _ s' [= <-]. now exists u.
    + reflexivity.
    + discriminate.
    + intros H. destruct (H s eq_refl) as (u & Hu). congruence.
  - split; [discriminate | reflexivity].
Qed.

Lemma min_issue_nil key message v :
  min_issue key message v = [] <-> valid_text_var v.
Proof.
  unfold min_issue, valid_text_var. destruct v as [s|].
  - destruct s; cbn [JS.is_empty]; split.
    + discriminate.
    + intros H. now contradiction (H "" eq_refl).
    + intros _ s' [= <-]. discriminate.
    + reflexivity.
  - split; [discriminate | reflexivity].
Qed.

Lemma app_nil_iff {A : Type} (l l' : list A) :
  (l ++ l')%list = [] <-> l = [] /\ l' = [].
Proof.
  split; [apply app_eq_nil | intros [-> ->]; reflexivity].
Qed.

Lemma schema_accepts env : ConfigSchema_issues env = [] <-> all_valid env.
Proof.
  unfold ConfigSchema_issues, all_valid.
  rewrite !app_nil_iff, !url_issue_nil, !min_issue_nil.
  tauto.
Qed.

(** [a || b] is the first of the two that is set to a non-empty text. *)
Lemma first_truthy_spec a b :
  (set_nonempty a /\ first_truthy a b = a) \/
  (~ set_nonempty a /\ first_truthy a b = b).
Proof.
  unfold first_truthy, set_nonempty. destruct a as [s|].
  - destruct s; cbn.
    + right; split; [|reflexivity].
      intros (s & [= <-] & H); now contradiction H.
    + left; split; [|reflexivity]. eexists; split; [reflexivity | discriminate].
  - right; split; [|reflexivity]. intros (s & H & _); discriminate.
Qed.

Lemma unset_spec v : unset v = false <-> set_nonempty v.
Proof.
  unfold unset, set_nonempty. destruct v as [s|].
  - destruct s; cbn; split.
    + discriminate.
    + intros (s & [= <-] & H); now contradiction H.
    + intros _. eexists; split; [reflexivity | discriminate].
    + reflexivity.
  - split; [discriminate | intros (s & H & _); discriminate].
Qed.

Lemma unset_first_truthy a b :
  unset (first_truthy a b) = false <-> (set_nonempty a \/ set_nonempty b).
Proof.
  rewrite unset_spec.
  destruct (first_truthy_spec a b) as [[Ha ->]|[Ha ->]]; tauto.
Qed.

Lemma cleanUrl_nonempty u : cleanUrl u <> "".
Proof.
  unfold cleanUrl. destruct (protocol u); cbn [append]; discriminate.
Qed.

End Loader.

Section LoaderProperties.
Context {parser : URLParser}.

Lemma all_present_spec env :
  unset (first_truthy (ODOO_HOST env) (ODOO_URL env)) ||
  unset (first_truthy (ODOO_DB env) (ODOO_DATABASE env)) ||
  unset (first_truthy (ODOO_USER env) (ODOO_USERNAME env)) ||
  unset (first_truthy (ODOO_PASS env) (ODOO_API_KEY env)) = false <->
  all_present env.
Proof.
  unfold all_present. rewrite !orb_false_iff, !unset_first_truthy. tauto.
Qed.

(** The address [validateConfig] settles on passed the schema's URL check,
    whichever variable it comes from. *)
Lemma chosen_address_parses env a :
  all_valid env ->
  first_truthy (ODOO_HOST env) (ODOO_URL env) = Some a ->
  exists u, new_URL a = Some u.
Proof.
  intros (Hurl & _ & _ & _ & Hhost & _) Hf.
  destruct (first_truthy_spec (ODOO_HOST env) (ODOO_URL env)) as [[_ E]|[_ E]];
    rewrite E in Hf; [now apply Hhost | now apply Hurl].
Qed.

Lemma validateConfig_loaded env cfg :
  validateConfig env = Loaded cfg ->
  all_valid env /\ all_present env /\
  exists a d us p u,
    first_truthy (ODOO_HOST env) (ODOO_URL env) = Some a /\
    first_truthy (ODOO_DB env) (ODOO_DATABASE env) = Some d /\
    first_truthy (ODOO_USER env) (ODOO_USERNAME env) = Some us /\
    first_truthy (ODOO_PASS env) (ODOO_API_KEY env) = Some p /\
    a <> "" /\ d <> "" /\ us <> "" /\ p <> "" /\
    new_URL a = Some u /\
    cfg = {| url := cleanUrl u; database := d; username := us; password := p |}.
Proof.
  unfold validateConfig.
  destruct (ConfigSchema_issues env) eqn:Ei; [|discriminate].
  apply schema_accepts in Ei.
  destruct (unset _ || unset _ || unset _ || unset _) eqn:Eu; [discriminate|].
  pose proof Eu as Hp. apply all_present_spec in Hp.
  rewrite !orb_false_iff in Eu. destruct Eu as (((Ea & Ed) & Eus) & Ep).
  apply unset_spec in Ea as (a & Ha & Hna), Ed as (d & Hd & Hnd),
      Eus as (us & Hus & Hnus), Ep as (p & Hpp & Hnp).
  rewrite Ha, Hd, Hus, Hpp; cbn [show].
  destruct (chosen_address_parses env a Ei Ha) as (u & Hu). rewrite Hu.
  intros [= <-]. split; [exact Ei|]. split; [exact Hp|].
  exists a, d, us, p, u. repeat split; assumption.
Qed.

Lemma validateConfig_accepts env :
  all_valid env -> all_present env -> exists cfg, validateConfig env = Loaded cfg.
Proof.
  intros Hv Hp. unfold validateConfig.
  rewrite (proj2 (schema_accepts env) Hv).
  pose proof (proj2 (all_present_spec env) Hp) as Eu. rewrite Eu.
  rewrite !orb_false_iff in Eu. destruct Eu as (((Ea & _) & _) & _).
  apply unset_spec in Ea as (a & Ha & _). rewrite Ha; cbn [show].
  destruct (chosen_address_parses env a Hv Ha) as (u & Hu). rewrite Hu.
  eexists; reflexivity.
Qed.

(** X14: a configuration that [validateConfig] returns is complete and
    clean: its four members are non-empty, and its address is rebuilt from
    the scheme, host and port of the parsed variable, so that any path,
    query or fragment of the variable is gone.  The branch that would
    return the address as written is never taken. *)
Theorem loaded_configuration_is_complete_and_clean (env : Env) (cfg : OdooConfig) :
  validateConfig env = Loaded cfg ->
  url cfg <> "" /\ database cfg <> "" /\ username cfg <> "" /\
  password cfg <> "" /\
  exists a u,
    first_truthy (ODOO_HOST env) (ODOO_URL env) = Some a /\
    new_URL a = Some u /\
    url cfg = protocol u ++ "//" ++ hostname u ++
              (if truthy_string (port u) then ":" ++ port u else "").
Proof.
  intros H. apply validateConfig_loaded in H
    as (_ & _ & a & d & us & p & u & Ha & _ & _ & _ & _ & Hd & Hus & Hp & Hu & ->).
  cbn [url database username password].
  split; [apply cleanUrl_nonempty|]. repeat (split; [assumption|]).
  now exists a, u.
Qed.

Lemma first_truthy_left a b x :
  first_truthy a b = Some x -> forall y, a = Some y -> y <> "" -> x = y.
Proof.
  unfold first_truthy. intros H y ->. destruct y; [contradiction|].
  cbn in H. congruence.
Qed.

Lemma first_truthy_right a b x :
  first_truthy a b = Some x -> a = None -> b = Some x.
Proof. unfold first_truthy. now intros H ->. Qed.

(** X15: the new variable names win, setting by setting.  In a configuration
    that loads, each member comes from [ODOO_HOST], [ODOO_DB], [ODOO_USER]
    or [ODOO_PASS] when that variable is set, and from the old name
    ([ODOO_URL], [ODOO_DATABASE], [ODOO_USERNAME], [ODOO_API_KEY]) only
    when the new one is unset; the two namings may be mixed. *)
Theorem new_names_take_precedence (env : Env) (cfg : OdooConfig) :
  validateConfig env = Loaded cfg ->
  (forall h, ODOO_HOST env = Some h -> h <> "" ->
             exists u, new_URL h = Some u /\ url cfg = cleanUrl u) /\
  (ODOO_HOST env = None ->
   exists a u, ODOO_URL env = Some a /\ new_URL a = Some u /\
               url cfg = cleanUrl u) /\
  (forall d, ODOO_DB env = Some d -> database cfg = d) /\
  (ODOO_DB env = None -> ODOO_DATABASE env = Some (database cfg)) /\
  (forall x, ODOO_USER env = Some x -> username cfg = x) /\
  (ODOO_USER env = None -> ODOO_USERNAME env = Some (username cfg)) /\
  (forall x, ODOO_PASS env = Some x -> password cfg = x) /\
  (ODOO_PASS env = None -> ODOO_API_KEY env = Some (password cfg)).
Proof.
  intros H. apply validateConfig_loaded in H
    as (Hv & _ & a & d & us & p & u & Ha & Hd & Hus & Hp & _ & _ & _ & _ & Hu & ->).
  destruct Hv as (_ & _ & _ & _ & _ & Hvd & Hvu & Hvp).
  cbn [url database username password].
  split; [|split; [|split; [|split; [|split; [|split; [|split]]]]]].
  - intros h Hh Hne. exists u.
    rewrite <- (first_truthy_left _ _ _ Ha h Hh Hne). now split.
  - intros Hn. exists a, u.
    split; [exact (first_truthy_right _ _ _ Ha Hn) | now split].
  - intros x Hx. exact (first_truthy_left _ _ _ Hd x Hx (Hvd x Hx)).
  - intros Hn. exact (first_truthy_right _ _ _ Hd Hn).
  - intros x Hx. exact (first_truthy_left _ _ _ Hus x Hx (Hvu x Hx)).
  - intros Hn. exact (first_truthy_right _ _ _ Hus Hn).
  - intros x Hx. exact (first_truthy_left _ _ _ Hp x Hx (Hvp x Hx)).
  - intros Hn. exact (first_truthy_right _ _ _ Hp Hn).
Qed.

(** X16: [validateConfig] fails closed.  It returns a configuration exactly
    when every variable that is set passes its check, the shadowed old
    names included, and each of the four settings has a non-empty
    variable.  When a set variable fails its check it throws a message
    that starts with [Configuration validation failed:]; when all checks
    pass but a setting is missing it throws the missing-configuration
    message. *)
Theorem configuration_load_outcomes (env : Env) :
  ((exists cfg, validateConfig env = Loaded cfg) <->
   all_valid env /\ all_present env) /\
  (~ all_valid env ->
   exists m, validateConfig env = Thrown m /\
             JS.startsWith m "Configuration validation failed:" = true) /\
  (all_valid env -> ~ all_present env ->
   validateConfig env = Thrown msg_missing_configuration).
Proof.
  split; [|split].
  - split.
    + intros (cfg & H). apply validateConfig_loaded in H as (Hv & Hp & _).
      now split.
    + intros [Hv Hp]. now apply validateConfig_accepts.
  - intros Hnv. unfold validateConfig.
    destruct (ConfigSchema_issues env) as [|i rest] eqn:Ei.
    + exfalso. apply Hnv. now apply schema_accepts.
    + eexists; split; [reflexivity | apply startsWith_append].
  - intros Hv Hnp. unfold validateConfig.
    rewrite (proj2 (schema_accepts env) Hv).
    destruct (unset _ || unset _ || unset _ || unset _) eqn:Eu; [reflexivity|].
    exfalso. apply Hnp. now apply all_present_spec.
Qed.

End LoaderProperties.

(** ** Tool front end *)

Lemma eat_spec (c : ascii) (n : nat) (s s' : string) :
  eat c n s = Some s' <-> s = repeat_char c n ++ s'.
Proof.
  revert s; induction n as [|n IH]; intros s; cbn [eat repeat_char append].
  - split; [intros [= ->]; reflexivity | intros ->; reflexivity].
  - destruct s as [|c' s]; [split; discriminate|].
    destruct (Ascii.eqb c c') eqn:E.
    + apply Ascii.eqb_eq in E; subst c'. rewrite IH.
      split; [intros ->; reflexivity | intros [= H]; exact H].
    + split; [discriminate|]. intros [= H _]. subst c'.
      now rewrite Ascii.eqb_refl in E.
Qed.

Lemma match_atoms_spec (atoms : list Atom) (s : string) :
  match_atoms atoms s = true <-> s = expand atoms.
Proof.
  revert s; induction atoms as [|[c n] rest IH]; intros s;
    cbn [match_atoms expand].
  - apply is_empty_spec.
  - destruct (eat c n s) as [s'|] eqn:E.
    + apply eat_spec in E; subst s. rewrite IH.
      split; [intros ->; reflexivity | apply append_inj_l].
    + split; [discriminate|]. intros ->.
      assert (H : eat c n (repeat_char c n ++ expand rest) = Some (expand rest))
        by now apply eat_spec.
      congruence.
Qed.

(** X17: the date check of [GetSalesStatsArgsSchema] accepts one text only.
    As the expression is written, its backslashes doubled, a [date_from] or
    [date_to] passes exactly when it is a backslash followed by [dddd], a
    dash, a backslash followed by [dd], a dash, and a backslash followed by
    [dd]; no text made of digits and dashes passes, so no date written
    [YYYY-MM-DD] does. *)
Theorem date_schema_accepts_only_its_own_text (s : string) :
  (GetSalesStatsArgsSchema_date (Some s) = true <-> s = "\dddd-\dd-\dd") /\
  (all_chars date_char s = true -> GetSalesStatsArgsSchema_date (Some s) = false) /\
  GetSalesStatsArgsSchema_date None = true.
Proof.
  cbn [GetSalesStatsArgsSchema_date].
  split; [apply (match_atoms_spec date_pattern s)|]. split; [|reflexivity].
  intros Hd. destruct (match_atoms date_pattern s) eqn:E; [|reflexivity].
  apply (match_atoms_spec date_pattern s) in E. subst s. discriminate Hd.
Qed.

Lemma split_comma_nonempty (s : string) : split_comma s <> [].
Proof.
  destruct s as [|c s]; cbn [split_comma]; [discriminate|].
  destruct (Ascii.eqb c ","); [discriminate|].
  destruct (split_comma s); discriminate.
Qed.

Lemma join_cons_head (sep : string) (c : ascii) (h : string) (t : list string) :
  join sep (String c h :: t) = String c (join sep (h :: t)).
Proof. destruct t; reflexivity. Qed.

Lemma join_split_comma (s : string) : join "," (split_comma s) = s.
Proof.
  induction s as [|c s IH]; cbn [split_comma]; [reflexivity|].
  pose proof (split_comma_nonempty s) as Hn.
  destruct (Ascii.eqb c ",") eqn:E.
  - apply Ascii.eqb_eq in E; subst c.
    destruct (split_comma s) as [|h t]; [contradiction|].
    change (join "," ("" :: h :: t)) with ("" ++ "," ++ join "," (h :: t)).
    now rewrite IH.
  - destruct (split_comma s) as [|h t]; [contradiction|].
    now rewrite join_cons_head, IH.
Qed.

Lemma split_comma_free (s : string) :
  Forall (fun f => comma_free f = true) (split_comma s).
Proof.
  induction s as [|c s IH]; cbn [split_comma].
  - constructor; [reflexivity | constructor].
  - destruct (Ascii.eqb c ",") eqn:E.
    + constructor; [reflexivity | exact IH].
    + pose proof (split_comma_nonempty s) as Hn.
      destruct (split_comma s) as [|h t]; [contradiction|].
      inversion IH as [|? ? Hh Ht]; subst.
      constructor; [|exact Ht].
      unfold comma_free in *; cbn [all_chars]. now rewrite E, Hh.
Qed.

Lemma trimStart_all_chars p s :
  all_chars p s = true -> all_chars p (JS.trimStart s) = true.
Proof.
  induction s as [|c s IH]; cbn [JS.trimStart all_chars]; [trivial|].
  intros H. apply andb_true_iff in H as [Hc Hs].
  destruct (JS.is_space c); [now apply IH|].
  cbn [all_chars]. now rewrite Hc, Hs.
Qed.

Lemma trimEnd_all_chars p s :
  all_chars p s = true -> all_chars p (JS.trimEnd s) = true.
Proof.
  induction s as [|c s IH]; cbn [JS.trimEnd all_chars]; [trivial|].
  intros H. apply andb_true_iff in H as [Hc Hs].
  destruct (JS.is_space c && JS.is_empty (JS.trimEnd s)); [reflexivity|].
  cbn [all_chars]. now rewrite Hc, IH.
Qed.

Lemma trimStart_starts s : starts_with_space (JS.trimStart s) = false.
Proof.
  induction s as [|c s IH]; cbn [JS.trimStart]; [reflexivity|].
  destruct (JS.is_space c) eqn:E; [exact IH|]. cbn. exact E.
Qed.

Lemma trimEnd_ends s : ends_with_space (JS.trimEnd s) = false.
Proof.
  induction s as [|c s IH]; cbn [JS.trimEnd]; [reflexivity|].
  destruct (JS.trimEnd s) as [|c' r] eqn:Er; cbn [JS.is_empty].
  - rewrite andb_true_r. destruct (JS.is_space c) eqn:E; [reflexivity|].
    cbn. exact E.
  - rewrite andb_false_r. exact IH.
Qed.

Lemma trimEnd_starts s :
  starts_with_space s = false -> starts_with_space (JS.trimEnd s) = false.
Proof.
  destruct s as [|c s]; cbn [JS.trimEnd starts_with_space]; [trivial|].
  intros E. rewrite E. cbn [andb]. exact E.
Qed.

Lemma trim_clean (s : string) :
  comma_free s = true ->
  starts_with_space (JS.trim s) = false /\
  ends_with_space (JS.trim s) = false /\
  comma_free (JS.trim s) = true.
Proof.
  intros H. unfold JS.trim. split; [|split].
  - apply trimEnd_starts, trimStart_starts.
  - apply trimEnd_ends.
  - unfold comma_free in *. now apply trimEnd_all_chars, trimStart_all_chars.
Qed.

Lemma handleGetSalesOrders_fields_nonempty (f : option string) :
  handleGetSalesOrders_fields f <> [].
Proof.
  unfold handleGetSalesOrders_fields.
  destruct f as [s|]; [|discriminate].
  destruct (truthy_string s); [|discriminate].
  pose proof (split_comma_nonempty s) as Hn.
  destruct (split_comma s); [contradiction | discriminate].
Qed.

(** X18: the [fields] argument of [get_sales_orders] is cut at its commas
    and each piece trimmed: gluing the pieces back with commas gives the
    argument; no name that is sent has a comma in it or white space at
    either end; and the list is never empty.  An absent or empty argument
    selects the thirteen default fields. *)
Theorem requested_fields_are_split_and_trimmed (s : string) :
  s <> "" ->
  handleGetSalesOrders_fields (Some s) = map JS.trim (split_comma s) /\
  join "," (split_comma s) = s /\
  handleGetSalesOrders_fields (Some s) <> [] /\
  Forall (fun f => starts_with_space f = false /\
                   ends_with_space f = false /\
                   comma_free f = true)
         (handleGetSalesOrders_fields (Some s)) /\
  handleGetSalesOrders_fields None = default_order_fields /\
  handleGetSalesOrders_fields (Some "") = default_order_fields /\
  length default_order_fields = 13.
Proof.
  intros Hne.
  assert (E : handleGetSalesOrders_fields (Some s) = map JS.trim (split_comma s)).
  { unfold handleGetSalesOrders_fields. destruct s; [contradiction | reflexivity]. }
  split; [exact E|]. split; [apply join_split_comma|].
  split; [apply handleGetSalesOrders_fields_nonempty|].
  split; [|repeat split].
  rewrite E. apply Forall_map.
  eapply Forall_impl; [|apply split_comma_free].
  intros f Hf. now apply trim_clean.
Qed.

Lemma front_end_offset_nonnegative (o : option Z) :
  GetSalesOrdersArgsSchema_offset o = true ->
  handleGetSalesOrders_offset o = match o with Some n => n | None => 0%Z end /\
  (0 <= handleGetSalesOrders_offset o)%Z.
Proof.
  unfold GetSalesOrdersArgsSchema_offset, handleGetSalesOrders_offset.
  destruct o as [n|]; [|split; [reflexivity | lia]].
  intros Ho; apply Z.leb_le in Ho.
  destruct (Z.eqb n 0) eqn:E; [apply Z.eqb_eq in E; subst n|]; split;
    try reflexivity; lia.
Qed.

Lemma front_end_limit_as_given (l : option Z) :
  GetSalesOrdersArgsSchema_limit l = true ->
  handleGetSalesOrders_limit l = match l with Some n => n | None => 100%Z end /\
  (1 <= handleGetSalesOrders_limit l <= documented_limit_cap)%Z.
Proof.
  unfold GetSalesOrdersArgsSchema_limit, handleGetSalesOrders_limit,
    documented_limit_cap.
  destruct l as [n|]; [|split; [reflexivity | lia]].
  intros Hl; apply andb_true_iff in Hl as [H1 H2]. apply Z.leb_le in H1, H2.
  destruct (Z.eqb n 0) eqn:E; [apply Z.eqb_eq in E; lia|].
  split; [reflexivity | lia].
Qed.

Section FrontEnd.
Context {parser : URLParser} {json : JSONParser}.
Variable cfg : OdooConfig.

(** X19: what [get_sales_orders] sends.  For arguments that pass the schema
    and a client that holds an identity: when the filter text is given and
    [JSON.parse] throws on it, no remote call is made and the handler
    returns [Error:] with the parser's message; otherwise the one remote
    call is [search_read] on [sale.order] with the parsed filter, or the
    filter [state = sale] when the text is absent or empty, with the
    caller's limit, between 1 and 1000, or 100 when none is given; the
    caller's offset, at least 0, or 0; the order [date_order desc]; and an
    explicit, non-empty field list. *)
Theorem get_sales_orders_request
        (w : World) (args : GetSalesOrdersArgs) (c : Client) :
  GetSalesOrdersArgsSchema args = true ->
  identity_held c ->
  let run := handleGetSalesOrders_call cfg w args c in
  (forall m,
      handleGetSalesOrders_domain (arg_domain args) = SyntaxError m ->
      run = (c, Caught ("Error: " ++ m))) /\
  (forall d,
      handleGetSalesOrders_domain (arg_domain args) = ParsedValue d ->
      exists kw result,
        snd run = Searched result /\
        uid (fst run) = uid c /\
        calls (fst run) =
        (calls c ++ [ObjectExecuteKw (database cfg) (uid c) (password cfg)
                       "sale.order" "search_read" [d] kw])%list /\
        member kw "limit" =
          Some (JNum (match arg_limit args with Some n => n | None => 100%Z end)) /\
        (1 <= match arg_limit args with Some n => n | None => 100%Z end
           <= documented_limit_cap)%Z /\
        member kw "offset" =
          Some (JNum (match arg_offset args with Some n => n | None => 0%Z end)) /\
        (0 <= match arg_offset args with Some n => n | None => 0%Z end)%Z /\
        member kw "order" = Some (JStr "date_order desc") /\
        member kw "fields" =
          Some (JArr (map JStr (handleGetSalesOrders_fields (arg_fields args)))) /\
        handleGetSalesOrders_fields (arg_fields args) <> []) /\
  (unset (arg_domain args) = true ->
   handleGetSalesOrders_domain (arg_domain args) =
   ParsedValue (JArr [triplet "state" "=" (JStr "sale")])) /\
  (forall text,
      arg_domain args = Some text -> text <> "" ->
      handleGetSalesOrders_domain (arg_domain args) = JSON_parse text).
Proof.
  intros Hschema Hheld. cbv zeta.
  apply andb_true_iff in Hschema as [Hl Ho].
  destruct (front_end_limit_as_given _ Hl) as [Hl1 Hl2].
  destruct (front_end_offset_nonnegative _ Ho) as [Ho1 Ho2].
  unfold handleGetSalesOrders_call.
  split; [|split; [|split]].
  - intros m ->. reflexivity.
  - intros d ->.
    pose proof (searchRead_calls_held cfg w "sale.order"
                  (handleGetSalesOrders_query d (arg_fields args)
                     (arg_limit args) (arg_offset args)) c Hheld) as Hcalls.
    pose proof (searchRead_identity_kept cfg w "sale.order"
                  (handleGetSalesOrders_query d (arg_fields args)
                     (arg_limit args) (arg_offset args)) c Hheld) as Huid.
    destruct (searchRead cfg w "sale.order" _ c) as [c' result].
    cbn [fst snd] in *.
    exists (search_kwargs (handleGetSalesOrders_query d (arg_fields args)
                             (arg_limit args) (arg_offset args))), result.
    split; [reflexivity|]. split; [exact Huid|]. split; [exact Hcalls|].
    unfold search_kwargs, handleGetSalesOrders_query;
      cbn [fields limit offset order member String.eqb Ascii.eqb Bool.eqb].
    rewrite Hl1 in Hl2 |- *. rewrite Ho1 in Ho2 |- *.
    split; [reflexivity|]. split; [exact Hl2|].
    split; [reflexivity|]. split; [exact Ho2|].
    split; [reflexivity|].
    pose proof (handleGetSalesOrders_fields_nonempty (arg_fields args)) as Hf.
    split; [|exact Hf].
    destruct (handleGetSalesOrders_fields (arg_fields args));
      [contradiction | reflexivity].
  - unfold handleGetSalesOrders_domain, unset.
    destruct (arg_domain args) as [text|]; [|reflexivity].
    intros H. apply negb_true_iff in H. now rewrite H.
  - intros text -> Hne. unfold handleGetSalesOrders_domain.
    destruct text; [contradiction | reflexivity].
Qed.

(** X20: the statistics query and the order-lines query are capped by the
    client's defaults.  Whatever the date range, [get_sales_stats] reads
    confirmed orders with limit 100, offset 0 and order [id desc], its
    filter starting with the state triplet and holding at most two date
    bounds; the lines of an order are read with limit 100 as well; and the
    order itself with limit 1 and no field list. *)
Theorem statistics_and_lines_use_the_default_limit
        (w : World) (date_from date_to : option string)
        (orderId order_line : jsval) (c : Client) :
  identity_held c ->
  (exists kw,
      calls (fst (searchRead cfg w "sale.order"
                    (handleGetSalesStats_query date_from date_to) c)) =
      (calls c ++ [ObjectExecuteKw (database cfg) (uid c) (password cfg)
                     "sale.order" "search_read"
                     [JArr (handleGetSalesStats_domain date_from date_to)] kw])%list /\
      member kw "limit" = Some (JNum 100) /\
      member kw "offset" = Some (JNum 0) /\
      member kw "order" = Some (JStr "id desc")) /\
  hd_error (handleGetSalesStats_domain date_from date_to) =
    Some (triplet "state" "=" (JStr "sale")) /\
  1 <= length (handleGetSalesStats_domain date_from date_to) <= 3 /\
  (exists kw,
      calls (fst (searchRead cfg w "sale.order.line"
                    (handleGetSalesOrderDetails_lines_query order_line) c)) =
      (calls c ++ [ObjectExecuteKw (database cfg) (uid c) (password cfg)
                     "sale.order.line" "search_read"
                     [JArr [triplet "id" "in" order_line]] kw])%list /\
      member kw "limit" = Some (JNum 100) /\
      member kw "offset" = Some (JNum 0) /\
      member kw "order" = Some (JStr "id desc")) /\
  (exists kw,
      calls (fst (searchRead cfg w "sale.order"
                    (handleGetSalesOrderDetails_order_query orderId) c)) =
      (calls c ++ [ObjectExecuteKw (database cfg) (uid c) (password cfg)
                     "sale.order" "search_read"
                     [JArr [triplet "id" "=" orderId]] kw])%list /\
      member kw "limit" = Some (JNum 1) /\
      member kw "fields" = Some JUndefined).
Proof.
  intros Hheld.
  rewrite !(searchRead_calls_held cfg _ _ _ _ Hheld).
  split; [eexists; split; [reflexivity | repeat split]|].
  split; [reflexivity|].
  split; [unfold handleGetSalesStats_domain;
          destruct (unset date_from), (unset date_to); cbn; lia|].
  split; eexists; (split; [reflexivity | repeat split]).
Qed.

End FrontEnd.

(** ** Worked instances of the further properties *)

(** A fresh session counts orders twice.  The first count's authentication
    times out and the count fails; the transport's reply arrives late and
    stores identity 7; the second count goes out with that identity and
    without a second authentication.  The same happens when the late reply
    arrives as a step of its own. *)
Lemma data_calls_carry_identity_witness :
  trace (@perform_all plain_parser acme_config
           [DoCount slow_world "sale.order" None;
            DoCount slow_world "sale.order" None] new_session) =
    [Logged (authenticate_call acme_config);
     ObjectSearchCount "acme" (JNum 7) "secret" "sale.order" []] /\
  trace (@perform_all plain_parser acme_config
           [DoCount silent_world "sale.order" None;
            LateReply None (JNum 7) unreachable_diagnostics;
            DoCount silent_world "sale.order" None] new_session) =
    [Logged (authenticate_call acme_config);
     ObjectSearchCount "acme" (JNum 7) "secret" "sale.order" []] /\
  truthy (JNum 7) = true.
Proof.
  split; [reflexivity|]. split; [reflexivity|].
  destruct (@data_calls_carry_identity plain_parser acme_config
              [DoCount slow_world "sale.order" None;
               DoCount slow_world "sale.order" None] new_session)
    as (new & Ht & H).
  apply (H (ObjectSearchCount "acme" (JNum 7) "secret" "sale.order" []));
    [|reflexivity].
  assert (E : new = [Logged (authenticate_call acme_config);
                     ObjectSearchCount "acme" (JNum 7) "secret" "sale.order" []])
    by (symmetry; exact Ht).
  rewrite E. right; left; reflexivity.
Defined.

(** A held identity survives a rejected re-authentication, a late reply
    that reports rejected credentials, and a count. *)
Lemma identity_is_never_cleared_witness :
  truthy (session_uid
            (@perform_all plain_parser acme_config
               [DoAuthenticate [Callback None (JBool false) unreachable_diagnostics];
                LateReply None (JBool false) unreachable_diagnostics;
                DoCount welcoming_world "sale.order" None]
               held_session)) = true.
Proof.
  destruct (@identity_is_never_cleared plain_parser acme_config
              [DoAuthenticate [Callback None (JBool false) unreachable_diagnostics];
               LateReply None (JBool false) unreachable_diagnostics;
               DoCount welcoming_world "sale.order" None]
              held_session) as (_ & _ & H).
  apply H. reflexivity.
Defined.

(** Three operations on a held identity: no authentication, same identity. *)
Lemma held_identity_is_reused_witness :
  session_uid
    (@perform_all plain_parser acme_config
       [DoSearchRead rows_world "sale.order" no_params;
        DoCount welcoming_world "sale.order" None;
        DoTestConnection []]
       held_session) = JNum 7.
Proof.
  destruct (@held_identity_is_reused plain_parser acme_config
              [DoSearchRead rows_world "sale.order" no_params;
               DoCount welcoming_world "sale.order" None;
               DoTestConnection []]
              held_session) as (new & _ & _ & H).
  destruct (H eq_refl eq_refl) as [_ Hu]. exact (Hu eq_refl).
Defined.

(** The count of an empty collection: a success with payload 0. *)
Lemma outcomes_are_well_formed_witness :
  @count plain_parser acme_config welcoming_world "sale.order" None held_session =
    ({| session_uid := JNum 7;
        trace := [ObjectSearchCount "acme" (JNum 7) "secret" "sale.order" []] |},
     Resolved (ok (JNum 0))) /\
  well_formed_outcome (ok (JNum 0)).
Proof.
  split; [reflexivity|].
  destruct (@outcomes_are_well_formed plain_parser acme_config)
    as (_ & _ & _ & _ & Hcount & _).
  exact (Hcount welcoming_world "sale.order" None held_session _ _ eq_refl).
Defined.

Lemma authentication_outcome_matches_identity_witness :
  @authenticate plain_parser acme_config
     [Callback None (JNum 7) unreachable_diagnostics] new_client =
    ({| uid := JNum 7; calls := [authenticate_call acme_config] |},
     Resolved (ok (JNum 7))) /\
  data (ok (JNum 7)) = Some (JNum 7) /\ truthy (JNum 7) = true.
Proof.
  split; [reflexivity|].
  destruct (@authentication_outcome_matches_identity plain_parser acme_config
              [Callback None (JNum 7) unreachable_diagnostics] new_client
              {| uid := JNum 7; calls := [authenticate_call acme_config] |}
              (ok (JNum 7)) eq_refl) as (H & _).
  exact (H eq_refl).
Defined.


Lemma count_and_getFields_verdict_witness :
  snd (@count plain_parser acme_config welcoming_world "sale.order" None
         held_session) = Resolved (ok (JNum 0)) /\
  snd (@getFields plain_parser acme_config welcoming_world "sale.order"
         held_session) = Resolved (ok (JNum 0)).
Proof.
  destruct (@count_and_getFields_verdict plain_parser acme_config welcoming_world
              "sale.order" None held_session eq_refl) as (H & _).
  exact (H (JNum 0) eq_refl).
Defined.

Lemma count_and_getFields_require_identity_witness :
  @count plain_parser acme_config rejecting_world "sale.order" None new_session =
    ({| session_uid := JNull;
        trace := [Logged (authenticate_call acme_config)] |},
     Resolved (failure msg_invalid_credentials)).
Proof.
  destruct (@count_and_getFields_require_identity plain_parser acme_config
              rejecting_world "sale.order" None new_session
              {| uid := JNull; calls := [authenticate_call acme_config] |}
              (failure msg_invalid_credentials) eq_refl eq_refl eq_refl)
    as (H & _).
  exact H.
Defined.

(** The diagnosis of an HTML answer is the same for [SearchRead] and for
    [Authentication]. *)
Lemma classifier_network_frame_witness :
  @validateXmlRpcResponse plain_parser acme_config jsval login_page_diagnostics
    (Some html_tag_error) JUndefined "SearchRead" =
  @validateXmlRpcResponse plain_parser acme_config jsval login_page_diagnostics
    (Some html_tag_error) JUndefined "Authentication".
Proof.
  destruct (@classifier_network_frame plain_parser acme_config acme_url eq_refl
              login_page_diagnostics login_page_diagnostics
              (Some html_tag_error) JUndefined "SearchRead") as (_ & H & _).
  exact (H html_tag_error "Unknown XML-RPC tag 'HTML'" "Authentication"
           eq_refl eq_refl eq_refl).
Defined.

Lemma missing_tag_is_reported_as_undefined_witness :
  (exists detailedError,
      @validateXmlRpcResponse plain_parser acme_config jsval
        unreachable_diagnostics (Some bare_tag_error) JUndefined "SearchRead" =
      Resolved (failure detailedError) /\
      JS.startsWith detailedError
        "Server returned non-XML-RPC response (found <undefined> tag). " = true) /\
  @validateXmlRpcResponse plain_parser acme_config jsval
    cut_short_diagnostics (Some bare_tag_error) JUndefined "SearchRead" = Pending.
Proof.
  assert (Hno : forall pre X, ~ signature_at "Unknown XML-RPC tag" pre X).
  { intros pre X (post & H & _).
    apply (f_equal String.length) in H.
    rewrite !length_append in H. cbn [String.length] in H. lia. }
  split.
  - destruct (@missing_tag_is_reported_as_undefined plain_parser acme_config
                acme_url eq_refl unreachable_diagnostics bare_tag_error
                "Unknown XML-RPC tag" JUndefined "SearchRead"
                eq_refl eq_refl Hno) as (Hall & Hreturns & _).
    destruct Hreturns as (r & Hr); [intros sc sm hdrs; discriminate|].
    destruct (Hall r Hr) as (d & -> & Hd).
    exists d. split; [exact Hr | exact Hd].
  - destruct (@missing_tag_is_reported_as_undefined plain_parser acme_config
                acme_url eq_refl cut_short_diagnostics bare_tag_error
                "Unknown XML-RPC tag" JUndefined "SearchRead"
                eq_refl eq_refl Hno) as (_ & _ & Hcut).
    exact (Hcut 200%Z "OK" [("content-type", "text/html; charset=utf-8")] eq_refl).
Defined.

(** The server answers the authentication with an HTML page and cuts the
    body of the diagnosis fetch: the call stays pending although its timer
    runs out. *)
Lemma hung_diagnosis_defeats_the_timeout_witness :
  @authenticate plain_parser acme_config
    [Callback (Some html_tag_error) JUndefined cut_short_diagnostics; TimerFired]
    new_client =
  ({| uid := JNull; calls := [authenticate_call acme_config] |}, Pending).
Proof.
  destruct (@hung_diagnosis_defeats_the_timeout plain_parser acme_config
              acme_url eq_refl cut_short_diagnostics html_tag_error
              "Unknown XML-RPC tag 'HTML'" JUndefined 200%Z "OK"
              [("content-type", "text/html; charset=utf-8")] [TimerFired]
              eq_refl eq_refl eq_refl) as (H & _).
  - intros ev [<-|[]]. reflexivity.
  - exact (H new_client).
Defined.

Lemma parseable_address_suggestions_witness :
  4 <= length (suggestions (@validateAndSuggestUrls plain_parser
                              "http://localhost:8069")) <= 7 /\
  In "http://localhost:8069:8069/xmlrpc/2/common"
     (suggestions (@validateAndSuggestUrls plain_parser "http://localhost:8069")).
Proof.
  destruct (@parseable_address_suggestions plain_parser "http://localhost:8069"
              (mkURL "http:" "localhost" "8069" "/") eq_refl)
    as (_ & Hlen & _ & _ & Hin & _).
  split; [exact Hlen | exact Hin].
Defined.

Lemma decimal_port_is_used_witness :
  req_port (probe_request proxied_url "/xmlrpc/2/common") = 8080%Z /\
  req_port (fetch_request proxied_url "/xmlrpc/2/common") = 8080%Z.
Proof.
  destruct (decimal_port_is_used proxied_url "/xmlrpc/2/common") as (H & _).
  apply (H 8080%Z); [lia | reflexivity].
Defined.

Lemma loaded_configuration_is_complete_and_clean_witness :
  @validateConfig plain_parser acme_env =
    Loaded {| url := "https://acme.example.com"; database := "acme";
              username := "admin"; password := "secret" |} /\
  url {| url := "https://acme.example.com"; database := "acme";
         username := "admin"; password := "secret" |} <> "".
Proof.
  split; [reflexivity|].
  destruct (@loaded_configuration_is_complete_and_clean plain_parser acme_env
              {| url := "https://acme.example.com"; database := "acme";
                 username := "admin"; password := "secret" |} eq_refl)
    as (H & _).
  exact H.
Defined.

Lemma new_names_take_precedence_witness :
  database {| url := "https://acme.example.com"; database := "acme";
              username := "admin"; password := "secret" |} = "acme" /\
  ODOO_USERNAME acme_env = Some "admin".
Proof.
  destruct (@new_names_take_precedence plain_parser acme_env
              {| url := "https://acme.example.com"; database := "acme";
                 username := "admin"; password := "secret" |} eq_refl)
    as (_ & _ & Hdb & _ & _ & Huser & _).
  split; [exact (Hdb "acme" eq_refl) | exact (Huser eq_refl)].
Defined.

(** A stale [ODOO_URL] that does not parse makes the load fail although
    [ODOO_HOST] is good. *)
Lemma configuration_load_outcomes_witness :
  exists m, @validateConfig plain_parser stale_env = Thrown m /\
            JS.startsWith m "Configuration validation failed:" = true.
Proof.
  destruct (@configuration_load_outcomes plain_parser stale_env) as (_ & H & _).
  apply H. intros (Hurl & _).
  destruct (Hurl "acme.example.com" eq_refl) as (u & Hu). discriminate Hu.
Defined.

Lemma date_schema_accepts_only_its_own_text_witness :
  GetSalesStatsArgsSchema_date (Some "2024-01-01") = false.
Proof.
  destruct (date_schema_accepts_only_its_own_text "2024-01-01") as (_ & H & _).
  apply H. reflexivity.
Defined.

Lemma requested_fields_are_split_and_trimmed_witness :
  handleGetSalesOrders_fields (Some "id, name ,state") = ["id"; "name"; "state"] /\
  join "," (split_comma "id, name ,state") = "id, name ,state".
Proof.
  destruct (requested_fields_are_split_and_trimmed "id, name ,state")
    as (H1 & H2 & _); [discriminate|].
  split; [rewrite H1; reflexivity | exact H2].
Defined.

(** Fifty orders with the default filter; and a blank filter text, on which
    [JSON.parse] throws: nothing is sent. *)
Lemma get_sales_orders_request_witness :
  (exists kw,
      calls (fst (@handleGetSalesOrders_call plain_parser sample_JSON acme_config
                    rows_world fifty_orders signed_in)) =
      [ObjectExecuteKw "acme" (JNum 7) "secret" "sale.order" "search_read"
                       [JArr [triplet "state" "=" (JStr "sale")]] kw] /\
      member kw "limit" = Some (JNum 50) /\
      member kw "offset" = Some (JNum 0)) /\
  @handleGetSalesOrders_call plain_parser sample_JSON acme_config rows_world
    blank_filter signed_in =
  (signed_in, Caught "Error: Unexpected end of JSON input").
Proof.
  split.
  - destruct (@get_sales_orders_request plain_parser sample_JSON acme_config
                rows_world fifty_orders signed_in eq_refl eq_refl)
      as (_ & H & _).
    destruct (H (JArr [triplet "state" "=" (JStr "sale")]) eq_refl)
      as (kw & result & _ & _ & Hc & Hl & _ & Ho & _).
    exists kw. repeat split; assumption.
  - destruct (@get_sales_orders_request plain_parser sample_JSON acme_config
                rows_world blank_filter signed_in eq_refl eq_refl)
      as (H & _).
    exact (H "Unexpected end of JSON input" eq_refl).
Defined.

Lemma statistics_and_lines_use_the_default_limit_witness :
  exists kw,
    calls (fst (@searchRead plain_parser acme_config rows_world "sale.order"
                  (handleGetSalesStats_query None None) signed_in)) =
    [ObjectExecuteKw "acme" (JNum 7) "secret" "sale.order" "search_read"
                     [JArr [triplet "state" "=" (JStr "sale")]] kw] /\
    member kw "limit" = Some (JNum 100).
Proof.
  destruct (@statistics_and_lines_use_the_default_limit plain_parser acme_config
              rows_world None None (JNum 1) (JArr []) signed_in eq_refl)
    as ((kw & Hc & Hl & _) & _).
  exists kw. split; [exact Hc | exact Hl].
Defined.

(** ** The first remediation line *)

Lemma includes_tail (c : ascii) (hay needle : string) :
  JS.includes (String c hay) needle = false ->
  JS.startsWith (String c hay) needle = false /\ JS.includes hay needle = false.
Proof.
  cbn [JS.includes].
  destruct (JS.startsWith (String c hay) needle); [discriminate | now split].
Qed.

(** Taking the sub-path off an address that has no [/x] in it gives the
    address back. *)
Lemma replace_appended_path (b : string) :
  JS.includes b "/x" = false ->
  JS.replace (b ++ "/xmlrpc/2/common") "/xmlrpc/2/common" "" = b.
Proof.
  induction b as [|c b IH]; intros H; [reflexivity|].
  apply includes_tail in H as [Hs Hi].
  change (String c b ++ "/xmlrpc/2/common")
    with (String c (b ++ "/xmlrpc/2/common")).
  assert (Hp : JS.strip_prefix "/xmlrpc/2/common"
                 (String c (b ++ "/xmlrpc/2/common")) = None).
  { cbn [JS.strip_prefix].
    destruct (Ascii.eqb "/" c) eqn:Ec; [|reflexivity].
    destruct b as [|c2 b]; [reflexivity|].
    cbn [append JS.strip_prefix].
    destruct (Ascii.eqb "x" c2) eqn:Ex; [|reflexivity].
    exfalso. unfold JS.startsWith in Hs. cbn [JS.strip_prefix] in Hs.
    now rewrite Ec, Ex in Hs. }
  cbn [JS.replace]. rewrite Hp. fold JS.replace. now rewrite IH.
Qed.

Lemma spread_set_cons (x : string) (l : list string) :
  spread_set (x :: l) =
  x :: spread_set (filter (fun y => negb (String.eqb y x)) l).
Proof.
  unfold spread_set. cbn [fold_left].
  replace (set_add [] x) with [x] by reflexivity.
  apply fold_set_add_cons.
Qed.

Section FirstRemedy.
Context {parser : URLParser}.

(** X12: for a configured address without a path and without [/x] in it,
    the numbered list of addresses to try, which the HTML diagnosis prints,
    opens with the configured address itself (less a final slash): the
    resolver pushes the address with the sub-path first, and the list
    printer takes the sub-path off again. *)
Theorem first_remedy_is_the_configured_address (configUrl : string) (u : URL) :
  new_URL configUrl = Some u ->
  pathname u = "/" \/ pathname u = "" ->
  JS.includes (JS.strip_trailing_slash configUrl) "/x" = false ->
  exists rest,
    suggestion_lines 0
      (firstn 5 (suggestions (validateAndSuggestUrls configUrl))) =
    nl ++ "1. ODOO_URL=" ++ JS.strip_trailing_slash configUrl ++ rest.
Proof.
  intros Hparse Hpath Hfree. unfold validateAndSuggestUrls. rewrite Hparse.
  replace (String.eqb (pathname u) "/" || String.eqb (pathname u) "") with true
    by (destruct Hpath as [-> | ->]; reflexivity).
  cbn [suggestions app]. rewrite spread_set_cons.
  cbn [firstn suggestion_lines]. rewrite (replace_appended_path _ Hfree).
  eexists. reflexivity.
Qed.

End FirstRemedy.

Lemma first_remedy_is_the_configured_address_witness :
  exists rest,
    suggestion_lines 0
      (firstn 5 (suggestions (@validateAndSuggestUrls plain_parser
                                "https://acme.example.com"))) =
    nl ++ "1. ODOO_URL=" ++ "https://acme.example.com" ++ rest.
Proof.
  exact (@first_remedy_is_the_configured_address plain_parser
           "https://acme.example.com" acme_url eq_refl (or_introl eq_refl)
           eq_refl).
Defined.
